(** * The presigned-upload worker: issuance and confirmation of object keys

    A shallow embedding of the Cloudflare worker that hands out presigned
    S3 upload URLs ([handleUploadUrl]) and confirms uploaded keys
    ([handleConfirmUpload]), with the two regular expressions it relies on,
    the JavaScript coercions it applies to JSON request bodies, and the
    module-level [s3Client] handle it initialises lazily in [fetch]. *)

From Stdlib Require Import List NArith ZArith Bool Ascii String Lia.
From Stdlib Require Import DecimalString DecimalPos DecimalZ.
Import ListNotations.

Set Implicit Arguments.
Set Warnings "-register-all".

Local Open Scope N_scope.

(* ================================================================= *)
(** ** JavaScript strings *)

(** A JavaScript string is a sequence of UTF-16 code units. *)
Definition code_unit := N.
Definition jsstring := list code_unit.

(** String literals of the source, all ASCII, are written as Rocq strings. *)
Definition js (s : string) : jsstring := map N_of_ascii (list_ascii_of_string s).
Arguments js s%_string.

Fixpoint str_eqb (a b : jsstring) : bool :=
  match a, b with
  | [], [] => true
  | x :: a', y :: b' => N.eqb x y && str_eqb a' b'
  | _, _ => false
  end.

(** [Array.prototype.join] on already rendered elements. *)
Fixpoint join (sep : jsstring) (parts : list jsstring) : jsstring :=
  match parts with
  | [] => []
  | [p] => p
  | p :: rest => p ++ sep ++ join sep rest
  end.

(** [Number::toString] on the integral values [Date.now()] returns: a time
    value is an integer of magnitude at most 8.64e15, far below the 1e21
    where the exponent notation starts, so the rendering is the plain
    decimal one, with a leading minus sign below zero. *)
Definition Number_toString (z : Z) : jsstring :=
  js (NilZero.string_of_int (Z.to_int z)).

(* ================================================================= *)
(** ** Character classes of ECMAScript regular expressions (no flags) *)

Definition in_range (lo hi c : code_unit) : bool := (lo <=? c) && (c <=? hi).

(** [\d] *)
Definition is_digit (c : code_unit) : bool := in_range 48 57 c.

(** [\w]: [A-Za-z0-9_] *)
Definition is_word (c : code_unit) : bool :=
  in_range 65 90 c || in_range 97 122 c || is_digit c || (c =? 95).

(** LineTerminator: LF, CR, U+2028, U+2029 *)
Definition is_line_terminator (c : code_unit) : bool :=
  (c =? 10) || (c =? 13) || (c =? 8232) || (c =? 8233).

(** WhiteSpace: TAB, VT, FF, SP, NBSP, U+1680, U+2000..U+200A, U+202F,
    U+205F, U+3000, U+FEFF *)
Definition is_white_space (c : code_unit) : bool :=
  (c =? 9) || (c =? 11) || (c =? 12) || (c =? 32) || (c =? 160)
  || (c =? 5760) || in_range 8192 8202 c || (c =? 8239)
  || (c =? 8287) || (c =? 12288) || (c =? 65279).

(** [\s]: WhiteSpace or LineTerminator *)
Definition is_space (c : code_unit) : bool :=
  is_white_space c || is_line_terminator c.

(** One-character matchers: a literal, [.], the escapes [\d] [\w] [\s] [\S],
    and a bracket class, possibly negated, over such items. *)
Inductive cls : Type :=
| Lit (c : code_unit)
| AnyChar
| EscD
| EscW
| EscS
| EscNotS
| Bracket (negated : bool) (items : list cls).

Fixpoint cls_matches (a : cls) (c : code_unit) : bool :=
  match a with
  | Lit d => (c =? d)
  | AnyChar => negb (is_line_terminator c)
  | EscD => is_digit c
  | EscW => is_word c
  | EscS => is_space c
  | EscNotS => negb (is_space c)
  | Bracket negated items =>
      xorb negated (existsb (fun i => cls_matches i c) items)
  end.

(* ================================================================= *)
(** ** Regular expressions *)

Inductive regex : Type :=
| Void
| Eps
| Atom (a : cls)
| Cat (r1 r2 : regex)
| Alt (r1 r2 : regex)
| Star (r : regex).

(** [r+] *)
Definition Plus (r : regex) : regex := Cat r (Star r).

(** A run of literal characters. *)
Fixpoint Lits (s : jsstring) : regex :=
  match s with
  | [] => Eps
  | c :: s' => Cat (Atom (Lit c)) (Lits s')
  end.

(** The language of a pattern. *)
Inductive Matches : regex -> jsstring -> Prop :=
| MEps : Matches Eps []
| MAtom a c : cls_matches a c = true -> Matches (Atom a) [c]
| MCat r1 r2 s1 s2 :
    Matches r1 s1 -> Matches r2 s2 -> Matches (Cat r1 r2) (s1 ++ s2)
| MAltL r1 r2 s : Matches r1 s -> Matches (Alt r1 r2) s
| MAltR r1 r2 s : Matches r2 s -> Matches (Alt r1 r2) s
| MStarNil r : Matches (Star r) []
| MStarCons r s1 s2 :
    Matches r s1 -> Matches (Star r) s2 -> Matches (Star r) (s1 ++ s2).

(** Matching by derivatives. *)
Fixpoint nullable (r : regex) : bool :=
  match r with
  | Void => false
  | Eps => true
  | Atom _ => false
  | Cat r1 r2 => nullable r1 && nullable r2
  | Alt r1 r2 => nullable r1 || nullable r2
  | Star _ => true
  end.

Fixpoint deriv (c : code_unit) (r : regex) : regex :=
  match r with
  | Void => Void
  | Eps => Void
  | Atom a => if cls_matches a c then Eps else Void
  | Cat r1 r2 =>
      if nullable r1
      then Alt (Cat (deriv c r1) r2) (deriv c r2)
      else Cat (deriv c r1) r2
  | Alt r1 r2 => Alt (deriv c r1) (deriv c r2)
  | Star r1 => Cat (deriv c r1) (Star r1)
  end.

Fixpoint full_match (r : regex) (s : jsstring) : bool :=
  match s with
  | [] => nullable r
  | c :: s' => full_match (deriv c r) s'
  end.

(** [/^r$/.test(s)]: without the [m] flag the anchors are the two ends of the
    input, so the test is membership of the whole string in the language. *)
Definition RegExp_test_anchored (r : regex) (s : jsstring) : bool := full_match r s.

(** [s.replace(/a/g, by)] for a pattern made of one character matcher: every
    code unit the matcher accepts is replaced, the others are kept. *)
Definition String_replace_all (a : cls) (by_ : jsstring) (s : jsstring) : jsstring :=
  flat_map (fun c => if cls_matches a c then by_ else [c]) s.

(* ----------------------------------------------------------------- *)
(** *** The two patterns of the worker *)

(** [/[^\w\s.-]/g] in [handleUploadUrl] *)
Definition unsafe_filename_char : cls :=
  Bracket true [EscW; EscS; Lit 46; Lit 45].

(** [[\w-]] *)
Definition word_or_hyphen : cls := Bracket false [EscW; Lit 45].

(** [/^uploads\/\d+-[\w-]+-.*$/] in [handleConfirmUpload] *)
Definition key_pattern : regex :=
  Cat (Lits (js "uploads/"))
   (Cat (Plus (Atom EscD))
    (Cat (Atom (Lit 45))
     (Cat (Plus (Atom word_or_hyphen))
      (Cat (Atom (Lit 45))
           (Star (Atom AnyChar)))))).

(* ================================================================= *)
(** ** JSON values and the coercions applied to them *)

(** IEEE-754 arithmetic is not modelled: a JSON number is kept as the two
    observations the handlers can make of one, its [ToBoolean] and its
    [ToString] images. *)
Record jsnumber : Type := { number_truthy : bool; number_text : jsstring }.

Inductive json : Type :=
| JNull
| JBool (b : bool)
| JNum (n : jsnumber)
| JStr (s : jsstring)
| JArr (elements : list json)
| JObj (props : list (jsstring * json)).

(** A JavaScript value read out of a parsed body or out of [env]:
    [None] is [undefined]. *)
Definition value := option json.

Definition ToBoolean (v : value) : bool :=
  match v with
  | None => false
  | Some JNull => false
  | Some (JBool b) => b
  | Some (JNum n) => number_truthy n
  | Some (JStr s) => negb (str_eqb s [])
  | Some (JArr _) => true
  | Some (JObj _) => true
  end.

(** The own property [p] of a parsed object, [undefined] when it has none:
    [JSON.parse] leaves every name at most once in [props]. *)
Fixpoint lookup (p : jsstring) (props : list (jsstring * json)) : value :=
  match props with
  | [] => None
  | (k, v) :: rest => if str_eqb k p then Some v else lookup p rest
  end.

(** [JSON.stringify] of an object literal: the body is kept as the JSON
    value that is serialised; properties whose value is [undefined] are
    left out, as [JSON.stringify] does. *)
Fixpoint defined_props (props : list (jsstring * value)) : list (jsstring * json) :=
  match props with
  | [] => []
  | (_, None) :: rest => defined_props rest
  | (k, Some v) :: rest => (k, v) :: defined_props rest
  end.

Definition JSON_stringify (props : list (jsstring * value)) : json :=
  JObj (defined_props props).

(* ================================================================= *)
(** ** Exceptions, the worker's state and its effects *)

Record Error : Type := { name : jsstring; message : jsstring }.

(** [Error.prototype.toString] *)
Definition Error_toString (e : Error) : jsstring :=
  if str_eqb (name e) [] then message e
  else if str_eqb (message e) [] then name e
  else name e ++ js ": " ++ message e.

Inductive completion (A : Type) : Type :=
| Normal (a : A)
| Throw (e : Error).
Arguments Normal {A} a.
Arguments Throw {A} e.

Definition TypeError (msg : jsstring) : Error :=
  {| name := js "TypeError"; message := msg |}.

(** The conversions of a list, in order: the first one that throws makes the
    whole throw. *)
Fixpoint all_Normal {A : Type} (l : list (completion A)) : completion (list A) :=
  match l with
  | [] => Normal []
  | Throw e :: _ => Throw e
  | Normal a :: rest =>
      match all_Normal rest with
      | Normal l' => Normal (a :: l')
      | Throw e => Throw e
      end
  end.

(** [ToString] of a parsed value. A string is itself; [null], a boolean and a
    number have their text. An array goes through [Array.prototype.join]:
    its elements converted in order, [null] giving the empty string, with
    commas between. An object goes through [Object.prototype.toString] and
    gives [[object Object]], unless it has an own property [toString]: what
    [JSON.parse] stored there is not callable, and [valueOf] gives no
    primitive either (the inherited one returns the object, an own one is not
    callable), so the conversion throws a [TypeError] (the message is V8's). *)
Fixpoint json_ToString (v : json) : completion jsstring :=
  match v with
  | JNull => Normal (js "null")
  | JBool true => Normal (js "true")
  | JBool false => Normal (js "false")
  | JNum n => Normal (number_text n)
  | JStr s => Normal s
  | JArr elements =>
      match all_Normal
              (map (fun e => match e with JNull => Normal [] | _ => json_ToString e end)
                 elements) with
      | Normal parts => Normal (join (js ",") parts)
      | Throw e => Throw e
      end
  | JObj props =>
      match lookup (js "toString") props with
      | Some _ => Throw (TypeError (js "Cannot convert object to primitive value"))
      | None => Normal (js "[object Object]")
      end
  end.

Definition ToString (v : value) : completion jsstring :=
  match v with
  | None => Normal (js "undefined")
  | Some j => json_ToString j
  end.

(** The bindings of the worker. *)
Record Env : Type := {
  AWS_ACCESS_KEY_ID : option jsstring;
  AWS_SECRET_ACCESS_KEY : option jsstring;
  AWS_REGION : option jsstring;
  AWS_S3_BUCKET : option jsstring;
  ALLOWED_ORIGIN : option jsstring
}.

Definition binding (b : option jsstring) : value := option_map JStr b.

(** The text of a binding, which is a string or [undefined]: its [ToString],
    which never throws. *)
Definition binding_text (b : option jsstring) : jsstring :=
  match b with
  | Some s => s
  | None => js "undefined"
  end.

Record S3Client : Type := {
  region : value;
  accessKeyId : value;
  secretAccessKey : value
}.

Record PutObjectCommand : Type := {
  Bucket : value;
  Key : jsstring;
  ContentType : value
}.

(** What a handler does besides computing its response. *)
Inductive event : Type :=
| NewS3Client (c : S3Client)
| GetSignedUrl (c : S3Client) (cmd : PutObjectCommand) (expiresIn : N)
| ConsoleError (line : jsstring).

(** The module-level [let s3Client = null] and the effects performed so far,
    latest last. *)
Record machine : Type := {
  s3Client : option S3Client;
  trace : list event
}.

(** What [crypto.randomUUID()] returns: a version-4 UUID, 36 code units of
    lower-case hexadecimal in groups of 8-4-4-4-12 joined by hyphens. *)
Definition is_lower_hex (c : code_unit) : bool := is_digit c || in_range 97 102 c.

Definition uuid_unit_ok (i : nat) (c : code_unit) : bool :=
  match i with
  | 8%nat | 13%nat | 18%nat | 23%nat => c =? 45
  | 14%nat => c =? 52
  | 19%nat => in_range 56 57 c || in_range 97 98 c
  | _ => is_lower_hex c
  end.

Definition is_uuid (u : jsstring) : bool :=
  (List.length u =? 36)%nat
  && forallb (fun ic => uuid_unit_ok (fst ic) (snd ic)) (combine (seq 0 36) u).

(** What the platform and the SDK answer during one request: the
    milliseconds elapsed since the epoch, a fresh UUID, and the outcome of
    the presigner. *)
Record platform : Type := {
  Date_now : N;
  crypto_randomUUID : jsstring;
  crypto_randomUUID_shape : is_uuid crypto_randomUUID = true;
  presigner : S3Client -> PutObjectCommand -> N -> completion jsstring
}.

Definition M (A : Type) : Type := machine -> completion A * machine.

Definition ret {A} (a : A) : M A := fun m => (Normal a, m).

Definition bind {A B} (c : M A) (k : A -> M B) : M B :=
  fun m =>
    match c m with
    | (Normal a, m') => k a m'
    | (Throw e, m') => (Throw e, m')
    end.

Notation "x <- c ;; k" := (bind c (fun x => k))
  (at level 61, c at next level, right associativity).
Notation "c ;;; k" := (bind c (fun _ => k))
  (at level 61, right associativity).

Definition throw {A} (e : Error) : M A := fun m => (Throw e, m).

Definition lift {A} (c : completion A) : M A := fun m => (c, m).

(** [try { body } catch (error) { handler }] *)
Definition try_catch {A} (body : M A) (handler : Error -> M A) : M A :=
  fun m =>
    match body m with
    | (Normal a, m') => (Normal a, m')
    | (Throw e, m') => handler e m'
    end.

Definition read_s3Client : M (option S3Client) := fun m => (Normal (s3Client m), m).

Definition emit (e : event) : M unit :=
  fun m => (Normal tt, {| s3Client := s3Client m; trace := trace m ++ [e] |}).

Definition assign_s3Client (c : S3Client) : M unit :=
  fun m => (Normal tt, {| s3Client := Some c; trace := trace m |}).

Definition console_error (line : jsstring) : M unit := emit (ConsoleError line).

(** [getSignedUrl(client, command, { expiresIn })] of the presigner package. *)
Definition getSignedUrl (w : platform) (c : S3Client) (cmd : PutObjectCommand)
  (expiresIn : N) : M jsstring :=
  emit (GetSignedUrl c cmd expiresIn) ;;; lift (presigner w c cmd expiresIn).

(** [const { p } = v]: reading a property off [null] throws (the message is
    V8's, [src] being its rendering of the right-hand side); an object gives
    its own property; on every other JSON value the names read by the
    handlers ([filename], [filetype], [key]) are not defined. *)
Definition destructure (src : jsstring) (v : json) (p : jsstring) : M value :=
  match v with
  | JNull =>
      throw (TypeError (js "Cannot destructure property '" ++ p ++ js "' of '"
                          ++ src ++ js "' as it is null."))
  | JObj props => ret (lookup p props)
  | _ => ret None
  end.

(** [/r/.test(v)] for an anchored pattern: the argument is converted to a
    string first. *)
Definition RegExp_test (r : regex) (v : value) : M bool :=
  s <- lift (ToString v) ;; ret (RegExp_test_anchored r s).

(** [v.replace(/a/g, by)]: only strings have the method. *)
Definition call_replace (who : jsstring) (v : value) (a : cls) (by_ : jsstring)
  : M jsstring :=
  match v with
  | Some (JStr s) => ret (String_replace_all a by_ s)
  | _ => throw (TypeError (who ++ js ".replace is not a function"))
  end.

(* ================================================================= *)
(** ** Requests and responses *)

(** A request as the worker reads it: its method, the [pathname] of
    [new URL(request.url)], and what [request.json()] settles to. *)
Record Request : Type := {
  method : jsstring;
  pathname : jsstring;
  json_body : completion json
}.

Inductive payload : Type :=
| NoBody
| Text (s : jsstring)
| Json (v : json).

(** A response: its status, its headers and its body. The headers given to
    the constructor are kept under the names the source writes. To a string
    body that comes without a content type the constructor adds one itself,
    [content-type: text/plain;charset=UTF-8], kept here as the response shows
    it; [corsResponse] names its content type and [handleCORS] has no body, so
    nothing is added to theirs. *)
Record Response : Type := {
  status : N;
  headers : list (jsstring * jsstring);
  body : payload
}.

(** [a || b] on a binding and a string literal *)
Definition or_else (b : option jsstring) (dflt : jsstring) : jsstring :=
  if ToBoolean (binding b) then binding_text b else dflt.

(* ================================================================= *)
(** ** The worker *)

Definition corsResponse (body_ : json) (env : Env) (status_ : option N) : Response :=
  let status_ := match status_ with Some st => st | None => 200 end in
  {| status := status_;
     headers :=
       [ (js "Content-Type", js "application/json");
         (js "Access-Control-Allow-Origin", or_else (ALLOWED_ORIGIN env) (js "*"));
         (js "Cache-Control",
          if status_ =? 200 then js "private, no-cache" else js "no-store") ];
     body := Json body_ |}.

Definition handleCORS (request : Request) (env : Env) : Response :=
  {| status := 200;
     headers :=
       [ (js "Access-Control-Allow-Origin", or_else (ALLOWED_ORIGIN env) (js "*"));
         (js "Access-Control-Allow-Methods", js "GET, POST, OPTIONS");
         (js "Access-Control-Allow-Headers", js "Content-Type, Authorization");
         (js "Access-Control-Max-Age", js "86400");
         (js "Cache-Control", js "public, max-age=86400") ];
     body := NoBody |}.

(** [`uploads/${Date.now()}-${crypto.randomUUID()}-${sanitizedFilename}`] *)
Definition key_template (now : Z) (uuid sanitizedFilename : jsstring) : jsstring :=
  js "uploads/" ++ Number_toString now ++ js "-" ++ uuid ++ js "-"
    ++ sanitizedFilename.

Definition handleUploadUrl (w : platform) (request : Request) (env : Env)
  : M Response :=
  try_catch
    (client <- read_s3Client ;;
     match client with
     | None =>
         throw {| name := js "Error";
                  message :=
                    js "S3 client could not be initialized. Check AWS credentials." |}
     | Some s3 =>
         body_ <- lift (json_body request) ;;
         filename <- destructure (js "body") body_ (js "filename") ;;
         filetype <- destructure (js "body") body_ (js "filetype") ;;
         if negb (ToBoolean filename) || negb (ToBoolean filetype) then
           ret (corsResponse
                  (JSON_stringify
                     [ (js "error",
                        Some (JStr (js "Missing required parameters: filename and filetype"))) ])
                  env (Some 400))
         else
           sanitizedFilename <-
             call_replace (js "filename") filename unsafe_filename_char (js "_") ;;
           let key := key_template (Z.of_N (Date_now w)) (crypto_randomUUID w) sanitizedFilename in
           let command :=
             {| Bucket := binding (AWS_S3_BUCKET env);
                Key := key;
                ContentType := filetype |} in
           presignedUrl <- getSignedUrl w s3 command 3600 ;;
           ret (corsResponse
                  (JSON_stringify
                     [ (js "url", Some (JStr presignedUrl));
                       (js "key", Some (JStr key));
                       (js "bucket", binding (AWS_S3_BUCKET env)) ])
                  env None)
     end)
    (fun error =>
       console_error (js "Error generating presigned URL: " ++ Error_toString error) ;;;
       ret (corsResponse
              (JSON_stringify
                 [ (js "error", Some (JStr (js "Failed to generate upload URL")));
                   (js "details", Some (JStr (message error))) ])
              env (Some 500))).

Definition handleConfirmUpload (request : Request) (env : Env) : M Response :=
  try_catch
    (body_ <- lift (json_body request) ;;
     key <- destructure (js "(intermediate value)") body_ (js "key") ;;
     if negb (ToBoolean key) then
       ret (corsResponse
              (JSON_stringify
                 [ (js "error", Some (JStr (js "Missing required parameter: key"))) ])
              env (Some 400))
     else
       matched <- RegExp_test key_pattern key ;;
       if negb matched then
         ret (corsResponse
                (JSON_stringify
                   [ (js "error", Some (JStr (js "Invalid key format"))) ])
                env (Some 400))
       else
         bucket_ <- lift (ToString (binding (AWS_S3_BUCKET env))) ;;
         key_ <- lift (ToString key) ;;
         ret (corsResponse
                (JSON_stringify
                   [ (js "success", Some (JBool true));
                     (js "message", Some (JStr (js "Upload confirmed!")));
                     (js "imageUrl",
                      Some (JStr (js "https://" ++ bucket_
                                    ++ js ".s3.amazonaws.com/" ++ key_))) ])
                env None))
    (fun error =>
       console_error (js "Error confirming upload: " ++ Error_toString error) ;;;
       ret (corsResponse
              (JSON_stringify
                 [ (js "error", Some (JStr (js "Failed to confirm upload")));
                   (js "details", Some (JStr (message error))) ])
              env (Some 500))).

Definition fetch (w : platform) (request : Request) (env : Env) : M Response :=
  if str_eqb (method request) (js "OPTIONS") then
    ret (handleCORS request env)
  else
    client <- read_s3Client ;;
    (if negb (match client with Some _ => true | None => false end)
        && ToBoolean (binding (AWS_ACCESS_KEY_ID env))
        && ToBoolean (binding (AWS_SECRET_ACCESS_KEY env))
        && ToBoolean (binding (AWS_REGION env))
     then
       let fresh :=
         {| region := binding (AWS_REGION env);
            accessKeyId := binding (AWS_ACCESS_KEY_ID env);
            secretAccessKey := binding (AWS_SECRET_ACCESS_KEY env) |} in
       emit (NewS3Client fresh) ;;; assign_s3Client fresh
     else ret tt) ;;;
    if str_eqb (pathname request) (js "/get-upload-url")
       && str_eqb (method request) (js "POST") then
      handleUploadUrl w request env
    else if str_eqb (pathname request) (js "/confirm-upload")
            && str_eqb (method request) (js "POST") then
      handleConfirmUpload request env
    else
      ret {| status := 404;
             headers := [ (js "content-type", js "text/plain;charset=UTF-8") ];
             body := Text (js "Not found") |}.

(** The worker's life in one isolate: requests are served one after the
    other against the same bindings, the module state carried along. *)
Fixpoint serve (env : Env) (arrivals : list (platform * Request)) (m : machine)
  : list (completion Response) * machine :=
  match arrivals with
  | [] => ([], m)
  | (w, request) :: rest =>
      let '(r, m1) := fetch w request env m in
      let '(rs, m2) := serve env rest m1 in
      (r :: rs, m2)
  end.

(** The state of a freshly loaded module. *)
Definition boot : machine := {| s3Client := None; trace := [] |}.

(* ================================================================= *)
(** ** Vocabulary of the statements *)

(** The characters [handleUploadUrl] leaves in a file name: [\w], [\s],
    [.] and [-]. *)
Definition kept_in_filename (c : code_unit) : bool :=
  is_word c || is_space c || (c =? 46) || (c =? 45).

(** [[A-Za-z0-9_.\-]], the set the specification names. *)
Definition spec_filename_char (c : code_unit) : bool :=
  is_word c || (c =? 46) || (c =? 45).

Definition is_word_or_hyphen (c : code_unit) : bool := is_word c || (c =? 45).

(** The shape [key_pattern] describes. *)
Definition key_shape (k : jsstring) : Prop :=
  exists digits ident rest,
    k = js "uploads/" ++ digits ++ js "-" ++ ident ++ js "-" ++ rest
    /\ digits <> [] /\ forallb is_digit digits = true
    /\ ident <> [] /\ forallb is_word_or_hyphen ident = true
    /\ forallb (fun c => negb (is_line_terminator c)) rest = true.

(** The pattern as the specification writes it, [^uploads/\d+-\S+-.*$],
    to be compared with [key_pattern]. *)
Definition spec_key_pattern : regex :=
  Cat (Lits (js "uploads/"))
   (Cat (Plus (Atom EscD))
    (Cat (Atom (Lit 45))
     (Cat (Plus (Atom EscNotS))
      (Cat (Atom (Lit 45))
           (Star (Atom AnyChar)))))).

(** Reading a response. [response.headers.get(h)] finds a header whatever
    the case of the letters of its name. *)
Definition lower_case (c : code_unit) : code_unit :=
  if in_range 65 90 c then c + 32 else c.

Definition same_header_name (a b : jsstring) : bool :=
  str_eqb (map lower_case a) (map lower_case b).

Definition header (r : Response) (h : jsstring) : option jsstring :=
  option_map snd (find (fun kv => same_header_name (fst kv) h) (headers r)).

Definition field (r : Response) (p : jsstring) : value :=
  match body r with
  | Json (JObj props) => lookup p props
  | _ => None
  end.

(** The key a response of the Issuer carries, if any. *)
Definition issued_key (r : completion Response) : option jsstring :=
  match r with
  | Normal resp =>
      match field resp (js "key") with
      | Some (JStr k) => Some k
      | _ => None
      end
  | Throw _ => None
  end.

(** A parsed body with a usable [filename] and [filetype]: two non-empty
    strings. *)
Definition upload_body (filename filetype : jsstring) (b : json) : Prop :=
  exists props,
    b = JObj props
    /\ lookup (js "filename") props = Some (JStr filename)
    /\ lookup (js "filetype") props = Some (JStr filetype)
    /\ filename <> [] /\ filetype <> [].

(** A parsed body in which [filename] or [filetype] is missing: absent, or
    present with a falsy value such as the empty string. A body that is not
    an object, [null] among them, has neither. *)
Definition lacks_upload_params (b : json) : Prop :=
  exists filename filetype,
    (match b with
     | JObj props =>
         filename = lookup (js "filename") props
         /\ filetype = lookup (js "filetype") props
     | _ => filename = None /\ filetype = None
     end)
    /\ (ToBoolean filename = false \/ ToBoolean filetype = false).

Definition is_storage_event (e : event) : bool :=
  match e with
  | NewS3Client _ => true
  | GetSignedUrl _ _ _ => true
  | ConsoleError _ => false
  end.

(** The storage credentials are incomplete: one of the access key, the
    secret key and the region is absent (or empty). *)
Definition credentials_missing (env : Env) : Prop :=
  ToBoolean (binding (AWS_ACCESS_KEY_ID env)) = false
  \/ ToBoolean (binding (AWS_SECRET_ACCESS_KEY env)) = false
  \/ ToBoolean (binding (AWS_REGION env)) = false.

Definition is_issuer_request (r : Request) : bool :=
  str_eqb (pathname r) (js "/get-upload-url") && str_eqb (method r) (js "POST").

(** The body of the 500 answer of a handler. *)
Definition failure_body (what : jsstring) (e : Error) : json :=
  JObj [ (js "error", JStr what); (js "details", JStr (message e)) ].

(** The key of the specification's end-to-end example:
    [uploads/<digits>-<uuid>-my_photo.png]. *)
Definition example_key_shape (k : jsstring) : Prop :=
  exists digits uuid,
    forallb is_digit digits = true /\ is_uuid uuid = true
    /\ k = js "uploads/" ++ digits ++ js "-" ++ uuid ++ js "-my_photo.png".

(** The 200 answer of [handleConfirmUpload]. *)
Definition confirmation (env : Env) (key : jsstring) : Response :=
  corsResponse
    (JObj [ (js "success", JBool true);
            (js "message", JStr (js "Upload confirmed!"));
            (js "imageUrl",
             JStr (js "https://" ++ binding_text (AWS_S3_BUCKET env)
                     ++ js ".s3.amazonaws.com/" ++ key)) ])
    env None.

Definition line_free (s : jsstring) : bool :=
  forallb (fun c => negb (is_line_terminator c)) s.

(** No storage event among these. *)
Definition quiet (extra : list event) : bool :=
  forallb (fun e => negb (is_storage_event e)) extra.

(** The origin a response allows: the configured one, any when none is. *)
Definition allowed_origin (env : Env) : jsstring :=
  match ALLOWED_ORIGIN env with
  | Some o => if str_eqb o [] then js "*" else o
  | None => js "*"
  end.

(** The headers every JSON response is to carry. *)
Definition carries_cors_headers (env : Env) (r : Response) : Prop :=
  header r (js "Content-Type") = Some (js "application/json")
  /\ header r (js "Access-Control-Allow-Origin") = Some (allowed_origin env)
  /\ header r (js "Cache-Control")
     = Some (if status r =? 200 then js "private, no-cache" else js "no-store").

(** The body cannot be read: [request.json()] rejects, or resolves to
    [null], off which no property can be read. *)
Definition body_unreadable (r : Request) : Prop :=
  (exists e, json_body r = Throw e) \/ json_body r = Normal JNull.

(** The error [handleUploadUrl] throws when [s3Client] is still [null]. *)
Definition init_error : Error :=
  {| name := js "Error";
     message := js "S3 client could not be initialized. Check AWS credentials." |}.

(** The machine after one [console.error]. *)
Definition logged (m : machine) (line : jsstring) : machine :=
  {| s3Client := s3Client m; trace := trace m ++ [ConsoleError line] |}.

(* ----------------------------------------------------------------- *)
(** *** Sample data *)

Module Sample.

Definition show (s : jsstring) : string := string_of_list_ascii (map ascii_of_N s).

Definition client : S3Client :=
  {| region := Some (JStr (js "us-east-1"));
     accessKeyId := Some (JStr (js "AKIAEXAMPLE"));
     secretAccessKey := Some (JStr (js "secret")) |}.

Definition env : Env :=
  {| AWS_ACCESS_KEY_ID := Some (js "AKIAEXAMPLE");
     AWS_SECRET_ACCESS_KEY := Some (js "secret");
     AWS_REGION := Some (js "us-east-1");
     AWS_S3_BUCKET := Some (js "media");
     ALLOWED_ORIGIN := None |}.

(** The same bindings without a region. *)
Definition env_no_region : Env :=
  {| AWS_ACCESS_KEY_ID := Some (js "AKIAEXAMPLE");
     AWS_SECRET_ACCESS_KEY := Some (js "secret");
     AWS_REGION := None;
     AWS_S3_BUCKET := Some (js "media");
     ALLOWED_ORIGIN := None |}.

Definition uuid1 : jsstring := js "123e4567-e89b-42d3-a456-426614174000".
Definition uuid2 : jsstring := js "9b2f0c1e-7d4a-4f6b-8c3d-0a1b2c3d4e5f".

Definition sign : S3Client -> PutObjectCommand -> N -> completion jsstring :=
  fun _ cmd _ => Normal (js "https://media.s3.us-east-1.amazonaws.com/" ++ Key cmd
                           ++ js "?X-Amz-Signature=0a1b").

Definition world1 : platform :=
  {| Date_now := 1700000000000; crypto_randomUUID := uuid1;
     crypto_randomUUID_shape := eq_refl; presigner := sign |}.

Definition world2 : platform :=
  {| Date_now := 1700000000000; crypto_randomUUID := uuid2;
     crypto_randomUUID_shape := eq_refl; presigner := sign |}.

(** A platform whose presigner fails. *)
Definition world_down : platform :=
  {| Date_now := 1700000000000; crypto_randomUUID := uuid1;
     crypto_randomUUID_shape := eq_refl;
     presigner := fun _ _ _ =>
       Throw {| name := js "Error"; message := js "Could not load credentials" |} |}.

Definition ready : machine := {| s3Client := Some client; trace := [] |}.

Definition post (path : string) (b : completion json) : Request :=
  {| method := js "POST"; pathname := js path; json_body := b |}.

Definition upload (filename filetype : string) : Request :=
  post "/get-upload-url"
    (Normal (JObj [ (js "filename", JStr (js filename));
                    (js "filetype", JStr (js filetype)) ])).

(** An upload request whose file name is given by its code units. *)
Definition upload_units (filename : jsstring) (filetype : string) : Request :=
  post "/get-upload-url"
    (Normal (JObj [ (js "filename", JStr filename);
                    (js "filetype", JStr (js filetype)) ])).

Definition confirm (key : jsstring) : Request :=
  post "/confirm-upload" (Normal (JObj [ (js "key", JStr key) ])).

Definition bad_json : completion json :=
  Throw {| name := js "SyntaxError";
           message := js "Unexpected token o in JSON at position 1" |}.

End Sample.

(* ================================================================= *)
(** ** Vocabulary of the further statements on the worker *)

(** The command [handleUploadUrl] hands to the presigner for a file name. *)
Definition sign_command (w : platform) (env : Env) (filename : jsstring)
  (filetype : value) : PutObjectCommand :=
  {| Bucket := binding (AWS_S3_BUCKET env);
     Key := key_template (Z.of_N (Date_now w)) (crypto_randomUUID w)
              (String_replace_all unsafe_filename_char (js "_") filename);
     ContentType := filetype |}.

(** The client [fetch] builds out of the bindings. *)
Definition client_of (env : Env) : S3Client :=
  {| region := binding (AWS_REGION env);
     accessKeyId := binding (AWS_ACCESS_KEY_ID env);
     secretAccessKey := binding (AWS_SECRET_ACCESS_KEY env) |}.

(** The access key, the secret key and the region are all there. *)
Definition credentials_complete (env : Env) : bool :=
  ToBoolean (binding (AWS_ACCESS_KEY_ID env))
  && ToBoolean (binding (AWS_SECRET_ACCESS_KEY env))
  && ToBoolean (binding (AWS_REGION env)).

Definition is_preflight (r : Request) : bool := str_eqb (method r) (js "OPTIONS").

Definition is_confirm_request (r : Request) : bool :=
  str_eqb (pathname r) (js "/confirm-upload") && str_eqb (method r) (js "POST").

Definition is_new_client (e : event) : bool :=
  match e with
  | NewS3Client _ => true
  | _ => false
  end.

(** The client a signing event went through, if it is one. *)
Definition signed_with (e : event) : option S3Client :=
  match e with
  | GetSignedUrl c _ _ => Some c
  | _ => None
  end.

(** The module state once [fetch] has gone through its lazy initialisation. *)
Definition warmed (env : Env) (m : machine) : machine :=
  match s3Client m with
  | Some _ => m
  | None =>
      if credentials_complete env then
        {| s3Client := Some (client_of env);
           trace := trace m ++ [NewS3Client (client_of env)] |}
      else m
  end.

(** What holds of the module state all along: without a client nothing has
    touched the storage side; with one, the trace shows its construction,
    nothing of the kind before, no other construction after, and every
    signing after it goes through that very client. *)
Definition one_client (m : machine) : Prop :=
  match s3Client m with
  | None => quiet (trace m) = true
  | Some c =>
      exists before after,
        trace m = before ++ NewS3Client c :: after
        /\ quiet before = true
        /\ forallb (fun e => negb (is_new_client e)) after = true
        /\ Forall (fun e => forall c', signed_with e = Some c' -> c' = c) after
  end.

(** The answer of [fetch] to a request it has no route for. *)
Definition not_found : Response :=
  {| status := 404;
     headers := [ (js "content-type", js "text/plain;charset=UTF-8") ];
     body := Text (js "Not found") |}.

(** The 400 answer of [handleConfirmUpload] to a request without a key. *)
Definition missing_key (env : Env) : Response :=
  corsResponse (JObj [ (js "error", JStr (js "Missing required parameter: key")) ])
    env (Some 400).

(** The key read off a parsed body that is not [null]. *)
Definition key_of (b : json) : value :=
  match b with
  | JObj props => lookup (js "key") props
  | _ => None
  end.

(** The 400 answer of [handleConfirmUpload] to a key of the wrong shape. *)
Definition invalid_key (env : Env) : Response :=
  corsResponse (JObj [ (js "error", JStr (js "Invalid key format")) ]) env (Some 400).

(** A parsed value that cannot be converted to a string: an object with an
    own property [toString], or an array that holds such a value. *)
Fixpoint unrenderable (v : json) : bool :=
  match v with
  | JObj props => existsb (fun kv => str_eqb (fst kv) (js "toString")) props
  | JArr elements => existsb unrenderable elements
  | _ => false
  end.

Definition value_unrenderable (v : value) : bool :=
  match v with
  | Some j => unrenderable j
  | None => false
  end.

(** The error the conversion of such a value throws. *)
Definition conversion_error : Error :=
  TypeError (js "Cannot convert object to primitive value").

(** Two requests bring the same key: both bodies are parsed and hold the
    same [key], whatever else they hold (a body that is no object holds
    none); or neither body can be read, for the same reason. *)
Definition same_key (r1 r2 : Request) : Prop :=
  match json_body r1, json_body r2 with
  | Normal b1, Normal b2 =>
      (b1 = JNull /\ b2 = JNull)
      \/ (b1 <> JNull /\ b2 <> JNull /\ key_of b1 = key_of b2)
  | Throw e1, Throw e2 => e1 = e2
  | _, _ => False
  end.

(** [new Error(msg)] *)
Definition new_Error (msg : jsstring) : Error :=
  {| name := js "Error"; message := msg |}.

(* ================================================================= *)
(** ** The upload page *)

(** The React component [App] that calls the worker: the files it holds, the
    checks of [validateAndAddFiles], the steps of [uploadFile], [removeFile],
    [retryUpload] and [formatFileSize]. [setFiles] with a functional update
    is modelled by applying the update to the current list; what the
    component does besides (toasts, requests, object URLs) is recorded, latest
    last. *)
Module App.

(** The browser's [File], as far as the page reads it. *)
Record File : Type := {
  File_name : jsstring;
  File_size : N;
  File_type : jsstring
}.

Inductive Status : Type := pending | uploading | success | error.

Record FileInfo : Type := {
  file : File;
  previewUrl : jsstring;
  id : jsstring;
  name : jsstring;
  size : N;
  type : jsstring;
  status : Status;
  progress : N;
  url : option jsstring;
  errorMessage : option jsstring
}.

(** What is caught by [catch (error)]: an [Error], or something else. *)
Inductive thrown : Type :=
| an_Error (e : Error)
| not_an_Error.

(** The JSX handed to [toast.error] for one group of refused files: the
    count, the reason, and either the names (three at most) or the count
    again. *)
Inductive refusal_detail : Type :=
| Listed (names : list jsstring)
| Affected (count : nat).

Inductive effect : Type :=
| toast_success (text : jsstring)
| toast_error (text : jsstring)
| toast_info (text : jsstring)
| toast_refused (count : nat) (reason : jsstring) (detail : refusal_detail)
| console_error (line : jsstring) (what : thrown)
| post_upload_url (filename filetype : jsstring)
| put_object (to : value) (content : File) (contentType : jsstring)
| revokeObjectURL (u : jsstring).

(** The state of the component and what it has done so far. *)
Record page : Type := {
  files : list FileInfo;
  isDragging : bool;
  selectedPreview : option FileInfo;
  effects : list effect
}.

Definition setFiles (update : list FileInfo -> list FileInfo) (p : page) : page :=
  {| files := update (files p); isDragging := isDragging p;
     selectedPreview := selectedPreview p; effects := effects p |}.

Definition setIsDragging (b : bool) (p : page) : page :=
  {| files := files p; isDragging := b;
     selectedPreview := selectedPreview p; effects := effects p |}.

Definition perform (e : effect) (p : page) : page :=
  {| files := files p; isDragging := isDragging p;
     selectedPreview := selectedPreview p; effects := effects p ++ [e] |}.

Definition MAX_FILE_SIZE : N := 15 * 1024 * 1024.

Definition ALLOWED_TYPES : list jsstring :=
  [ js "image/jpeg"; js "image/png"; js "image/gif"; js "video/mp4";
    js "video/quicktime" ].

(** [Array.prototype.includes] on strings *)
Definition includes (l : list jsstring) (x : jsstring) : bool :=
  existsb (fun y => str_eqb y x) l.

(** [n.toString()] for an array length *)
Definition length_text (n : nat) : jsstring := Number_toString (Z.of_nat n).

(* ----------------------------------------------------------------- *)
(** *** [formatFileSize] *)

(** [(n / 2^k).toFixed(1)] for an integral [n] below 2^53: the quotient by
    a power of two is exact in binary floating point, and [toFixed] picks the
    number of tenths closest to it, the larger one of two equally close. *)
Definition toFixed1_shifted (n k : N) : jsstring :=
  let tenths := (n * 10 + 2 ^ k / 2) / 2 ^ k in
  Number_toString (Z.of_N (tenths / 10)) ++ js "."
    ++ Number_toString (Z.of_N (tenths mod 10)).

Definition formatFileSize (bytes : N) : jsstring :=
  if bytes <? 1024 then Number_toString (Z.of_N bytes) ++ js " B"
  else if bytes <? 1024 * 1024 then toFixed1_shifted bytes 10 ++ js " KB"
  else toFixed1_shifted bytes 20 ++ js " MB".

(* ----------------------------------------------------------------- *)
(** *** [validateAndAddFiles] *)

Record refused : Type := { refused_name : jsstring; reason : jsstring }.

(** The body of the [forEach] over the selected files. [fresh n] is what
    [URL.createObjectURL] and [crypto.randomUUID] answer for the [n]-th file
    that passes the two checks. *)
Definition check_file (fresh : nat -> jsstring * jsstring)
  (acc : list FileInfo * list refused) (selectedFile : File)
  : list FileInfo * list refused :=
  let (newFiles, invalidFiles) := acc in
  if negb (includes ALLOWED_TYPES (File_type selectedFile)) then
    (newFiles,
     invalidFiles ++ [ {| refused_name := File_name selectedFile;
                          reason := js "Unsupported file type" |} ])
  else if MAX_FILE_SIZE <? File_size selectedFile then
    (newFiles,
     invalidFiles ++ [ {| refused_name := File_name selectedFile;
                          reason := js "Exceeds 15MB limit" |} ])
  else
    let previewUrl_ := fst (fresh (List.length newFiles)) in
    (newFiles ++ [ {| file := selectedFile;
                      previewUrl := previewUrl_;
                      id := snd (fresh (List.length newFiles));
                      name := File_name selectedFile;
                      size := File_size selectedFile;
                      type := File_type selectedFile;
                      status := pending;
                      progress := 0;
                      url := None;
                      errorMessage := None |} ],
     invalidFiles).

(** One step of the [reduce] that groups the refused names by reason, the
    groups in the order their reason first came up. *)
Fixpoint group_under (acc : list (jsstring * list jsstring))
  (reason_ name_ : jsstring) : list (jsstring * list jsstring) :=
  match acc with
  | [] => [ (reason_, [name_]) ]
  | (r, names) :: rest =>
      if str_eqb r reason_ then (r, names ++ [name_]) :: rest
      else (r, names) :: group_under rest reason_ name_
  end.

Definition byReason (invalidFiles : list refused) : list (jsstring * list jsstring) :=
  fold_left (fun acc curr => group_under acc (reason curr) (refused_name curr))
    invalidFiles [].

Definition refusal_toast (group : jsstring * list jsstring) : effect :=
  let (reason_, names) := group in
  toast_refused (List.length names) reason_
    (if (List.length names <=? 3)%nat then Listed names
     else Affected (List.length names)).

(** The part of [uploadFile] that runs at once, up to its first [await]:
    the file is marked as uploading and the request for a presigned URL
    leaves. *)
Definition uploadFile_begin (fileInfo : FileInfo) (p : page) : page :=
  perform (post_upload_url (name fileInfo) (type fileInfo))
    (setFiles
       (map (fun f =>
               if str_eqb (id f) (id fileInfo) then
                 {| file := file f; previewUrl := previewUrl f; id := id f;
                    name := name f; size := size f; type := type f;
                    status := uploading; progress := 0;
                    url := url f; errorMessage := errorMessage f |}
               else f))
       p).

Definition validateAndAddFiles (fresh : nat -> jsstring * jsstring)
  (selectedFiles : list File) (p : page) : page :=
  if (0 <? List.length selectedFiles)%nat then
    let (newFiles, invalidFiles) :=
      fold_left (check_file fresh) selectedFiles ([], []) in
    let p1 :=
      if (0 <? List.length invalidFiles)%nat then
        fold_left (fun q group => perform (refusal_toast group) q)
          (byReason invalidFiles) p
      else p in
    if (0 <? List.length newFiles)%nat then
      let p2 := setFiles (fun prev => prev ++ newFiles) p1 in
      let p3 :=
        if negb (List.length selectedFiles =? List.length invalidFiles)%nat then
          perform (toast_success (js "Added " ++ length_text (List.length newFiles)
                                    ++ js " file(s) for upload")) p2
        else p2 in
      fold_left (fun q fileInfo => uploadFile_begin fileInfo q) newFiles p3
    else p1
  else p.

(** [handleDrop] with the files of [e.dataTransfer.files]. *)
Definition handleDrop (fresh : nat -> jsstring * jsstring)
  (dropped : option (list File)) (p : page) : page :=
  let p1 := setIsDragging false p in
  match dropped with
  | Some fs =>
      if (0 <? List.length fs)%nat then validateAndAddFiles fresh fs p1 else p1
  | None => p1
  end.

(* ----------------------------------------------------------------- *)
(** *** [uploadFile], after its first [await] *)

(** What the network brings back to one upload. [fetched] is what
    [await fetch(...)] settles to, an [answer] holding [response.ok],
    [response.statusText] and what [response.json()] settles to; [put] is
    what [axios.put] does on the URL it is given: the percentages its
    progress callback computed on the way, then the failure if there is
    one. *)
Record answer : Type := {
  ok : bool;
  statusText : jsstring;
  parsed : thrown + json
}.

Record network : Type := {
  fetched : thrown + answer;
  put : value -> list N * option thrown
}.

(** [v.p] on a parsed value that is not [null], for the names the page reads
    ([url], [bucket], [key]). *)
Definition prop (v : json) (p : jsstring) : value :=
  match v with
  | JObj props => lookup p props
  | _ => None
  end.

(** [error instanceof Error ? error.message : "Failed to upload file"] *)
Definition message_of (t : thrown) : jsstring :=
  match t with
  | an_Error e => message e
  | not_an_Error => js "Failed to upload file"
  end.

(** The [catch] block of [uploadFile]. *)
Definition uploadFile_catch (fileInfo : FileInfo) (t : thrown) (p : page) : page :=
  perform (toast_error (js "Upload failed: " ++ message_of t))
    (setFiles
       (map (fun f =>
               if str_eqb (id f) (id fileInfo) then
                 {| file := file f; previewUrl := previewUrl f; id := id f;
                    name := name f; size := size f; type := type f;
                    status := error; progress := 0;
                    url := url f; errorMessage := Some (message_of t) |}
               else f))
       (perform (console_error (js "Error uploading " ++ name fileInfo ++ js ":") t)
          p)).

(** The [onUploadProgress] callback, its percentage computed. *)
Definition onUploadProgress (fileInfo : FileInfo) (p : page) (percentCompleted : N)
  : page :=
  setFiles
    (map (fun f =>
            if str_eqb (id f) (id fileInfo) then
              {| file := file f; previewUrl := previewUrl f; id := id f;
                 name := name f; size := size f; type := type f;
                 status := status f; progress := percentCompleted;
                 url := url f; errorMessage := errorMessage f |}
            else f))
    p.

(** [`https://${presignedUrl.bucket}.s3.amazonaws.com/${presignedUrl.key}`]:
    the two substitutions are converted by [ToString], the bucket first. *)
Definition object_url (presignedUrl : json) : completion jsstring :=
  match ToString (prop presignedUrl (js "bucket")) with
  | Throw e => Throw e
  | Normal bucket_ =>
      match ToString (prop presignedUrl (js "key")) with
      | Throw e => Throw e
      | Normal key_ =>
          Normal (js "https://" ++ bucket_ ++ js ".s3.amazonaws.com/" ++ key_)
      end
  end.

(** [prev.map(g)] for a [g] that may throw: the entries are gone through in
    order and the first throw ends the call. *)
Fixpoint Array_map (g : FileInfo -> completion FileInfo) (prev : list FileInfo)
  : completion (list FileInfo) :=
  match prev with
  | [] => Normal []
  | f :: rest =>
      match g f with
      | Throw e => Throw e
      | Normal f' =>
          match Array_map g rest with
          | Throw e => Throw e
          | Normal rest' => Normal (f' :: rest')
          end
      end
  end.

(** How a run of [uploadFile] ends. The functions it hands to [setFiles] are
    maps that cannot throw, but for the one that marks the success: it
    evaluates the template literal of [object_url] for every entry of the
    file. When that throws, the update settles no entry; the throw arises
    while React applies the update, and what becomes of the page from there
    on depends on how React surfaces it, which is not modelled. *)
Inductive outcome : Type :=
| rendered (p : page)
| update_throws (e : Error).

(** The rest of [uploadFile], from the answer to its request on. *)
Definition uploadFile_resume (net : network) (fileInfo : FileInfo) (p : page)
  : outcome :=
  match fetched net with
  | inl t => rendered (uploadFile_catch fileInfo t p)
  | inr response =>
      if negb (ok response) then
        rendered
          (uploadFile_catch fileInfo
             (an_Error (new_Error (js "Failed to get upload URL: " ++ statusText response)))
             p)
      else
        match parsed response with
        | inl t => rendered (uploadFile_catch fileInfo t p)
        | inr JNull =>
            rendered
              (uploadFile_catch fileInfo
                 (an_Error (TypeError (js "Cannot read properties of null (reading 'url')")))
                 p)
        | inr presignedUrl =>
            let target := prop presignedUrl (js "url") in
            let p1 := perform (put_object target (file fileInfo) (type fileInfo)) p in
            let (percentages, failure) := put net target in
            let p2 := fold_left (onUploadProgress fileInfo) percentages p1 in
            match failure with
            | Some t => rendered (uploadFile_catch fileInfo t p2)
            | None =>
                match
                  Array_map
                    (fun f =>
                       if str_eqb (id f) (id fileInfo) then
                         match object_url presignedUrl with
                         | Throw e => Throw e
                         | Normal url_ =>
                             Normal
                               {| file := file f; previewUrl := previewUrl f;
                                  id := id f; name := name f; size := size f;
                                  type := type f;
                                  status := success; progress := 100;
                                  url := Some url_;
                                  errorMessage := errorMessage f |}
                         end
                       else Normal f)
                    (files p2)
                with
                | Throw e => update_throws e
                | Normal files_ =>
                    rendered
                      (perform
                         (toast_success (name fileInfo ++ js " uploaded successfully"))
                         (setFiles (fun _ => files_) p2))
                end
            end
        end
  end.

(** [uploadFile] run to its end with nothing else in between. *)
Definition uploadFile (net : network) (fileInfo : FileInfo) (p : page) : outcome :=
  uploadFile_resume net fileInfo (uploadFile_begin fileInfo p).

(* ----------------------------------------------------------------- *)
(** *** [removeFile] and [retryUpload] *)

Definition removeFile (id_ : jsstring) (p : page) : page :=
  let prev := files p in
  let fileToRemove := find (fun f => str_eqb (id f) id_) prev in
  let p1 :=
    match fileToRemove with
    | Some f =>
        if negb (str_eqb (previewUrl f) []) then perform (revokeObjectURL (previewUrl f)) p
        else p
    | None => p
    end in
  let label :=
    match fileToRemove with
    | Some f => if negb (str_eqb (name f) []) then name f else js "File"
    | None => js "File"
    end in
  setFiles (fun _ => filter (fun f => negb (str_eqb (id f) id_)) prev)
    (perform (toast_info (label ++ js " removed")) p1).

Definition retryUpload (id_ : jsstring) (p : page) : page :=
  match find (fun f => str_eqb (id f) id_) (files p) with
  | Some fileToRetry =>
      uploadFile_begin fileToRetry
        (perform (toast_info (js "Retrying upload for " ++ name fileToRetry)) p)
  | None => p
  end.

(* ----------------------------------------------------------------- *)
(** *** Vocabulary of the statements on the page *)

(** A file passes the two checks of [validateAndAddFiles]. *)
Definition acceptable (f : File) : bool :=
  includes ALLOWED_TYPES (File_type f) && (File_size f <=? MAX_FILE_SIZE).

(** The entry made for the [n]-th accepted file, in a given status. *)
Definition entry (fresh : nat -> jsstring * jsstring) (n : nat) (f : File)
  (st : Status) : FileInfo :=
  {| file := f; previewUrl := fst (fresh n); id := snd (fresh n);
     name := File_name f; size := File_size f; type := File_type f;
     status := st; progress := 0; url := None; errorMessage := None |}.

Fixpoint entries (fresh : nat -> jsstring * jsstring) (n : nat) (fs : list File)
  (st : Status) : list FileInfo :=
  match fs with
  | [] => []
  | f :: rest => entry fresh n f st :: entries fresh (S n) rest st
  end.

(** Why a file is refused, if it is. *)
Definition refusal (f : File) : list refused :=
  if negb (includes ALLOWED_TYPES (File_type f)) then
    [ {| refused_name := File_name f; reason := js "Unsupported file type" |} ]
  else if MAX_FILE_SIZE <? File_size f then
    [ {| refused_name := File_name f; reason := js "Exceeds 15MB limit" |} ]
  else [].

(** The names grouped under a reason. *)
Definition names_under (r : jsstring) (groups : list (jsstring * list jsstring))
  : list jsstring :=
  match find (fun g => str_eqb (fst g) r) groups with
  | Some g => snd g
  | None => []
  end.

(** How an upload ended: with the URL of the object, or with a message. *)
Definition settle (outcome : jsstring + jsstring) (f : FileInfo) : FileInfo :=
  match outcome with
  | inl u =>
      {| file := file f; previewUrl := previewUrl f; id := id f; name := name f;
         size := size f; type := type f; status := success; progress := 100;
         url := Some u; errorMessage := errorMessage f |}
  | inr msg =>
      {| file := file f; previewUrl := previewUrl f; id := id f; name := name f;
         size := size f; type := type f; status := error; progress := 0;
         url := url f; errorMessage := Some msg |}
  end.

(** [f'] is [f] but for its status and its progress. *)
Definition repainted (f f' : FileInfo) : Prop :=
  f' = {| file := file f; previewUrl := previewUrl f; id := id f; name := name f;
          size := size f; type := type f; status := status f';
          progress := progress f'; url := url f; errorMessage := errorMessage f |}.

(** [g] applied to the entries whose [id] is [i], the others left alone. *)
Definition touch (i : jsstring) (g : FileInfo -> FileInfo) (fs : list FileInfo)
  : list FileInfo :=
  map (fun f => if str_eqb (id f) i then g f else f) fs.

(** An entry marked as uploading. *)
Definition started (f : FileInfo) : FileInfo :=
  {| file := file f; previewUrl := previewUrl f; id := id f; name := name f;
     size := size f; type := type f; status := uploading; progress := 0;
     url := url f; errorMessage := errorMessage f |}.

(** The request the worker receives when the page performs
    [post_upload_url]: a [POST] to [/get-upload-url] whose body parses back
    to the object that was serialised. *)
Definition upload_request (filename filetype : jsstring) : Request :=
  {| method := js "POST"; pathname := js "/get-upload-url";
     json_body := Normal (JObj [ (js "filename", JStr filename);
                                 (js "filetype", JStr filetype) ]) |}.

(** Sample data. *)
Definition blank : page :=
  {| files := []; isDragging := false; selectedPreview := None; effects := [] |}.

Definition draws (n : nat) : jsstring * jsstring :=
  (js "blob:http://localhost:5173/" ++ length_text n, js "id-" ++ length_text n).

Definition cat : File :=
  {| File_name := js "cat.png"; File_size := 2048; File_type := js "image/png" |}.

Definition notes : File :=
  {| File_name := js "notes.txt"; File_size := 10; File_type := js "text/plain" |}.

Definition film : File :=
  {| File_name := js "film.mp4"; File_size := 15 * 1024 * 1024 + 1;
     File_type := js "video/mp4" |}.

(** A page holding one file, and two networks: one whose worker answers
    500, one whose worker answers with a presigned URL and whose transfer
    goes through. *)
Definition one_file : page :=
  {| files := [entry draws 0 cat pending]; isDragging := false;
     selectedPreview := None; effects := [] |}.

Definition answer_500 : answer :=
  {| ok := false; statusText := js "Internal Server Error"; parsed := inr JNull |}.

Definition net_500 : network :=
  {| fetched := inr answer_500; put := fun _ => ([], None) |}.

Definition issued : json :=
  JObj [ (js "url", JStr (js "https://signed"));
         (js "key", JStr (js "uploads/1-a-cat.png"));
         (js "bucket", JStr (js "media")) ].

Definition answer_200 : answer :=
  {| ok := true; statusText := js "OK"; parsed := inr issued |}.

Definition net_200 : network :=
  {| fetched := inr answer_200; put := fun _ => ([40; 100], None) |}.

End App.

(** What the page reads of a response of the worker: [response.ok] holds for
    the statuses 200 to 299, and [response.json()] gives back the value the
    worker serialised, failing on a body that is not JSON. The status text is
    the transport's. *)
Definition answer_of (statusText_ : jsstring) (r : Response) : App.answer :=
  {| App.ok := (200 <=? status r) && (status r <=? 299);
     App.statusText := statusText_;
     App.parsed :=
       match body r with
       | Json v => inr v
       | _ => inl (App.an_Error {| name := js "SyntaxError";
                                   message := js "Unexpected end of JSON input" |})
       end |}.

(* ================================================================= *)
(** ** The starter worker *)

(** The worker of [src/index.ts], which strips the origin off the URL with
    [/^https:\/\/.*?\//gi] and answers by method and path. *)

(** The other case of an ASCII letter; any other code unit is its own. *)
Definition swap_case (c : code_unit) : code_unit :=
  if in_range 65 90 c then c + 32
  else if in_range 97 122 c then c - 32
  else c.

(** A pattern character under the [i] flag (without [u]): an ASCII letter
    matches its two cases, no code unit from 128 on folds onto an ASCII one,
    and a character that is no letter matches itself. *)
Definition either_case (c : code_unit) : cls := Bracket false [Lit c; Lit (swap_case c)].

Fixpoint Lits_i (s : jsstring) : regex :=
  match s with
  | [] => Eps
  | c :: s' => Cat (Atom (either_case c)) (Lits_i s')
  end.

(** What is left of [s] after its shortest prefix in the language of [r], if
    it has one. *)
Fixpoint after_shortest_prefix (r : regex) (s : jsstring) : option jsstring :=
  if nullable r then Some s
  else
    match s with
    | [] => None
    | c :: s' => after_shortest_prefix (deriv c r) s'
    end.

(** [s.replace(/^r/g, by)] for a pattern made of fixed characters and one
    lazy quantifier before its last character: a match can only start at the
    beginning of [s] (there is no [m] flag), the lazy quantifier stops at the
    first place where the last character follows, so what is replaced is the
    shortest prefix of [s] in the language of the pattern, and once. *)
Definition String_replace_prefix (r : regex) (by_ s : jsstring) : jsstring :=
  match after_shortest_prefix r s with
  | Some rest => by_ ++ rest
  | None => s
  end.

(** [https:\/\/.*?\/] under the [i] flag *)
Definition origin_pattern : regex :=
  Cat (Lits_i (js "https://")) (Cat (Star (Atom AnyChar)) (Atom (Lit 47))).

Module Hello.

Record Request : Type := { method : jsstring; url : jsstring }.

(** The three [console.log] lines. *)
Inductive line : Type :=
| log_body
| log_headers
| log_uri (uri : jsstring).

(** [Response.json({ message })] *)
Definition Response_json (message_ : jsstring) : Response :=
  {| status := 200;
     headers := [ (js "content-type", js "application/json") ];
     body := Json (JObj [ (js "message", JStr message_) ]) |}.

Definition fetch (request : Request) : list line * Response :=
  let uri := String_replace_prefix origin_pattern (js "/") (url request) in
  ([ log_body; log_headers; log_uri uri ],
   if str_eqb (method request) (js "GET") then
     if str_eqb uri (js "/users") then
       Response_json (js "Response for GET request on /users")
     else Response_json (js "You sent a GET request")
   else Response_json (js "You did not send a GET request")).

(** [s] is [https://] up to the case of its letters. *)
Definition is_https (s : jsstring) : bool :=
  RegExp_test_anchored (Lits_i (js "https://")) s.

(** A host: no slash, no line terminator. *)
Definition is_host (s : jsstring) : bool :=
  forallb (fun c => negb (c =? 47) && negb (is_line_terminator c)) s.

End Hello.

(* ================================================================= *)
(** ** Matching by derivatives decides the language *)

Lemma str_eqb_eq (a b : jsstring) : str_eqb a b = true <-> a = b.
Proof.
  revert b; induction a as [|x a IH]; intros [|y b]; simpl; split;
    try congruence; try reflexivity.
  - intros H. apply andb_true_iff in H as [Hx Hr].
    apply N.eqb_eq in Hx. apply IH in Hr. congruence.
  - intros H. injection H as -> ->. rewrite N.eqb_refl. simpl. now apply IH.
Qed.

Lemma str_eqb_refl (a : jsstring) : str_eqb a a = true.
Proof. now apply str_eqb_eq. Qed.

Lemma str_eqb_nil (a : jsstring) : str_eqb a [] = true <-> a = [].
Proof. apply str_eqb_eq. Qed.

Lemma nullable_spec (r : regex) : nullable r = true <-> Matches r [].
Proof.
  induction r as [| |a|r1 IH1 r2 IH2|r1 IH1 r2 IH2|r IH]; simpl.
  - split; [discriminate | inversion 1].
  - split; [constructor | reflexivity].
  - split; [discriminate | inversion 1].
  - rewrite andb_true_iff, IH1, IH2. split.
    + intros [H1 H2]. change (@nil code_unit) with (@nil code_unit ++ []).
      now constructor.
    + inversion 1 as [| |? ? s1 s2 H1 H2 E1 E2| | | |]; subst.
      apply app_eq_nil in E2 as [-> ->]. now split.
  - rewrite orb_true_iff, IH1, IH2. split.
    + intros [H|H]; [now apply MAltL | now apply MAltR].
    + inversion 1; subst; [now left | now right].
  - split; [constructor | reflexivity].
Qed.

(** A non-empty word of [r*] starts with a non-empty word of [r]. *)
Lemma Matches_star_uncons (r : regex) (c : code_unit) (s : jsstring) :
  Matches (Star r) (c :: s) ->
  exists s1 s2, s = s1 ++ s2 /\ Matches r (c :: s1) /\ Matches (Star r) s2.
Proof.
  intros H. remember (Star r) as r' eqn:Er. remember (c :: s) as t eqn:Et.
  revert c s Et.
  induction H as [| | | | | |r0 s1 s2 H1 _ H2 IH2]; try discriminate.
  injection Er as ->. intros c s Et.
  destruct s1 as [|d s1]; simpl in Et.
  - now apply IH2.
  - injection Et as <- <-. now exists s1, s2.
Qed.

Lemma deriv_spec (c : code_unit) (r : regex) (s : jsstring) :
  Matches (deriv c r) s <-> Matches r (c :: s).
Proof.
  revert s.
  induction r as [| |a|r1 IH1 r2 IH2|r1 IH1 r2 IH2|r IH]; intros s; simpl.
  - split; inversion 1.
  - split; inversion 1.
  - destruct (cls_matches a c) eqn:Ha; split; intros H.
    + inversion H; subst. now constructor.
    + inversion H; subst. constructor.
    + inversion H.
    + inversion H; subst. congruence.
  - assert (Hcat : Matches (Cat (deriv c r1) r2) s ->
                   Matches (Cat r1 r2) (c :: s)).
    { inversion 1 as [| |? ? s1 s2 H1 H2| | | |]; subst.
      apply IH1 in H1. change (c :: s1 ++ s2) with ((c :: s1) ++ s2).
      now constructor. }
    assert (Hback : Matches (Cat r1 r2) (c :: s) ->
                    Matches (Cat (deriv c r1) r2) s \/
                    (Matches r1 [] /\ Matches (deriv c r2) s)).
    { inversion 1 as [| |? ? s1 s2 H1 H2 E1 E2| | | |]; subst.
      destruct s1 as [|d s1]; simpl in E2.
      - subst s2. right. split; [exact H1 | now apply IH2].
      - injection E2 as <- <-. left. constructor; [now apply IH1 | exact H2]. }
    destruct (nullable r1) eqn:Hn; split; intros H.
    + inversion H; subst; [now apply Hcat |].
      apply nullable_spec in Hn. change (c :: s) with ([] ++ c :: s).
      constructor; [exact Hn | now apply IH2].
    + destruct (Hback H) as [H'|[_ H']]; [now apply MAltL | now apply MAltR].
    + now apply Hcat.
    + destruct (Hback H) as [H'|[H' _]]; [exact H' |].
      apply nullable_spec in H'. congruence.
  - split; intros H; inversion H; subst.
    + apply MAltL. now apply IH1.
    + apply MAltR. now apply IH2.
    + apply MAltL. now apply IH1.
    + apply MAltR. now apply IH2.
  - split; intros H.
    + inversion H as [| |? ? s1 s2 H1 H2| | | |]; subst.
      apply IH in H1. change (c :: s1 ++ s2) with ((c :: s1) ++ s2).
      now constructor.
    + apply Matches_star_uncons in H as (s1 & s2 & -> & H1 & H2).
      constructor; [now apply IH | exact H2].
Qed.

Lemma full_match_spec (r : regex) (s : jsstring) :
  full_match r s = true <-> Matches r s.
Proof.
  revert r; induction s as [|c s IH]; intros r; simpl.
  - apply nullable_spec.
  - rewrite IH. apply deriv_spec.
Qed.

Lemma Matches_Lits (l s : jsstring) : Matches (Lits l) s <-> s = l.
Proof.
  revert s; induction l as [|c l IH]; intros s; simpl.
  - split; [now inversion 1 | intros ->; constructor].
  - split.
    + inversion 1 as [| |? ? s1 s2 H1 H2| | | |]; subst.
      inversion H1; subst. simpl in *. apply IH in H2.
      match goal with E : (_ =? _) = true |- _ => apply N.eqb_eq in E end.
      congruence.
    + intros ->. change (c :: l) with ([c] ++ l).
      constructor; [constructor; simpl; apply N.eqb_refl | now apply IH].
Qed.

Lemma Matches_Lit (c : code_unit) (s : jsstring) :
  Matches (Atom (Lit c)) s <-> s = [c].
Proof.
  split.
  - inversion 1; subst. simpl in *.
    match goal with E : (_ =? _) = true |- _ => apply N.eqb_eq in E end.
    congruence.
  - intros ->. constructor. simpl. apply N.eqb_refl.
Qed.

Lemma Matches_star_atom (a : cls) (s : jsstring) :
  Matches (Star (Atom a)) s <-> forallb (cls_matches a) s = true.
Proof.
  split.
  - intros H. remember (Star (Atom a)) as r eqn:Er.
    induction H as [| | | | | |r0 s1 s2 H1 _ H2 IH2]; try discriminate.
    + reflexivity.
    + injection Er as ->. inversion H1; subst. simpl.
      apply andb_true_iff. split; [assumption | now apply IH2].
  - induction s as [|c s IH]; simpl; intros H.
    + constructor.
    + apply andb_true_iff in H as [Hc Hs].
      change (c :: s) with ([c] ++ s).
      constructor; [now constructor | now apply IH].
Qed.

Lemma Matches_plus_atom (a : cls) (s : jsstring) :
  Matches (Plus (Atom a)) s <-> s <> [] /\ forallb (cls_matches a) s = true.
Proof.
  unfold Plus. split.
  - inversion 1 as [| |? ? s1 s2 H1 H2| | | |]; subst.
    inversion H1; subst. apply Matches_star_atom in H2. simpl.
    split; [discriminate | now apply andb_true_iff].
  - intros [Hne H]. destruct s as [|c s]; [congruence |].
    simpl in H. apply andb_true_iff in H as [Hc Hs].
    change (c :: s) with ([c] ++ s).
    constructor; [now constructor | now apply Matches_star_atom].
Qed.

Lemma Matches_Cat (r1 r2 : regex) (s : jsstring) :
  Matches (Cat r1 r2) s <->
  exists s1 s2, s = s1 ++ s2 /\ Matches r1 s1 /\ Matches r2 s2.
Proof.
  split.
  - inversion 1 as [| |? ? s1 s2 H1 H2| | | |]; subst. now exists s1, s2.
  - intros (s1 & s2 & -> & H1 & H2). now constructor.
Qed.


(* ================================================================= *)
(** ** The two patterns *)

(** Boolean tests on code units, turned into arithmetic. *)
Ltac unit_arith :=
  unfold kept_in_filename, spec_filename_char, is_word_or_hyphen, is_lower_hex,
    is_space, is_white_space, is_line_terminator, is_word, is_digit, in_range in *;
  repeat match goal with
    | H : _ && _ = true |- _ => apply andb_true_iff in H; destruct H
    | H : _ || _ = true |- _ => apply orb_true_iff in H; destruct H
    | H : (_ <=? _) = true |- _ => apply N.leb_le in H
    | H : (_ =? _) = true |- _ => apply N.eqb_eq in H
    end;
  rewrite ?orb_true_iff, ?andb_true_iff, ?N.leb_le, ?N.eqb_eq;
  try lia.

Lemma forallb_impl {A} (f g : A -> bool) (l : list A) :
  (forall x, f x = true -> g x = true) ->
  forallb f l = true -> forallb g l = true.
Proof.
  intros Hfg. induction l as [|x l IH]; simpl; [reflexivity |].
  intros H. apply andb_true_iff in H as [Hx Hl].
  apply andb_true_iff. split; [now apply Hfg | now apply IH].
Qed.

Lemma forallb_same {A} (f g : A -> bool) (l : list A) :
  (forall x, f x = g x) -> forallb f l = forallb g l.
Proof.
  intros Hfg. induction l as [|x l IH]; simpl; [reflexivity |].
  now rewrite Hfg, IH.
Qed.

Lemma cls_word_or_hyphen (c : code_unit) :
  cls_matches word_or_hyphen c = is_word_or_hyphen c.
Proof.
  unfold is_word_or_hyphen. simpl. now rewrite orb_false_r.
Qed.

Lemma cls_unsafe_filename_char (c : code_unit) :
  cls_matches unsafe_filename_char c = negb (kept_in_filename c).
Proof.
  unfold kept_in_filename. simpl. rewrite orb_false_r.
  now rewrite !orb_assoc.
Qed.

(** The pattern of [handleConfirmUpload] accepts exactly the strings made of
    [uploads/], a run of digits, a hyphen, a run of word characters and
    hyphens, a hyphen, and a tail free of line terminators. *)
Lemma key_pattern_spec (k : jsstring) :
  RegExp_test_anchored key_pattern k = true <-> key_shape k.
Proof.
  unfold RegExp_test_anchored, key_shape, key_pattern.
  rewrite full_match_spec. split.
  - intros H.
    apply Matches_Cat in H as (p & t1 & -> & Hp & H).
    apply Matches_Cat in H as (ds & t2 & -> & Hds & H).
    apply Matches_Cat in H as (h1 & t3 & -> & Hh1 & H).
    apply Matches_Cat in H as (ident & t4 & -> & Hid & H).
    apply Matches_Cat in H as (h2 & rest & -> & Hh2 & Hrest).
    apply Matches_Lits in Hp. apply Matches_Lit in Hh1, Hh2. subst.
    apply Matches_plus_atom in Hds as [Hds1 Hds2].
    apply Matches_plus_atom in Hid as [Hid1 Hid2].
    apply Matches_star_atom in Hrest.
    exists ds, ident, rest. repeat split; try assumption.
    rewrite <- Hid2. apply forallb_same. intros c. now rewrite cls_word_or_hyphen.
  - intros (ds & ident & rest & -> & Hds1 & Hds2 & Hid1 & Hid2 & Hrest).
    constructor; [now apply Matches_Lits |].
    constructor; [apply Matches_plus_atom; now split |].
    constructor; [now apply Matches_Lit |].
    constructor.
    { apply Matches_plus_atom. split; [assumption |].
      rewrite <- Hid2. apply forallb_same. intros c. apply cls_word_or_hyphen. }
    constructor; [now apply Matches_Lit |].
    now apply Matches_star_atom.
Qed.

(** Whatever [key_pattern] accepts, the pattern of the specification
    accepts too. *)
Lemma key_pattern_within_spec (k : jsstring) :
  RegExp_test_anchored key_pattern k = true ->
  RegExp_test_anchored spec_key_pattern k = true.
Proof.
  intros H. apply key_pattern_spec in H
    as (ds & ident & rest & -> & Hds1 & Hds2 & Hid1 & Hid2 & Hrest).
  unfold RegExp_test_anchored, spec_key_pattern. apply full_match_spec.
  constructor; [now apply Matches_Lits |].
  constructor; [apply Matches_plus_atom; now split |].
  constructor; [now apply Matches_Lit |].
  constructor.
  { apply Matches_plus_atom. split; [assumption |].
    revert Hid2. apply forallb_impl. intros c Hc. simpl.
    apply negb_true_iff. destruct (is_space c) eqn:Hs; [| reflexivity].
    exfalso. unit_arith. }
  constructor; [now apply Matches_Lit |].
  now apply Matches_star_atom.
Qed.

(** The pattern on a few keys. *)
Example key_pattern_accepts_issued_form :
  RegExp_test_anchored key_pattern
    (js "uploads/1700000000000-123e4567-e89b-42d3-a456-426614174000-cat.png") = true.
Proof. vm_compute. reflexivity. Qed.

Example key_pattern_wants_digits :
  RegExp_test_anchored key_pattern (js "uploads/-abc-cat.png") = false.
Proof. vm_compute. reflexivity. Qed.

Example key_pattern_wants_prefix :
  RegExp_test_anchored key_pattern (js "upload/1-abc-cat.png") = false.
Proof. vm_compute. reflexivity. Qed.

Example key_pattern_stops_at_line_feed :
  RegExp_test_anchored key_pattern (js "uploads/1-abc-cat" ++ [10] ++ js ".png") = false.
Proof. vm_compute. reflexivity. Qed.

Example key_pattern_takes_spaces_in_tail :
  RegExp_test_anchored key_pattern (js "uploads/1-abc-my photo.png") = true.
Proof. vm_compute. reflexivity. Qed.

(** [filename.replace(/[^\w\s.-]/g, '_')] works unit by unit. *)
Lemma sanitize_map (s : jsstring) :
  String_replace_all unsafe_filename_char (js "_") s
  = map (fun c => if kept_in_filename c then c else 95) s.
Proof.
  unfold String_replace_all. induction s as [|c s IH]; cbn [flat_map map].
  - reflexivity.
  - rewrite IH, cls_unsafe_filename_char.
    now destruct (kept_in_filename c).
Qed.

Example sanitize_keeps_space_and_dot :
  String_replace_all unsafe_filename_char (js "_") (js "my photo (1).png")
  = js "my photo _1_.png".
Proof. vm_compute. reflexivity. Qed.

Lemma sanitize_length (s : jsstring) :
  List.length (String_replace_all unsafe_filename_char (js "_") s) = List.length s.
Proof. rewrite sanitize_map. apply length_map. Qed.

Lemma sanitize_kept (s : jsstring) :
  forallb kept_in_filename (String_replace_all unsafe_filename_char (js "_") s) = true.
Proof.
  rewrite sanitize_map. induction s as [|c s IH]; simpl; [reflexivity |].
  rewrite IH, andb_true_r.
  destruct (kept_in_filename c) eqn:Hc; [exact Hc | reflexivity].
Qed.

Lemma sanitize_nonempty (s : jsstring) :
  s <> [] -> String_replace_all unsafe_filename_char (js "_") s <> [].
Proof.
  intros Hs E. apply (f_equal (@List.length _)) in E.
  rewrite sanitize_length in E. destruct s; [congruence | discriminate].
Qed.

(** Line terminators are white space, so the replacement keeps them. *)
Lemma line_terminator_kept (c : code_unit) :
  is_line_terminator c = true -> kept_in_filename c = true.
Proof.
  intros H. unfold kept_in_filename, is_space. rewrite H.
  now rewrite !orb_true_r.
Qed.

Lemma sanitize_line_free (s : jsstring) :
  forallb (fun c => negb (is_line_terminator c)) s = true ->
  forallb (fun c => negb (is_line_terminator c))
    (String_replace_all unsafe_filename_char (js "_") s) = true.
Proof.
  rewrite sanitize_map. induction s as [|c s IH]; simpl; [reflexivity |].
  intros H. apply andb_true_iff in H as [Hc Hs].
  rewrite (IH Hs), andb_true_r.
  destruct (kept_in_filename c); [exact Hc | reflexivity].
Qed.

(* ================================================================= *)
(** ** Rendering of the timestamp, shape of the UUID *)

Lemma js_inj (a b : string) : js a = js b -> a = b.
Proof.
  unfold js. revert b. induction a as [|x a IH]; intros [|y b]; simpl;
    try discriminate; [reflexivity |].
  intros H. injection H as Hx Hr. apply IH in Hr. subst b.
  f_equal. rewrite <- (ascii_N_embedding x), <- (ascii_N_embedding y).
  now rewrite Hx.
Qed.

Lemma js_cons (c : ascii) (s : string) : js (String c s) = N_of_ascii c :: js s.
Proof. reflexivity. Qed.

Lemma uint_digits (d : Decimal.uint) :
  forallb is_digit (js (NilEmpty.string_of_uint d)) = true.
Proof.
  induction d; cbn [NilEmpty.string_of_uint]; rewrite ?js_cons;
    cbn [forallb]; rewrite ?IHd; reflexivity.
Qed.

Lemma uint_nonempty (d : Decimal.uint) :
  d <> Decimal.Nil -> js (NilEmpty.string_of_uint d) <> [].
Proof. destruct d; intros H; [congruence | ..]; discriminate. Qed.

(** The rendering of a time value: an optional minus sign, then digits. *)
Lemma Number_toString_shape (z : Z) :
  exists digits,
    digits <> [] /\ forallb is_digit digits = true
    /\ Number_toString z = if (z <? 0)%Z then 45 :: digits else digits.
Proof.
  unfold Number_toString. destruct z as [|p|p]; cbn [Z.to_int Z.ltb Z.compare].
  - exists [48]. repeat split. discriminate.
  - exists (js (NilEmpty.string_of_uint (Pos.to_uint p))).
    pose proof (Unsigned.to_uint_nonnil p) as Hn.
    split; [now apply uint_nonempty |]. split; [apply uint_digits |].
    cbn [NilZero.string_of_int]. unfold NilZero.string_of_uint.
    destruct (Pos.to_uint p); [congruence | ..]; reflexivity.
  - exists (js (NilEmpty.string_of_uint (Pos.to_uint p))).
    pose proof (Unsigned.to_uint_nonnil p) as Hn.
    split; [now apply uint_nonempty |]. split; [apply uint_digits |].
    cbn [NilZero.string_of_int]. rewrite js_cons. unfold NilZero.string_of_uint.
    destruct (Pos.to_uint p); [congruence | ..]; reflexivity.
Qed.

Lemma Number_toString_nonneg (z : Z) :
  (0 <= z)%Z ->
  Number_toString z <> [] /\ forallb is_digit (Number_toString z) = true.
Proof.
  intros Hz. destruct (Number_toString_shape z) as (ds & Hne & Hd & E).
  destruct (Z.ltb_spec z 0); [lia |]. rewrite E. now split.
Qed.

Lemma Number_toString_inj (a b : Z) :
  Number_toString a = Number_toString b -> a = b.
Proof.
  unfold Number_toString. intros H. apply js_inj in H.
  apply DecimalZ.to_int_inj.
  assert (Hok : forall z, Z.to_int z <> Decimal.Pos Decimal.Nil
                          /\ Z.to_int z <> Decimal.Neg Decimal.Nil).
  { intros [|p|p]; cbn [Z.to_int]; split; try discriminate;
      intros E; injection E as E; now apply Unsigned.to_uint_nonnil in E. }
  destruct (Hok a) as [Ha1 Ha2]. destruct (Hok b) as [Hb1 Hb2].
  pose proof (NilZero.isi _ Ha1 Ha2) as Ia.
  pose proof (NilZero.isi _ Hb1 Hb2) as Ib.
  rewrite H in Ia. congruence.
Qed.

(** A run of digits ends where the first hyphen stands. *)
Lemma digits_split (a b x y : jsstring) :
  forallb is_digit a = true -> forallb is_digit b = true ->
  a ++ 45 :: x = b ++ 45 :: y -> a = b /\ x = y.
Proof.
  revert b. induction a as [|c a IH]; intros [|d b]; simpl; intros Ha Hb E.
  - injection E as ->. now split.
  - injection E as <- _. discriminate.
  - injection E as -> _. discriminate.
  - apply andb_true_iff in Ha as [_ Ha]. apply andb_true_iff in Hb as [_ Hb].
    injection E as -> E. destruct (IH b Ha Hb E) as [-> ->]. now split.
Qed.

Lemma app_same_length {A} (a b x y : list A) :
  List.length a = List.length b -> a ++ x = b ++ y -> a = b /\ x = y.
Proof.
  revert b. induction a as [|c a IH]; intros [|d b]; simpl; intros Hl E;
    try discriminate.
  - now split.
  - injection Hl as Hl. injection E as -> E.
    destruct (IH b Hl E) as [-> ->]. now split.
Qed.

Lemma combine_forallb {A B} (f : A * B -> bool) (g : B -> bool)
  (l : list A) (u : list B) :
  (forall i c, f (i, c) = true -> g c = true) ->
  (List.length u <= List.length l)%nat ->
  forallb f (combine l u) = true -> forallb g u = true.
Proof.
  intros Hfg. revert l. induction u as [|c u IH]; intros [|i l]; simpl;
    intros Hl H; try reflexivity; try lia.
  apply andb_true_iff in H as [Hc Hu].
  apply andb_true_iff. split; [now apply (Hfg i) | apply (IH l); [lia | exact Hu]].
Qed.

Lemma uuid_unit_word (i : nat) (c : code_unit) :
  uuid_unit_ok i c = true -> is_word_or_hyphen c = true.
Proof.
  do 24 (destruct i as [|i]; [cbn [uuid_unit_ok]; intros H; unit_arith |]).
  cbn [uuid_unit_ok]. intros H. unit_arith.
Qed.

Lemma is_uuid_shape (u : jsstring) :
  is_uuid u = true ->
  List.length u = 36%nat /\ u <> [] /\ forallb is_word_or_hyphen u = true.
Proof.
  unfold is_uuid. intros H. apply andb_true_iff in H as [Hl Hu].
  apply Nat.eqb_eq in Hl. split; [exact Hl |]. split.
  - intros ->. discriminate.
  - revert Hu. apply combine_forallb.
    + intros i c. apply uuid_unit_word.
    + rewrite Hl, length_seq. lia.
Qed.

(** The key determines the timestamp, the UUID and the sanitized name it was
    assembled from. *)
Lemma key_template_inj (z1 z2 : Z) (u1 u2 s1 s2 : jsstring) :
  is_uuid u1 = true -> is_uuid u2 = true ->
  key_template z1 u1 s1 = key_template z2 u2 s2 ->
  z1 = z2 /\ u1 = u2 /\ s1 = s2.
Proof.
  intros Hu1 Hu2 E. unfold key_template in E.
  apply app_inv_head in E.
  apply is_uuid_shape in Hu1 as (Hl1 & _ & _).
  apply is_uuid_shape in Hu2 as (Hl2 & _ & _).
  destruct (Number_toString_shape z1) as (d1 & Hn1 & Hd1 & E1).
  destruct (Number_toString_shape z2) as (d2 & Hn2 & Hd2 & E2).
  assert (Hnum : Number_toString z1 = Number_toString z2
                 /\ u1 ++ js "-" ++ s1 = u2 ++ js "-" ++ s2).
  { rewrite E1, E2 in *. change (js "-") with [45] in *.
    destruct (z1 <? 0)%Z, (z2 <? 0)%Z; cbn [app] in E.
    - injection E as E. apply digits_split in E as [-> E]; auto.
    - destruct d2 as [|c d2]; [congruence |]. simpl in Hd2, E.
      injection E as <- _. discriminate.
    - destruct d1 as [|c d1]; [congruence |]. simpl in Hd1, E.
      injection E as -> _. discriminate.
    - apply digits_split in E as [-> E]; auto. }
  destruct Hnum as [Hz Hrest]. apply Number_toString_inj in Hz.
  apply app_same_length in Hrest as [-> Hs]; [| congruence].
  apply app_inv_head in Hs. now repeat split.
Qed.

(* ================================================================= *)
(** ** The handlers, path by path *)

Ltac run_handler :=
  unfold handleUploadUrl, handleConfirmUpload, getSignedUrl, console_error,
    destructure, call_replace;
  unfold try_catch, bind, read_s3Client, lift, emit, throw, ret.

Lemma machine_eta (m : machine) : {| s3Client := s3Client m; trace := trace m |} = m.
Proof. now destruct m. Qed.

Lemma json_eq_null (b : json) : b = JNull \/ b <> JNull.
Proof. destruct b; [now left | right; discriminate ..]. Qed.

Lemma ToString_binding (b : option jsstring) :
  ToString (binding b) = Normal (binding_text b).
Proof. now destruct b. Qed.

(** Induction on a parsed value, through the elements of arrays. *)
Lemma json_array_ind (P : json -> Prop) :
  P JNull -> (forall b, P (JBool b)) -> (forall n, P (JNum n)) ->
  (forall s, P (JStr s)) ->
  (forall elements, Forall P elements -> P (JArr elements)) ->
  (forall props, P (JObj props)) ->
  forall v, P v.
Proof.
  intros Hnull Hbool Hnum Hstr Harr Hobj. fix IH 1.
  intros [| b | n | s | elements | props].
  - exact Hnull.
  - apply Hbool.
  - apply Hnum.
  - apply Hstr.
  - apply Harr. induction elements as [|e rest IHrest]; constructor;
      [apply IH | exact IHrest].
  - apply Hobj.
Qed.

Lemma lookup_own (p : jsstring) (props : list (jsstring * json)) :
  existsb (fun kv => str_eqb (fst kv) p) props
  = match lookup p props with Some _ => true | None => false end.
Proof.
  induction props as [|[k v] rest IH]; cbn [existsb lookup fst]; [reflexivity |].
  destruct (str_eqb k p); [reflexivity | exact IH].
Qed.

(** The conversion to a string throws on the values that hold an object
    with an own [toString], and on no other. *)
Lemma json_ToString_renders (v : json) :
  if unrenderable v then json_ToString v = Throw conversion_error
  else exists s, json_ToString v = Normal s.
Proof.
  induction v as [| b | n | s | elements IH | props] using json_array_ind;
    cbn [unrenderable json_ToString].
  - eexists; reflexivity.
  - destruct b; eexists; reflexivity.
  - eexists; reflexivity.
  - eexists; reflexivity.
  - assert (Hall :
      if existsb unrenderable elements
      then all_Normal
             (map (fun e => match e with JNull => Normal [] | _ => json_ToString e end)
                elements) = Throw conversion_error
      else exists parts,
             all_Normal
               (map (fun e => match e with JNull => Normal [] | _ => json_ToString e end)
                  elements) = Normal parts).
    { induction IH as [|e rest He _ IHrest]; cbn [existsb map all_Normal].
      - eexists; reflexivity.
      - assert (He' : if unrenderable e
                      then match e with JNull => Normal [] | _ => json_ToString e end
                           = Throw conversion_error
                      else exists s, match e with JNull => Normal [] | _ => json_ToString e end
                                     = Normal s).
        { destruct e; try exact He. eexists; reflexivity. }
        destruct (unrenderable e); cbn [orb].
        + now rewrite He'.
        + destruct He' as (s & ->).
          destruct (existsb unrenderable rest).
          * now rewrite IHrest.
          * destruct IHrest as (parts & ->). eexists; reflexivity. }
    destruct (existsb unrenderable elements).
    + now rewrite Hall.
    + destruct Hall as (parts & ->). eexists; reflexivity.
  - rewrite lookup_own. destruct (lookup (js "toString") props).
    + reflexivity.
    + eexists; reflexivity.
Qed.

Lemma ToString_renders (v : value) :
  if value_unrenderable v then ToString v = Throw conversion_error
  else exists s, ToString v = Normal s.
Proof.
  destruct v as [j|]; cbn [value_unrenderable ToString].
  - apply json_ToString_renders.
  - eexists; reflexivity.
Qed.

Section IssuerPaths.

Variables (w : platform) (request : Request) (env : Env) (m : machine).

Lemma issuer_without_client :
  s3Client m = None ->
  handleUploadUrl w request env m
  = (Normal (corsResponse (failure_body (js "Failed to generate upload URL") init_error)
               env (Some 500)),
     logged m (js "Error generating presigned URL: " ++ Error_toString init_error)).
Proof. intros H. run_handler. now rewrite H. Qed.

Lemma issuer_unparseable (s3 : S3Client) (e : Error) :
  s3Client m = Some s3 -> json_body request = Throw e ->
  handleUploadUrl w request env m
  = (Normal (corsResponse (failure_body (js "Failed to generate upload URL") e)
               env (Some 500)),
     logged m (js "Error generating presigned URL: " ++ Error_toString e)).
Proof. intros H1 H2. run_handler. now rewrite H1, H2. Qed.

Lemma issuer_missing_params (s3 : S3Client) (b : json) :
  s3Client m = Some s3 -> json_body request = Normal b ->
  b <> JNull ->
  lacks_upload_params b ->
  handleUploadUrl w request env m
  = (Normal (corsResponse
               (JObj [ (js "error",
                        JStr (js "Missing required parameters: filename and filetype")) ])
               env (Some 400)),
     m).
Proof.
  intros H1 H2 Hnn (fn & ft & Hb & Hfalsy). run_handler. rewrite H1, H2.
  assert (Hor : negb (ToBoolean fn) || negb (ToBoolean ft) = true).
  { destruct Hfalsy as [-> | ->]; [reflexivity | apply orb_true_r]. }
  destruct b; try congruence; destruct Hb as [-> ->];
    try (cbn [ToBoolean negb orb]; reflexivity).
  now rewrite Hor.
Qed.

Lemma issuer_valid (s3 : S3Client) (b : json) (filename filetype : jsstring) :
  s3Client m = Some s3 -> json_body request = Normal b ->
  upload_body filename filetype b ->
  let key := key_template (Z.of_N (Date_now w)) (crypto_randomUUID w)
               (String_replace_all unsafe_filename_char (js "_") filename) in
  let command := {| Bucket := binding (AWS_S3_BUCKET env); Key := key;
                    ContentType := Some (JStr filetype) |} in
  let m' := {| s3Client := Some s3;
               trace := trace m ++ [GetSignedUrl s3 command 3600] |} in
  handleUploadUrl w request env m
  = match presigner w s3 command 3600 with
    | Normal url =>
        (Normal (corsResponse
                   (JSON_stringify
                      [ (js "url", Some (JStr url)); (js "key", Some (JStr key));
                        (js "bucket", binding (AWS_S3_BUCKET env)) ])
                   env None),
         m')
    | Throw e =>
        (Normal (corsResponse (failure_body (js "Failed to generate upload URL") e)
                   env (Some 500)),
         logged m' (js "Error generating presigned URL: " ++ Error_toString e))
    end.
Proof.
  intros H1 H2 (props & -> & Hfn & Hft & Hn1 & Hn2) key command m'.
  run_handler. rewrite H1, H2, Hfn, Hft.
  assert (T1 : ToBoolean (Some (JStr filename)) = true).
  { cbn [ToBoolean]. destruct (str_eqb filename []) eqn:E; [| reflexivity].
    apply str_eqb_nil in E. congruence. }
  assert (T2 : ToBoolean (Some (JStr filetype)) = true).
  { cbn [ToBoolean]. destruct (str_eqb filetype []) eqn:E; [| reflexivity].
    apply str_eqb_nil in E. congruence. }
  rewrite T1, T2. cbn [negb orb]. fold key. fold command.
  destruct (presigner w s3 command 3600); cbn beta iota; rewrite ?H1; reflexivity.
Qed.

End IssuerPaths.

Section ValidatorPaths.

Variables (request : Request) (env : Env) (m : machine).

Lemma validator_unparseable (e : Error) :
  json_body request = Throw e ->
  handleConfirmUpload request env m
  = (Normal (corsResponse (failure_body (js "Failed to confirm upload") e)
               env (Some 500)),
     logged m (js "Error confirming upload: " ++ Error_toString e)).
Proof. intros H. run_handler. now rewrite H. Qed.

Lemma validator_null_body :
  json_body request = Normal JNull ->
  exists e,
    handleConfirmUpload request env m
    = (Normal (corsResponse (failure_body (js "Failed to confirm upload") e)
                 env (Some 500)),
       logged m (js "Error confirming upload: " ++ Error_toString e)).
Proof. intros H. run_handler. rewrite H. eexists. reflexivity. Qed.

(** On a parsed body other than [null] the handler is a test on the [key]
    read off it, the conversion of the key to a string, which may throw, and
    a test on that string; the machine is left as it was unless the
    conversion throws. *)
Lemma validator_parsed (b : json) :
  json_body request = Normal b -> b <> JNull ->
  handleConfirmUpload request env m
  = if negb (ToBoolean (key_of b)) then (Normal (missing_key env), m)
    else
      match ToString (key_of b) with
      | Throw e =>
          (Normal (corsResponse (failure_body (js "Failed to confirm upload") e)
                     env (Some 500)),
           logged m (js "Error confirming upload: " ++ Error_toString e))
      | Normal text =>
          (Normal (if negb (RegExp_test_anchored key_pattern text) then invalid_key env
                   else confirmation env text),
           m)
      end.
Proof.
  intros H Hb. run_handler. unfold RegExp_test, bind, lift, ret.
  rewrite H, ToString_binding.
  destruct b; try congruence; cbn beta iota; cbn [key_of]; try reflexivity.
  destruct (ToBoolean (lookup (js "key") props)); cbn [negb]; [| reflexivity].
  destruct (ToString (lookup (js "key") props)) as [text|e]; [| reflexivity].
  destruct (RegExp_test_anchored key_pattern text); reflexivity.
Qed.

(** A truthy key that converts to a string is judged on that string. *)
Lemma validator_accepts_text (b : json) (text : jsstring) :
  json_body request = Normal b -> b <> JNull ->
  ToBoolean (key_of b) = true ->
  ToString (key_of b) = Normal text ->
  handleConfirmUpload request env m
  = (Normal (if RegExp_test_anchored key_pattern text then confirmation env text
             else invalid_key env),
     m).
Proof.
  intros Hj Hb Ht Hs. rewrite (validator_parsed Hj Hb), Ht, Hs. cbn [negb].
  now destruct (RegExp_test_anchored key_pattern text).
Qed.

(** Whatever the request, the handler answers, keeps [s3Client], and adds
    at most a console line to the trace. *)
Lemma validator_outcome :
  exists resp extra,
    handleConfirmUpload request env m
    = (Normal resp, {| s3Client := s3Client m; trace := trace m ++ extra |})
    /\ forallb (fun e => negb (is_storage_event e)) extra = true
    /\ exists b st, resp = corsResponse b env st.
Proof.
  destruct (json_body request) as [b|e] eqn:Hj.
  - destruct (json_eq_null b) as [-> | Hb].
    + destruct (validator_null_body Hj) as (e & ->).
      eexists; eexists; split; [reflexivity |]. split; [reflexivity |].
      eexists; eexists; reflexivity.
    + rewrite (validator_parsed Hj Hb).
      destruct (negb (ToBoolean (key_of b))).
      { eexists; exists []; rewrite app_nil_r, machine_eta.
        split; [reflexivity |]. split; [reflexivity |].
        eexists; eexists; reflexivity. }
      destruct (ToString (key_of b)) as [text|e].
      * eexists; exists []; rewrite app_nil_r, machine_eta.
        split; [reflexivity |]. split; [reflexivity |].
        destruct (negb (RegExp_test_anchored key_pattern text));
          eexists; eexists; reflexivity.
      * eexists; eexists; split; [reflexivity |]. split; [reflexivity |].
        eexists; eexists; reflexivity.
  - rewrite (validator_unparseable Hj).
    eexists; eexists; split; [reflexivity |]. split; [reflexivity |].
    eexists; eexists; reflexivity.
Qed.

End ValidatorPaths.

Section IssuerOutcome.

Variables (w : platform) (request : Request) (env : Env) (m : machine).

Lemma issuer_null_body (s3 : S3Client) :
  s3Client m = Some s3 -> json_body request = Normal JNull ->
  exists e,
    handleUploadUrl w request env m
    = (Normal (corsResponse (failure_body (js "Failed to generate upload URL") e)
                 env (Some 500)),
       logged m (js "Error generating presigned URL: " ++ Error_toString e)).
Proof. intros H1 H2. run_handler. rewrite H1, H2. eexists. reflexivity. Qed.

(** Every run of the Issuer ends in one of its three answers; the one that
    carries a key carries the key of the template. *)
Lemma issuer_outcome :
  exists resp extra,
    handleUploadUrl w request env m
    = (Normal resp, {| s3Client := s3Client m; trace := trace m ++ extra |})
    /\ ((exists e,
           resp = corsResponse (failure_body (js "Failed to generate upload URL") e)
                    env (Some 500))
        \/ resp = corsResponse
                    (JObj [ (js "error",
                             JStr (js "Missing required parameters: filename and filetype")) ])
                    env (Some 400)
        \/ (exists url filename,
              resp = corsResponse
                       (JSON_stringify
                          [ (js "url", Some (JStr url));
                            (js "key",
                             Some (JStr (key_template (Z.of_N (Date_now w)) (crypto_randomUUID w)
                                           (String_replace_all unsafe_filename_char
                                              (js "_") filename))));
                            (js "bucket", binding (AWS_S3_BUCKET env)) ])
                       env None)).
Proof.
  run_handler.
  destruct (s3Client m) as [s3|] eqn:Hc.
  2:{ cbn beta iota; rewrite ?Hc.
      eexists; eexists; split; [reflexivity |]. left. eexists. reflexivity. }
  destruct (json_body request) as [b|e].
  2:{ cbn beta iota; rewrite ?Hc.
      eexists; eexists; split; [reflexivity |]. left. eexists. reflexivity. }
  assert (Hnone :
    exists resp extra,
      (Normal (corsResponse
         (JSON_stringify
            [ (js "error",
               Some (JStr (js "Missing required parameters: filename and filetype"))) ])
         env (Some 400)), m)
      = (Normal resp, {| s3Client := Some s3; trace := trace m ++ extra |})
      /\ ((exists e,
           resp = corsResponse (failure_body (js "Failed to generate upload URL") e)
                    env (Some 500))
        \/ resp = corsResponse
                    (JObj [ (js "error",
                             JStr (js "Missing required parameters: filename and filetype")) ])
                    env (Some 400)
        \/ (exists url filename,
              resp = corsResponse
                       (JSON_stringify
                          [ (js "url", Some (JStr url));
                            (js "key",
                             Some (JStr (key_template (Z.of_N (Date_now w)) (crypto_randomUUID w)
                                           (String_replace_all unsafe_filename_char
                                              (js "_") filename))));
                            (js "bucket", binding (AWS_S3_BUCKET env)) ])
                       env None))).
  { eexists; exists []. rewrite app_nil_r, <- Hc, machine_eta.
    split; [reflexivity |]. right. left. reflexivity. }
  destruct b as [| | | | |props]; cbn beta iota; try exact Hnone.
  { rewrite ?Hc.
    eexists; eexists; split; [reflexivity |]. left. eexists. reflexivity. }
  destruct (negb (ToBoolean (lookup (js "filename") props))
            || negb (ToBoolean (lookup (js "filetype") props))); [exact Hnone |].
  destruct (lookup (js "filename") props) as [[| | |fname| |]|];
    try (cbn beta iota; rewrite ?Hc;
         eexists; eexists; split; [reflexivity |]; left; eexists; reflexivity).
  cbn beta iota.
  destruct (presigner w s3 _ 3600) as [url|e]; cbn beta iota; rewrite ?Hc.
  - eexists; eexists; split; [reflexivity |]. right. right.
    exists url, fname. reflexivity.
  - eexists; eexists. split.
    + cbn [trace s3Client]. rewrite <- app_assoc. reflexivity.
    + left. eexists. reflexivity.
Qed.

(** A key is issued only out of the template. *)
Lemma issued_key_template (k : jsstring) :
  issued_key (fst (handleUploadUrl w request env m)) = Some k ->
  exists filename,
    k = key_template (Z.of_N (Date_now w)) (crypto_randomUUID w)
          (String_replace_all unsafe_filename_char (js "_") filename).
Proof.
  destruct issuer_outcome as (resp & extra & -> & [(e & ->) | [-> | (url & fname & ->)]]);
    cbn [fst]; unfold issued_key, field.
  - discriminate.
  - discriminate.
  - intros H. exists fname. cbn in H.
    destruct (binding (AWS_S3_BUCKET env)); cbn in H; injection H as <-; reflexivity.
Qed.

End IssuerOutcome.

(** On a valid request the only key issued is the template's. *)
Lemma issued_key_of_valid (w : platform) (request : Request) (env : Env)
  (m : machine) (b : json) (filename filetype k : jsstring) :
  json_body request = Normal b ->
  upload_body filename filetype b ->
  issued_key (fst (handleUploadUrl w request env m)) = Some k ->
  k = key_template (Z.of_N (Date_now w)) (crypto_randomUUID w)
        (String_replace_all unsafe_filename_char (js "_") filename).
Proof.
  intros Hj Hb Hk. destruct (s3Client m) as [s3|] eqn:Hc.
  - rewrite (@issuer_valid w request env m s3 b filename filetype Hc Hj Hb) in Hk.
    cbv zeta in Hk.
    destruct (presigner w s3 _ 3600) as [url|e]; cbn [fst] in Hk.
    + unfold issued_key, field in Hk. cbn in Hk.
      destruct (binding (AWS_S3_BUCKET env)); cbn in Hk; injection Hk as <-;
        reflexivity.
    + discriminate.
  - rewrite (@issuer_without_client w request env m Hc) in Hk. discriminate.
Qed.

(* ================================================================= *)
(** ** The Issuer's key *)

(** C1 (as stated, refuted): on the file name [my photo.png] the Issuer
    returns a key whose file-name segment is [my photo.png] itself. The
    space, which is outside [[A-Za-z0-9_.\-]], is still there: it was not
    replaced with an underscore. *)
Lemma issuer_keeps_white_space :
  issued_key (fst (handleUploadUrl Sample.world1
                     (Sample.upload "my photo.png" "image/png")
                     Sample.env Sample.ready))
  = Some (key_template 1700000000000 Sample.uuid1 (js "my photo.png"))
  /\ forallb spec_filename_char (js "my photo.png") = false
  /\ key_template 1700000000000 Sample.uuid1 (js "my photo.png")
     <> key_template 1700000000000 Sample.uuid1 (js "my_photo.png").
Proof.
  split; [vm_compute; reflexivity |]. split; [vm_compute; reflexivity |].
  vm_compute. discriminate.
Qed.

(** C1 (amended): for every valid [(filename, filetype)] handled with the
    storage client in place, the key the Issuer builds, signs and returns is
    [uploads/], the timestamp, a hyphen, the UUID, a hyphen and the file name
    in which every code unit outside [\w], white space, [.] and [-] has been
    replaced with [_], the others kept in place; so the key begins with
    [uploads/] and its file-name segment has no character outside
    [[A-Za-z0-9_.\-]] and white space. *)
Theorem issuer_key_is_prefixed_and_sanitized
  (w : platform) (request : Request) (env : Env) (m : machine)
  (s3 : S3Client) (b : json) (filename filetype : jsstring) :
  s3Client m = Some s3 ->
  json_body request = Normal b ->
  upload_body filename filetype b ->
  let segment := map (fun c => if kept_in_filename c then c else 95) filename in
  let key := js "uploads/" ++ Number_toString (Z.of_N (Date_now w)) ++ js "-"
               ++ crypto_randomUUID w ++ js "-" ++ segment in
  let command := {| Bucket := binding (AWS_S3_BUCKET env); Key := key;
                    ContentType := Some (JStr filetype) |} in
  forallb kept_in_filename segment = true
  /\ (forall k, issued_key (fst (handleUploadUrl w request env m)) = Some k -> k = key)
  /\ (forall url,
        presigner w s3 command 3600 = Normal url ->
        exists resp,
          fst (handleUploadUrl w request env m) = Normal resp
          /\ status resp = 200
          /\ field resp (js "key") = Some (JStr key))
  /\ In (GetSignedUrl s3 command 3600) (trace (snd (handleUploadUrl w request env m))).
Proof.
  intros Hc Hj Hb segment key command.
  pose proof (@issuer_valid w request env m s3 b filename filetype Hc Hj Hb) as Hrun.
  cbv zeta in Hrun. rewrite sanitize_map in Hrun.
  fold segment in Hrun. change (key_template _ _ segment) with key in Hrun.
  fold command in Hrun.
  split.
  { subst segment. rewrite <- sanitize_map. apply sanitize_kept. }
  split.
  { intros k Hk. rewrite Hrun in Hk.
    destruct (presigner w s3 command 3600) as [url|e]; cbn [fst] in Hk.
    - unfold issued_key, field in Hk. cbn in Hk.
      destruct (binding (AWS_S3_BUCKET env)); cbn in Hk; injection Hk as <-;
        reflexivity.
    - discriminate. }
  split.
  { intros url Hurl. rewrite Hrun, Hurl. eexists. split; [reflexivity |].
    split; [reflexivity |]. unfold field. cbn.
    destruct (binding (AWS_S3_BUCKET env)); reflexivity. }
  rewrite Hrun.
  destruct (presigner w s3 command 3600); cbn [snd trace logged];
    rewrite ?in_app_iff; cbn [In]; auto.
Qed.

Lemma issuer_key_is_prefixed_and_sanitized_witness :
  issued_key (fst (handleUploadUrl Sample.world1
                     (Sample.upload "report (v2)#1.pdf" "application/pdf")
                     Sample.env Sample.ready))
  = Some (js "uploads/1700000000000-123e4567-e89b-42d3-a456-426614174000-report _v2__1.pdf").
Proof.
  pose proof (@issuer_key_is_prefixed_and_sanitized Sample.world1
                (Sample.upload "report (v2)#1.pdf" "application/pdf")
                Sample.env Sample.ready Sample.client
                (JObj [ (js "filename", JStr (js "report (v2)#1.pdf"));
                        (js "filetype", JStr (js "application/pdf")) ])
                (js "report (v2)#1.pdf") (js "application/pdf")
                eq_refl eq_refl) as H.
  cbv zeta in H.
  destruct H as (_ & _ & Hissue & _).
  - eexists. repeat split; [vm_compute; reflexivity .. | discriminate | discriminate].
  - destruct (Hissue _ eq_refl) as (resp & Hr & _ & Hk).
    rewrite Hr. unfold issued_key. rewrite Hk. vm_compute. reflexivity.
Defined.

(* ================================================================= *)
(** ** The Validator's pattern *)

(** C2 (as stated, refuted): the key [uploads/1-a.b-c] matches
    [^uploads/\d+-\S+-.*$], its identifier [a.b] having neither slash nor
    white space, and the Validator answers 400 to it. *)
Lemma validator_rejects_dotted_identifier :
  RegExp_test_anchored spec_key_pattern (js "uploads/1-a.b-c") = true
  /\ handleConfirmUpload (Sample.confirm (js "uploads/1-a.b-c")) Sample.env Sample.ready
     = (Normal (corsResponse (JObj [ (js "error", JStr (js "Invalid key format")) ])
                  Sample.env (Some 400)),
        Sample.ready).
Proof. split; vm_compute; reflexivity. Qed.

(** C2 (amended): for every non-empty key string the Validator succeeds if
    and only if the key matches [^uploads\/\d+-[\w-]+-.*$]: [uploads/], one
    or more digits, a hyphen, one or more word characters or hyphens, a
    hyphen, then any characters other than line terminators. Every other
    non-empty key is answered 400 with [Invalid key format]; in particular
    every key outside [^uploads/\d+-\S+-.*$] is. *)
Theorem validator_accepts_exactly_key_pattern
  (request : Request) (env : Env) (m : machine)
  (props : list (jsstring * json)) (k : jsstring) :
  json_body request = Normal (JObj props) ->
  lookup (js "key") props = Some (JStr k) ->
  k <> [] ->
  exists resp,
    handleConfirmUpload request env m = (Normal resp, m)
    /\ (status resp = 200 <-> RegExp_test_anchored key_pattern k = true)
    /\ (RegExp_test_anchored key_pattern k = true <-> key_shape k)
    /\ (RegExp_test_anchored key_pattern k = false ->
        resp = corsResponse (JObj [ (js "error", JStr (js "Invalid key format")) ])
                 env (Some 400))
    /\ (RegExp_test_anchored spec_key_pattern k = false ->
        resp = corsResponse (JObj [ (js "error", JStr (js "Invalid key format")) ])
                 env (Some 400)).
Proof.
  intros Hj Hk Hne.
  assert (T : ToBoolean (key_of (JObj props)) = true).
  { cbn [key_of]. rewrite Hk. cbn [ToBoolean].
    destruct (str_eqb k []) eqn:E; [| reflexivity].
    apply str_eqb_nil in E. congruence. }
  assert (S : ToString (key_of (JObj props)) = Normal k).
  { cbn [key_of]. now rewrite Hk. }
  assert (Hnn : JObj props <> JNull) by discriminate.
  rewrite (@validator_accepts_text request env m _ k Hj Hnn T S).
  eexists. split; [reflexivity |].
  pose proof (key_pattern_spec k) as Hshape.
  pose proof (@key_pattern_within_spec k) as Hwithin.
  destruct (RegExp_test_anchored key_pattern k).
  - split; [split; reflexivity |]. split; [exact Hshape | split].
    + discriminate.
    + intros Hs. rewrite Hwithin in Hs by reflexivity. discriminate.
  - split; [split; discriminate |]. split; [exact Hshape | split]; reflexivity.
Qed.

Lemma validator_accepts_exactly_key_pattern_witness :
  exists resp,
    handleConfirmUpload
      (Sample.confirm (js "uploads/1700000000000-123e4567-e89b-42d3-a456-426614174000-cat.png"))
      Sample.env Sample.ready
    = (Normal resp, Sample.ready)
    /\ status resp = 200.
Proof.
  destruct (@validator_accepts_exactly_key_pattern
              (Sample.confirm (js "uploads/1700000000000-123e4567-e89b-42d3-a456-426614174000-cat.png"))
              Sample.env Sample.ready _ _ eq_refl eq_refl)
    as (resp & Hrun & Hok & _).
  - discriminate.
  - exists resp. split; [exact Hrun |]. apply Hok. vm_compute. reflexivity.
Defined.

(* ================================================================= *)
(** ** From the Issuer to the Validator *)

Lemma truthy_string (k : jsstring) : k <> [] -> ToBoolean (Some (JStr k)) = true.
Proof.
  intros Hne. cbn [ToBoolean]. destruct (str_eqb k []) eqn:E; [| reflexivity].
  apply str_eqb_nil in E. congruence.
Qed.

(** The Validator on a truthy [key] whose text matches the pattern. *)
Lemma validator_accepts (request : Request) (env : Env) (m : machine)
  (props : list (jsstring * json)) (key : json) (text : jsstring) :
  json_body request = Normal (JObj props) ->
  lookup (js "key") props = Some key ->
  ToBoolean (Some key) = true ->
  json_ToString key = Normal text ->
  RegExp_test_anchored key_pattern text = true ->
  handleConfirmUpload request env m
  = (Normal (confirmation env text), m).
Proof.
  intros Hj Hk Ht Hs Hm.
  assert (Hnn : JObj props <> JNull) by discriminate.
  rewrite (@validator_accepts_text request env m _ text Hj Hnn).
  - now rewrite Hm.
  - cbn [key_of]. now rewrite Hk.
  - cbn [key_of]. now rewrite Hk.
Qed.

(** The Validator on a string of the shape. *)
Lemma validator_accepts_shape (request : Request) (env : Env) (m : machine)
  (props : list (jsstring * json)) (k : jsstring) :
  json_body request = Normal (JObj props) ->
  lookup (js "key") props = Some (JStr k) ->
  key_shape k ->
  handleConfirmUpload request env m = (Normal (confirmation env k), m).
Proof.
  intros Hj Hk Hshape.
  apply (@validator_accepts request env m props (JStr k) k Hj Hk).
  - apply truthy_string. destruct Hshape as (ds & ident & rest & -> & _). discriminate.
  - reflexivity.
  - now apply key_pattern_spec.
Qed.

(** A key out of the template has the shape the Validator asks for, as soon
    as the timestamp is not negative, the UUID is one, and the file name has
    no line terminator. *)
Lemma key_template_shape (now : Z) (uuid filename : jsstring) :
  (0 <= now)%Z -> is_uuid uuid = true -> line_free filename = true ->
  key_shape (key_template now uuid
               (String_replace_all unsafe_filename_char (js "_") filename)).
Proof.
  intros Hnow Hu Hf. unfold key_shape, key_template.
  destruct (Number_toString_nonneg Hnow) as [Hn1 Hn2].
  apply is_uuid_shape in Hu as (_ & Hu1 & Hu2).
  eexists; eexists; eexists. split; [reflexivity |].
  repeat split; try assumption. now apply sanitize_line_free.
Qed.

(** Conversely a line terminator in the file name survives into the key,
    and no key with one after its prefix has the shape. *)
Lemma key_template_shape_line_free (now : Z) (uuid filename : jsstring) :
  (0 <= now)%Z ->
  key_shape (key_template now uuid
               (String_replace_all unsafe_filename_char (js "_") filename)) ->
  line_free filename = true.
Proof.
  intros Hnow (ds & ident & rest & E & _ & Hds & _ & Hid & Hrest).
  unfold key_template in E. apply app_inv_head in E.
  destruct (Number_toString_nonneg Hnow) as [_ Hn].
  change (js "-") with [45] in E. cbn [app] in E.
  apply digits_split in E as [_ E]; [| assumption | assumption].
  assert (Hall : forall l, l = ident ++ 45 :: rest -> line_free l = true).
  { intros l ->. unfold line_free. rewrite forallb_app. cbn [forallb].
    rewrite Hrest. change (negb (is_line_terminator 45)) with true.
    rewrite !andb_true_r.
    revert Hid. apply forallb_impl. intros c Hc.
    destruct (is_line_terminator c) eqn:Hl; [| reflexivity].
    exfalso. unit_arith. }
  apply Hall in E. clear Hall. rename E into Hall. unfold line_free in Hall.
  rewrite forallb_app in Hall. apply andb_true_iff in Hall as [_ Hall].
  cbn [forallb] in Hall. apply andb_true_iff in Hall as [_ Hall].
  rewrite sanitize_map in Hall. unfold line_free.
  clear - Hall. induction filename as [|c f IH]; [reflexivity |].
  cbn [map forallb] in *. apply andb_true_iff in Hall as [Hc Hf].
  rewrite (IH Hf), andb_true_r.
  destruct (is_line_terminator c) eqn:Hl; [| reflexivity].
  rewrite (line_terminator_kept c Hl) in Hc. now rewrite Hl in Hc.
Qed.

(** C3 (as stated, refuted): the key issued for [my photo.png] is not of the
    form [uploads/<digits>-<uuid>-my_photo.png], its last segment being
    [my photo.png]; and the key issued for a file name with a line feed in
    it, [a], LF, [b], is answered 400 by the Validator. *)
Lemma round_trip_example_fails :
  (exists k,
     issued_key (fst (handleUploadUrl Sample.world1
                        (Sample.upload "my photo.png" "image/png")
                        Sample.env Sample.ready)) = Some k
     /\ ~ example_key_shape k)
  /\ (exists k resp,
        issued_key (fst (handleUploadUrl Sample.world1
                           (Sample.upload_units [97; 10; 98] "image/png")
                           Sample.env Sample.ready)) = Some k
        /\ fst (handleConfirmUpload (Sample.confirm k) Sample.env Sample.ready)
           = Normal resp
        /\ status resp = 400).
Proof.
  split.
  - eexists. split; [vm_compute; reflexivity |].
    intros (ds & u & _ & _ & E).
    apply (f_equal (fun l => firstn 13 (rev l))) in E.
    rewrite !app_assoc, rev_app_distr in E. vm_compute in E. discriminate.
  - eexists; eexists. split; [vm_compute; reflexivity |].
    split; vm_compute; reflexivity.
Qed.

(** C3 (amended): for every valid [(filename, filetype)] whose file name has
    no line terminator (LF, CR, U+2028, U+2029), every key the Issuer returns
    is accepted by the Validator, which answers 200 with [success: true] and
    [imageUrl] [https://<bucket>.s3.amazonaws.com/<key>]; the key is
    [uploads/<timestamp>-<uuid>-<file name with the characters outside \w,
    white space, . and - replaced by _>], so [my photo.png] yields
    [uploads/<digits>-<uuid>-my photo.png]. *)
Theorem issued_key_is_confirmed
  (w : platform) (request : Request) (env : Env) (m : machine)
  (b : json) (filename filetype k : jsstring) :
  json_body request = Normal b ->
  upload_body filename filetype b ->
  line_free filename = true ->
  issued_key (fst (handleUploadUrl w request env m)) = Some k ->
  k = js "uploads/" ++ Number_toString (Z.of_N (Date_now w)) ++ js "-" ++ crypto_randomUUID w
        ++ js "-" ++ map (fun c => if kept_in_filename c then c else 95) filename
  /\ (filename = js "my photo.png" ->
      k = js "uploads/" ++ Number_toString (Z.of_N (Date_now w)) ++ js "-"
            ++ crypto_randomUUID w ++ js "-my photo.png")
  /\ forall request' env' m' props,
       json_body request' = Normal (JObj props) ->
       lookup (js "key") props = Some (JStr k) ->
       handleConfirmUpload request' env' m'
       = (Normal
            (corsResponse
               (JObj [ (js "success", JBool true);
                       (js "message", JStr (js "Upload confirmed!"));
                       (js "imageUrl",
                        JStr (js "https://" ++ binding_text (AWS_S3_BUCKET env')
                                ++ js ".s3.amazonaws.com/" ++ k)) ])
               env' None),
          m').
Proof.
  intros Hj Hb Hlf Hk.
  pose proof (N2Z.is_nonneg (Date_now w)) as Hnow.
  pose proof (crypto_randomUUID_shape w) as Hu.
  assert (Ek : k = key_template (Z.of_N (Date_now w)) (crypto_randomUUID w)
                     (String_replace_all unsafe_filename_char (js "_") filename)).
  { exact (@issued_key_of_valid w request env m b filename filetype k Hj Hb Hk). }
  split; [rewrite Ek, sanitize_map; reflexivity |].
  split; [intros ->; rewrite Ek; vm_compute String_replace_all; reflexivity |].
  intros request' env' m' props Hj' Hk'.
  apply (@validator_accepts_shape request' env' m' props k Hj' Hk').
  rewrite Ek. now apply key_template_shape.
Qed.

Lemma issued_key_is_confirmed_witness :
  handleConfirmUpload
    (Sample.confirm
       (js "uploads/1700000000000-123e4567-e89b-42d3-a456-426614174000-my photo.png"))
    Sample.env Sample.ready
  = (Normal
       (corsResponse
          (JObj [ (js "success", JBool true);
                  (js "message", JStr (js "Upload confirmed!"));
                  (js "imageUrl",
                   JStr (js "https://media.s3.amazonaws.com/uploads/1700000000000-123e4567-e89b-42d3-a456-426614174000-my photo.png")) ])
          Sample.env None),
     Sample.ready).
Proof.
  assert (Hbody : upload_body (js "my photo.png") (js "image/png")
                    (JObj [ (js "filename", JStr (js "my photo.png"));
                            (js "filetype", JStr (js "image/png")) ])).
  { eexists. repeat split; [vm_compute; reflexivity .. | discriminate | discriminate]. }
  destruct (@issued_key_is_confirmed Sample.world1
              (Sample.upload "my photo.png" "image/png") Sample.env Sample.ready
              _ (js "my photo.png") (js "image/png")
              (js "uploads/1700000000000-123e4567-e89b-42d3-a456-426614174000-my photo.png")
              eq_refl Hbody eq_refl) as (_ & _ & Hconfirm).
  - vm_compute. reflexivity.
  - exact (Hconfirm
             (Sample.confirm
                (js "uploads/1700000000000-123e4567-e89b-42d3-a456-426614174000-my photo.png"))
             Sample.env Sample.ready _ eq_refl eq_refl).
Defined.

(* ================================================================= *)
(** ** The confirmation *)

(** C4: a key read off a parsed body is accepted by the Validator, that is
    answered 200, exactly when it is truthy, can be converted to a string,
    and that string matches the pattern; and for every key that is accepted
    the answer carries [success: true], the message [Upload confirmed!] and
    an [imageUrl] that is exactly [https://], the configured bucket,
    [.s3.amazonaws.com/] and the key (the string it converts to, which is the
    key itself when the key is a string); the module state is left as it
    was. *)
Theorem confirmation_url_is_bucket_and_key
  (request : Request) (env : Env) (m : machine)
  (props : list (jsstring * json)) (key : json) (bucket : jsstring) :
  json_body request = Normal (JObj props) ->
  lookup (js "key") props = Some key ->
  AWS_S3_BUCKET env = Some bucket ->
  exists resp m',
    handleConfirmUpload request env m = (Normal resp, m')
    /\ (status resp = 200 <->
        ToBoolean (Some key) = true
        /\ exists text,
             json_ToString key = Normal text
             /\ RegExp_test_anchored key_pattern text = true)
    /\ (status resp = 200 ->
        m' = m
        /\ exists text,
             json_ToString key = Normal text
             /\ (forall k, key = JStr k -> text = k)
             /\ field resp (js "success") = Some (JBool true)
             /\ field resp (js "message") = Some (JStr (js "Upload confirmed!"))
             /\ field resp (js "imageUrl")
                = Some (JStr (js "https://" ++ bucket ++ js ".s3.amazonaws.com/"
                                ++ text))).
Proof.
  intros Hj Hk Hb.
  assert (Hnn : JObj props <> JNull) by discriminate.
  rewrite (@validator_parsed request env m _ Hj Hnn). cbn [key_of]. rewrite Hk.
  cbn [ToString].
  destruct (ToBoolean (Some key)); cbn [negb].
  2:{ eexists; eexists. split; [reflexivity |].
      split; [split; [discriminate | intros [H _]; discriminate] | discriminate]. }
  destruct (json_ToString key) as [text|e] eqn:Hs.
  2:{ eexists; eexists. split; [reflexivity |].
      split; [split; [discriminate | intros (_ & t & H & _); discriminate]
             | discriminate]. }
  destruct (RegExp_test_anchored key_pattern text) eqn:Hm; cbn [negb].
  - eexists; eexists. split; [reflexivity |]. split.
    + split; [intros _ | reflexivity]. split; [reflexivity |]. now exists text.
    + intros _. split; [reflexivity |]. exists text. split; [reflexivity |].
      split.
      * intros k ->. cbn in Hs. now injection Hs as <-.
      * unfold confirmation. rewrite Hb. repeat split.
  - eexists; eexists. split; [reflexivity |]. split.
    + split; [discriminate |]. intros (_ & t & Ht & Hmt).
      injection Ht as <-. congruence.
    + discriminate.
Qed.

Lemma confirmation_url_is_bucket_and_key_witness :
  exists resp,
    handleConfirmUpload (Sample.confirm (js "uploads/42-abc-cat.png"))
      Sample.env Sample.ready = (Normal resp, Sample.ready)
    /\ field resp (js "imageUrl")
       = Some (JStr (js "https://media.s3.amazonaws.com/uploads/42-abc-cat.png")).
Proof.
  destruct (@confirmation_url_is_bucket_and_key
              (Sample.confirm (js "uploads/42-abc-cat.png")) Sample.env Sample.ready
              _ (JStr (js "uploads/42-abc-cat.png")) (js "media")
              eq_refl eq_refl eq_refl)
    as (resp & m' & Hrun & Hiff & Hacc).
  assert (Hst : status resp = 200).
  { apply Hiff. split; [reflexivity |]. eexists. split; reflexivity. }
  destruct (Hacc Hst) as (-> & text & _ & Htext & _ & _ & Hurl).
  exists resp. split; [exact Hrun |].
  rewrite Hurl, (Htext _ eq_refl). reflexivity.
Defined.

(* ================================================================= *)
(** ** Missing parameters, missing credentials *)

(** C5 (as stated, refuted): while [s3Client] is still [null] a request
    with an empty [filename] and no [filetype] is answered 500, not 400: the
    handler tests the client before it reads the body. *)
Lemma missing_params_without_client_is_500 :
  lacks_upload_params (JObj [ (js "filename", JStr []) ])
  /\ exists resp,
       fst (handleUploadUrl Sample.world1
              (Sample.post "/get-upload-url"
                 (Normal (JObj [ (js "filename", JStr []) ])))
              Sample.env_no_region boot) = Normal resp
       /\ status resp = 500
       /\ field resp (js "error") = Some (JStr (js "Failed to generate upload URL")).
Proof.
  split.
  - exists (Some (JStr [])), None. split; [split; reflexivity | now left].
  - eexists. split; [vm_compute; reflexivity |]. split; reflexivity.
Qed.

(** C5 (amended): for every Issuer request whose parsed body lacks
    [filename] or [filetype] (absent, or falsy such as the empty string; a
    body that is no object lacks both), no storage-backend call is made
    whatever the state. When the storage client has been initialised and
    the body is not [null] the answer is 400 with the body
    [{error: "Missing required parameters: filename and filetype"}] and the
    machine is left untouched. When the body is [null] the answer is 500,
    reading a property off [null] having thrown; and while the storage client
    is not initialised the answer is the 500 of the missing client. *)
Theorem missing_params_answer_400_without_backend_call
  (w : platform) (request : Request) (env : Env) (m : machine) (b : json) :
  json_body request = Normal b ->
  lacks_upload_params b ->
  (forall s3,
     s3Client m = Some s3 -> b <> JNull ->
     handleUploadUrl w request env m
     = (Normal
          {| status := 400;
             headers :=
               [ (js "Content-Type", js "application/json");
                 (js "Access-Control-Allow-Origin", or_else (ALLOWED_ORIGIN env) (js "*"));
                 (js "Cache-Control", js "no-store") ];
             body :=
               Json (JObj [ (js "error",
                             JStr (js "Missing required parameters: filename and filetype")) ]) |},
        m))
  /\ (forall s3,
        s3Client m = Some s3 -> b = JNull ->
        exists resp m',
          handleUploadUrl w request env m = (Normal resp, m')
          /\ status resp = 500
          /\ body resp
             = Json (JObj [ (js "error", JStr (js "Failed to generate upload URL"));
                            (js "details",
                             JStr (js "Cannot destructure property 'filename' of 'body' as it is null.")) ]))
  /\ (s3Client m = None ->
      exists resp m',
        handleUploadUrl w request env m = (Normal resp, m')
        /\ status resp = 500
        /\ body resp
           = Json (JObj [ (js "error", JStr (js "Failed to generate upload URL"));
                          (js "details",
                           JStr (js "S3 client could not be initialized. Check AWS credentials.")) ]))
  /\ exists extra,
       snd (handleUploadUrl w request env m)
       = {| s3Client := s3Client m; trace := trace m ++ extra |}
       /\ forallb (fun e => negb (is_storage_event e)) extra = true.
Proof.
  intros Hj Hb. split; [| split; [| split]].
  - intros s3 Hc Hnn.
    now rewrite (@issuer_missing_params w request env m s3 b Hc Hj Hnn Hb).
  - intros s3 Hc ->. run_handler. rewrite Hc, Hj.
    eexists; eexists. split; [reflexivity |]. split; reflexivity.
  - intros Hc. rewrite (@issuer_without_client w request env m Hc).
    eexists; eexists. split; [reflexivity |]. split; reflexivity.
  - destruct (s3Client m) as [s3|] eqn:Hc.
    + destruct (json_eq_null b) as [-> | Hnn].
      * destruct (@issuer_null_body w request env m s3 Hc Hj) as (e & ->).
        eexists. cbn [snd]. unfold logged. rewrite Hc. split; reflexivity.
      * rewrite (@issuer_missing_params w request env m s3 b Hc Hj Hnn Hb).
        exists []. cbn [snd]. rewrite app_nil_r, <- Hc, machine_eta. now split.
    + rewrite (@issuer_without_client w request env m Hc).
      eexists. cbn [snd]. unfold logged. rewrite Hc. split; reflexivity.
Qed.

Lemma missing_params_answer_400_without_backend_call_witness :
  exists resp,
    handleUploadUrl Sample.world1
      (Sample.post "/get-upload-url" (Normal (JObj [ (js "filename", JStr []) ])))
      Sample.env Sample.ready
    = (Normal resp, Sample.ready)
    /\ status resp = 400.
Proof.
  assert (Hb : lacks_upload_params (JObj [ (js "filename", JStr []) ])).
  { exists (Some (JStr [])), None. split; [split; reflexivity | now left]. }
  destruct (@missing_params_answer_400_without_backend_call Sample.world1
              (Sample.post "/get-upload-url" (Normal (JObj [ (js "filename", JStr []) ])))
              Sample.env Sample.ready _ eq_refl Hb) as [H400 _].
  eexists. split; [refine (H400 _ eq_refl _); discriminate | reflexivity].
Defined.

(** With incomplete credentials [fetch] leaves a [null] client [null]. *)
Lemma fetch_without_credentials (w : platform) (request : Request) (env : Env)
  (m : machine) :
  credentials_missing env -> s3Client m = None ->
  exists resp extra,
    fetch w request env m
    = (Normal resp, {| s3Client := None; trace := trace m ++ extra |})
    /\ quiet extra = true
    /\ (is_issuer_request request = true ->
        resp = corsResponse
                 (failure_body (js "Failed to generate upload URL") init_error)
                 env (Some 500)).
Proof.
  intros Hmiss Hc. unfold fetch, is_issuer_request.
  destruct (str_eqb (method request) (js "OPTIONS")) eqn:Hopt.
  { apply str_eqb_eq in Hopt. rewrite Hopt.
    eexists; exists []. rewrite app_nil_r, <- Hc, machine_eta.
    split; [reflexivity |]. split; [reflexivity |].
    rewrite andb_comm. discriminate. }
  assert (Hoff : negb (match s3Client m with Some _ => true | None => false end)
                 && ToBoolean (binding (AWS_ACCESS_KEY_ID env))
                 && ToBoolean (binding (AWS_SECRET_ACCESS_KEY env))
                 && ToBoolean (binding (AWS_REGION env)) = false).
  { rewrite Hc. cbn [negb andb].
    destruct Hmiss as [-> | [-> | ->]];
      rewrite ?andb_false_r; reflexivity. }
  unfold bind at 1. unfold read_s3Client. unfold bind at 1. rewrite Hoff.
  unfold ret at 1.
  destruct (str_eqb (pathname request) (js "/get-upload-url")
            && str_eqb (method request) (js "POST")).
  { rewrite (@issuer_without_client w request env m Hc).
    eexists; eexists. unfold logged. rewrite Hc.
    split; [reflexivity |]. split; [reflexivity |]. reflexivity. }
  destruct (str_eqb (pathname request) (js "/confirm-upload")
            && str_eqb (method request) (js "POST")).
  { destruct (validator_outcome request env m) as (resp & extra & -> & Hq & _).
    rewrite Hc. exists resp, extra. split; [reflexivity |].
    split; [exact Hq | discriminate]. }
  eexists; exists []. rewrite app_nil_r, <- Hc, machine_eta.
  split; [reflexivity |]. split; [reflexivity | discriminate].
Qed.

Lemma serve_without_credentials (env : Env) (arrivals : list (platform * Request))
  (m : machine) :
  credentials_missing env -> s3Client m = None ->
  exists extra,
    snd (serve env arrivals m) = {| s3Client := None; trace := trace m ++ extra |}
    /\ quiet extra = true
    /\ Forall2
         (fun a r =>
            is_issuer_request (snd a) = true ->
            r = Normal (corsResponse
                          (failure_body (js "Failed to generate upload URL") init_error)
                          env (Some 500)))
         arrivals (fst (serve env arrivals m)).
Proof.
  intros Hmiss. revert m.
  induction arrivals as [|[w request] rest IH]; intros m Hc; cbn [serve].
  - exists []. cbn [fst snd]. rewrite app_nil_r, <- Hc, machine_eta.
    repeat split. constructor.
  - destruct (@fetch_without_credentials w request env m Hmiss Hc)
      as (resp & extra1 & -> & Hq1 & Hresp).
    destruct (IH {| s3Client := None; trace := trace m ++ extra1 |} eq_refl)
      as (extra2 & Hsnd & Hq2 & Hall).
    destruct (serve env rest {| s3Client := None; trace := trace m ++ extra1 |})
      as [rs m2].
    cbn [fst snd trace] in *. exists (extra1 ++ extra2).
    split; [rewrite Hsnd, app_assoc; reflexivity |]. split.
    + unfold quiet in *. rewrite forallb_app, Hq1, Hq2. reflexivity.
    + constructor; [| exact Hall]. cbn [snd]. intros Hi. now rewrite Hresp.
Qed.

(** C6: if the access key, the secret key or the region is absent, then
    over the whole life of the worker, whatever requests arrive, the storage
    client is never constructed, the backend is never called, and every
    request to the Issuer is answered 500 with an [error] and a [details]
    field. *)
Theorem issuer_disabled_without_credentials
  (env : Env) (arrivals : list (platform * Request)) :
  credentials_missing env ->
  s3Client (snd (serve env arrivals boot)) = None
  /\ forallb (fun e => negb (is_storage_event e))
       (trace (snd (serve env arrivals boot))) = true
  /\ Forall2
       (fun a r =>
          is_issuer_request (snd a) = true ->
          exists resp,
            r = Normal resp
            /\ status resp = 500
            /\ field resp (js "error") = Some (JStr (js "Failed to generate upload URL"))
            /\ field resp (js "details")
               = Some (JStr (js "S3 client could not be initialized. Check AWS credentials.")))
       arrivals (fst (serve env arrivals boot)).
Proof.
  intros Hmiss.
  destruct (@serve_without_credentials env arrivals boot Hmiss eq_refl)
    as (extra & Hsnd & Hq & Hall).
  rewrite Hsnd. cbn [s3Client trace boot app]. split; [reflexivity |].
  split; [exact Hq |].
  revert Hall. apply Forall2_impl. intros a r Himp Hi.
  rewrite (Himp Hi). eexists. split; [reflexivity |]. repeat split.
Qed.

Lemma issuer_disabled_without_credentials_witness :
  s3Client
    (snd (serve Sample.env_no_region
            [ (Sample.world1, Sample.upload "cat.png" "image/png");
              (Sample.world2, Sample.confirm (js "uploads/1-a-b"));
              (Sample.world2, Sample.upload "dog.png" "image/png") ]
            boot)) = None.
Proof.
  refine (proj1 (@issuer_disabled_without_credentials Sample.env_no_region _ _)).
  right. right. reflexivity.
Defined.

(* ================================================================= *)
(** ** Uniqueness of keys *)

(** C7: two invocations of the Issuer whose draws of timestamp and UUID
    differ return different keys, whatever the file names, the bindings and
    the states they ran in. *)
Theorem issued_keys_are_distinct
  (w1 w2 : platform) (r1 r2 : Request) (env1 env2 : Env) (m1 m2 : machine)
  (k1 k2 : jsstring) :
  (Date_now w1, crypto_randomUUID w1) <> (Date_now w2, crypto_randomUUID w2) ->
  issued_key (fst (handleUploadUrl w1 r1 env1 m1)) = Some k1 ->
  issued_key (fst (handleUploadUrl w2 r2 env2 m2)) = Some k2 ->
  k1 <> k2.
Proof.
  intros Hdraw H1 H2 E.
  apply issued_key_template in H1 as (f1 & ->).
  apply issued_key_template in H2 as (f2 & ->).
  apply key_template_inj in E as (Hz & Hu & _);
    [| apply crypto_randomUUID_shape | apply crypto_randomUUID_shape].
  apply N2Z.inj in Hz. apply Hdraw. now rewrite Hz, Hu.
Qed.

Lemma issued_keys_are_distinct_witness :
  js "uploads/1700000000000-123e4567-e89b-42d3-a456-426614174000-cat.png"
  <> js "uploads/1700000000000-9b2f0c1e-7d4a-4f6b-8c3d-0a1b2c3d4e5f-cat.png".
Proof.
  apply (@issued_keys_are_distinct Sample.world1 Sample.world2
           (Sample.upload "cat.png" "image/png") (Sample.upload "cat.png" "image/png")
           Sample.env Sample.env Sample.ready Sample.ready).
  - vm_compute. discriminate.
  - vm_compute. reflexivity.
  - vm_compute. reflexivity.
Defined.

(* ================================================================= *)
(** ** The Validator keeps to itself *)

(** A key shorter than [uploads/], one digit, a hyphen, a UUID and a hyphen
    is no key of the Issuer. *)
Lemma short_key_never_issued (k : jsstring) :
  (List.length k < 47)%nat ->
  forall w request env m,
    issued_key (fst (handleUploadUrl w request env m)) <> Some k.
Proof.
  intros Hshort w request env m Hk.
  apply issued_key_template in Hk as (fname & Hk).
  destruct (is_uuid_shape _ (crypto_randomUUID_shape w)) as (Hlen & _).
  destruct (Number_toString_shape (Z.of_N (Date_now w))) as (d & Hd & _ & E).
  apply (f_equal (@List.length _)) in Hk.
  unfold key_template in Hk. rewrite !length_app, Hlen, E in Hk.
  assert (1 <= List.length d)%nat by (destruct d; [congruence | cbn; lia]).
  destruct (Z.of_N (Date_now w) <? 0)%Z; rewrite ?length_app in Hk;
    change (List.length (js "uploads/")) with 8%nat in Hk;
    change (List.length (js "-")) with 1%nat in Hk;
    cbn [List.length] in Hk; lia.
Qed.

(** C8 (as stated, refuted): the key [uploads/7-notes.v2-final.pdf] has the
    shape the specification gives for keys, [^uploads/\d+-\S+-.*$], and no run
    of the Issuer produces it; the Validator does not accept it: whatever the
    bindings and the state it answers 400 with [Invalid key format]. *)
Lemma validator_refuses_key_of_stated_shape :
  RegExp_test_anchored spec_key_pattern (js "uploads/7-notes.v2-final.pdf") = true
  /\ (forall w request env m,
        issued_key (fst (handleUploadUrl w request env m))
        <> Some (js "uploads/7-notes.v2-final.pdf"))
  /\ forall env m,
       handleConfirmUpload (Sample.confirm (js "uploads/7-notes.v2-final.pdf")) env m
       = (Normal (corsResponse (JObj [ (js "error", JStr (js "Invalid key format")) ])
                    env (Some 400)),
          m).
Proof.
  split; [vm_compute; reflexivity |]. split.
  - apply short_key_never_issued. vm_compute. lia.
  - intros env m.
    assert (Hnn : JObj [ (js "key", JStr (js "uploads/7-notes.v2-final.pdf")) ] <> JNull)
      by discriminate.
    now rewrite (@validator_accepts_text
                   (Sample.confirm (js "uploads/7-notes.v2-final.pdf")) env m _
                   (js "uploads/7-notes.v2-final.pdf") eq_refl Hnn eq_refl eq_refl).
Qed.

(** C8 (amended): the Validator never constructs the storage client nor
    calls the backend: it leaves [s3Client] as it found it and adds no storage
    event to the trace, its only effect being the console line of the 500
    path. Two runs that are given the same key under the same bucket
    configuration give the same result, status and body, and log the same,
    whatever the rest of the two bodies, the other bindings, the module
    states, the methods and the paths; the two responses are the same
    altogether when the allowed origin is the same too. And the Validator
    accepts every string key of the shape [^uploads\/\d+-[\w-]+-.*$], in any
    state, among them [uploads/1-a-b], which the Issuer can never have
    produced. *)
Theorem validator_is_pure
  (r1 r2 : Request) (env1 env2 : Env) (m1 m2 : machine) :
  same_key r1 r2 ->
  AWS_S3_BUCKET env1 = AWS_S3_BUCKET env2 ->
  (exists resp1 resp2 extra,
     handleConfirmUpload r1 env1 m1
     = (Normal resp1, {| s3Client := s3Client m1; trace := trace m1 ++ extra |})
     /\ handleConfirmUpload r2 env2 m2
        = (Normal resp2, {| s3Client := s3Client m2; trace := trace m2 ++ extra |})
     /\ forallb (fun e => negb (is_storage_event e)) extra = true
     /\ ((status resp1 = 500 /\ exists line, extra = [ConsoleError line])
         \/ (status resp1 <> 500 /\ extra = []))
     /\ status resp1 = status resp2
     /\ body resp1 = body resp2
     /\ (ALLOWED_ORIGIN env1 = ALLOWED_ORIGIN env2 -> resp1 = resp2))
  /\ (forall props k,
        json_body r1 = Normal (JObj props) ->
        lookup (js "key") props = Some (JStr k) ->
        key_shape k ->
        handleConfirmUpload r1 env1 m1 = (Normal (confirmation env1 k), m1))
  /\ key_shape (js "uploads/1-a-b")
  /\ (forall w request env' m,
        issued_key (fst (handleUploadUrl w request env' m))
        <> Some (js "uploads/1-a-b")).
Proof.
  intros Hsame Hbucket. split; [| split; [| split]].
  - assert (Hcors : forall b st,
              status (corsResponse b env1 st) = status (corsResponse b env2 st)
              /\ body (corsResponse b env1 st) = body (corsResponse b env2 st)
              /\ (ALLOWED_ORIGIN env1 = ALLOWED_ORIGIN env2 ->
                  corsResponse b env1 st = corsResponse b env2 st)).
    { intros b st. unfold corsResponse. cbn [status body].
      repeat split. now intros ->. }
    assert (Hconf : forall text, confirmation env1 text
                                 = corsResponse
                                     (JObj [ (js "success", JBool true);
                                             (js "message", JStr (js "Upload confirmed!"));
                                             (js "imageUrl",
                                              JStr (js "https://"
                                                      ++ binding_text (AWS_S3_BUCKET env2)
                                                      ++ js ".s3.amazonaws.com/" ++ text)) ])
                                     env1 None).
    { intros text. unfold confirmation. now rewrite Hbucket. }
    assert (Hfailed : forall what e line,
              (status (corsResponse (failure_body what e) env1 (Some 500)) = 500
               /\ exists line', [ConsoleError line] = [ConsoleError line'])
              \/ (status (corsResponse (failure_body what e) env1 (Some 500)) <> 500
                  /\ [ConsoleError line] = [])).
    { intros what e line. left. split; [reflexivity | now exists line]. }
    assert (Hquiet : forall b st,
              st = Some 400 \/ st = None ->
              (status (corsResponse b env1 st) = 500
               /\ exists line, @nil event = [ConsoleError line])
              \/ (status (corsResponse b env1 st) <> 500 /\ @nil event = [])).
    { intros b st [-> | ->]; right; (split; [discriminate | reflexivity]). }
    unfold same_key in Hsame.
    destruct (json_body r1) as [b1|e1] eqn:H1, (json_body r2) as [b2|e2] eqn:H2;
      try contradiction.
    + destruct Hsame as [[-> ->] | (Hn1 & Hn2 & Hkey)].
      * run_handler. rewrite H1, H2.
        eexists; eexists; eexists. split; [reflexivity |]. split; [reflexivity |].
        split; [reflexivity |]. split; [apply Hfailed | apply Hcors].
      * rewrite (@validator_parsed r1 env1 m1 b1 H1 Hn1),
          (@validator_parsed r2 env2 m2 b2 H2 Hn2), Hkey.
        destruct (negb (ToBoolean (key_of b2))).
        { eexists; eexists; exists [].
          rewrite !app_nil_r, !machine_eta.
          split; [reflexivity |]. split; [reflexivity |].
          split; [reflexivity |]. split; [apply Hquiet; now left | apply Hcors]. }
        destruct (ToString (key_of b2)) as [text|e].
        -- eexists; eexists; exists [].
           rewrite !app_nil_r, !machine_eta.
           split; [reflexivity |]. split; [reflexivity |].
           split; [reflexivity |].
           destruct (negb (RegExp_test_anchored key_pattern text));
             [split; [apply Hquiet; now left | apply Hcors] |].
           rewrite Hconf. split; [apply Hquiet; now right | apply Hcors].
        -- eexists; eexists; eexists.
           split; [reflexivity |]. split; [reflexivity |].
           split; [reflexivity |]. split; [apply Hfailed | apply Hcors].
    + subst e2.
      rewrite (@validator_unparseable r1 env1 m1 e1 H1),
        (@validator_unparseable r2 env2 m2 e1 H2).
      eexists; eexists; eexists. split; [reflexivity |]. split; [reflexivity |].
      split; [reflexivity |]. split; [apply Hfailed | apply Hcors].
  - intros props k Hj Hk Hshape.
    now apply (@validator_accepts_shape r1 env1 m1 props k Hj Hk).
  - apply key_pattern_spec. vm_compute. reflexivity.
  - apply short_key_never_issued. vm_compute. lia.
Qed.

Lemma validator_is_pure_witness :
  exists resp1 resp2,
    fst (handleConfirmUpload (Sample.confirm (js "uploads/1-a-b")) Sample.env Sample.ready)
    = Normal resp1
    /\ fst (handleConfirmUpload
              {| method := js "PUT"; pathname := js "/elsewhere";
                 json_body := Normal (JObj [ (js "note", JStr (js "second try"));
                                             (js "key", JStr (js "uploads/1-a-b")) ]) |}
              {| AWS_ACCESS_KEY_ID := None; AWS_SECRET_ACCESS_KEY := None;
                 AWS_REGION := None; AWS_S3_BUCKET := Some (js "media");
                 ALLOWED_ORIGIN := Some (js "https://app.example") |}
              boot)
       = Normal resp2
    /\ status resp1 = status resp2
    /\ body resp1 = body resp2.
Proof.
  destruct (@validator_is_pure
              (Sample.confirm (js "uploads/1-a-b"))
              {| method := js "PUT"; pathname := js "/elsewhere";
                 json_body := Normal (JObj [ (js "note", JStr (js "second try"));
                                             (js "key", JStr (js "uploads/1-a-b")) ]) |}
              Sample.env
              {| AWS_ACCESS_KEY_ID := None; AWS_SECRET_ACCESS_KEY := None;
                 AWS_REGION := None; AWS_S3_BUCKET := Some (js "media");
                 ALLOWED_ORIGIN := Some (js "https://app.example") |}
              Sample.ready boot)
    as ((resp1 & resp2 & extra & H1 & H2 & _ & _ & Hst & Hbody & _) & _).
  - right. repeat split; discriminate.
  - reflexivity.
  - exists resp1, resp2. rewrite H1, H2. repeat split; assumption.
Defined.

(* ================================================================= *)
(** ** Headers *)

Lemma corsResponse_headers (b : json) (env : Env) (st : option N) :
  carries_cors_headers env (corsResponse b env st).
Proof.
  unfold carries_cors_headers, corsResponse, header. cbn [headers status find].
  repeat split.
  unfold or_else, allowed_origin, binding.
  destruct (ALLOWED_ORIGIN env) as [o|]; cbn; [| reflexivity].
  destruct (str_eqb o []); reflexivity.
Qed.

(** C9: every response of the two handlers is a JSON response that carries
    [Access-Control-Allow-Origin] set to the configured origin, [*] when none
    is configured, and [Cache-Control] set to [private, no-cache] when the
    status is 200 and to [no-store] otherwise. *)
Theorem responses_carry_cors_and_cache_headers
  (w : platform) (request : Request) (env : Env) (m : machine) :
  (exists resp m',
     handleUploadUrl w request env m = (Normal resp, m')
     /\ carries_cors_headers env resp)
  /\ (exists resp m',
        handleConfirmUpload request env m = (Normal resp, m')
        /\ carries_cors_headers env resp).
Proof.
  split.
  - destruct (issuer_outcome w request env m)
      as (resp & extra & Hrun & [(e & ->) | [-> | (url & fname & ->)]]);
      eexists; eexists; (split; [exact Hrun | apply corsResponse_headers]).
  - destruct (validator_outcome request env m)
      as (resp & extra & Hrun & _ & b & st & ->).
    eexists; eexists. split; [exact Hrun | apply corsResponse_headers].
Qed.

(* ================================================================= *)
(** ** Bodies that cannot be read *)

(** C10 (as stated, refuted): a parsed body whose [key] is present but is
    not a usable key, here the boolean [true], is answered 400 with
    [Invalid key format], not 500. *)
Lemma present_unusable_key_is_400 :
  handleConfirmUpload
    (Sample.post "/confirm-upload" (Normal (JObj [ (js "key", JBool true) ])))
    Sample.env Sample.ready
  = (Normal (corsResponse (JObj [ (js "error", JStr (js "Invalid key format")) ])
               Sample.env (Some 400)),
     Sample.ready).
Proof. vm_compute. reflexivity. Qed.

Lemma unrenderable_is_truthy (v : value) :
  value_unrenderable v = true -> ToBoolean v = true.
Proof. destruct v as [[| | | | |]|]; cbn; congruence. Qed.

(** C10 (amended): for every request to either endpoint whose body is not
    parseable JSON, or parses to [null] so that reading a property off it
    throws, the handler answers 500 with an [error] and a [details] field,
    the latter being the message of the error caught by the generic branch;
    it never answers 400. On a parsed body other than [null] the Validator
    gives that 500 in one case only, when the [key] cannot be converted to a
    string (an object with an own [toString] property, or an array holding
    one): the conversion throws inside the pattern test. A key that is
    unusable for another reason is answered 400: with
    [Missing required parameter: key] when it is falsy, with
    [Invalid key format] when it is truthy and the string it converts to
    does not match the pattern. *)
Theorem unreadable_body_answers_500
  (w : platform) (request : Request) (env : Env) (m : machine) :
  (body_unreadable request ->
   (exists resp m' details,
      handleUploadUrl w request env m = (Normal resp, m')
      /\ status resp = 500
      /\ body resp = Json (JObj [ (js "error", JStr (js "Failed to generate upload URL"));
                                  (js "details", JStr details) ]))
   /\ (exists resp m' details,
         handleConfirmUpload request env m = (Normal resp, m')
         /\ status resp = 500
         /\ body resp = Json (JObj [ (js "error", JStr (js "Failed to confirm upload"));
                                     (js "details", JStr details) ])
         /\ forall e, json_body request = Throw e -> details = message e))
  /\ (forall b,
        json_body request = Normal b -> b <> JNull ->
        exists resp m',
          handleConfirmUpload request env m = (Normal resp, m')
          /\ (status resp = 500 <-> value_unrenderable (key_of b) = true)
          /\ (status resp = 500 ->
              body resp
              = Json (JObj [ (js "error", JStr (js "Failed to confirm upload"));
                             (js "details",
                              JStr (js "Cannot convert object to primitive value")) ]))
          /\ (ToBoolean (key_of b) = false ->
              resp = corsResponse
                       (JObj [ (js "error", JStr (js "Missing required parameter: key")) ])
                       env (Some 400))
          /\ (forall text,
                ToBoolean (key_of b) = true ->
                ToString (key_of b) = Normal text ->
                RegExp_test_anchored key_pattern text = false ->
                resp = corsResponse
                         (JObj [ (js "error", JStr (js "Invalid key format")) ])
                         env (Some 400))).
Proof.
  split.
  - intros Hbody. split.
    + destruct (s3Client m) as [s3|] eqn:Hc.
      * destruct Hbody as [(e & He) | Hnull].
        -- rewrite (@issuer_unparseable w request env m s3 e Hc He).
           eexists; eexists; eexists. repeat split.
        -- destruct (@issuer_null_body w request env m s3 Hc Hnull) as (e & ->).
           eexists; eexists; eexists. repeat split.
      * rewrite (@issuer_without_client w request env m Hc).
        eexists; eexists; eexists. repeat split.
    + destruct Hbody as [(e & He) | Hnull].
      * rewrite (@validator_unparseable request env m e He).
        eexists; eexists; eexists. repeat split.
        intros e' He'. congruence.
      * destruct (@validator_null_body request env m Hnull) as (e & ->).
        eexists; eexists; eexists. repeat split.
        intros e' He'. congruence.
  - intros b Hj Hb. rewrite (@validator_parsed request env m b Hj Hb).
    pose proof (@unrenderable_is_truthy (key_of b)) as Htruthy.
    pose proof (ToString_renders (key_of b)) as Hrender.
    destruct (ToBoolean (key_of b)); cbn [negb].
    2:{ eexists; eexists. split; [reflexivity |].
        split; [split; [discriminate | intros H; specialize (Htruthy H); discriminate] |].
        split; [discriminate |]. split; [reflexivity | discriminate]. }
    destruct (value_unrenderable (key_of b)).
    + rewrite Hrender. eexists; eexists. split; [reflexivity |].
      split; [split; reflexivity |]. split; [reflexivity |].
      split; discriminate.
    + destruct Hrender as (s & ->). eexists; eexists. split; [reflexivity |].
      destruct (RegExp_test_anchored key_pattern s) eqn:Hm; cbn [negb].
      * split; [split; discriminate |]. split; [discriminate |].
        split; [discriminate |]. intros text _ E. injection E as <-. congruence.
      * split; [split; discriminate |]. split; [discriminate |].
        split; [discriminate |]. reflexivity.
Qed.

Lemma unreadable_body_answers_500_witness :
  exists resp m',
    handleConfirmUpload (Sample.post "/confirm-upload" Sample.bad_json)
      Sample.env Sample.ready = (Normal resp, m')
    /\ status resp = 500
    /\ field resp (js "details")
       = Some (JStr (js "Unexpected token o in JSON at position 1")).
Proof.
  destruct (proj1 (@unreadable_body_answers_500 Sample.world1
                     (Sample.post "/confirm-upload" Sample.bad_json)
                     Sample.env Sample.ready))
    as (_ & resp & m' & details & Hrun & Hst & Hbody & Hdet).
  - left. eexists. reflexivity.
  - exists resp, m'. split; [exact Hrun |]. split; [exact Hst |].
    unfold field. rewrite Hbody. rewrite (Hdet _ eq_refl). reflexivity.
Defined.

(* ================================================================= *)
(** ** Further properties of the worker *)

(** *** What the Issuer adds to the trace *)

Lemma quiet_app (a b : list event) : quiet (a ++ b) = quiet a && quiet b.
Proof. unfold quiet. apply forallb_app. Qed.

(** A run of the Issuer adds console lines only, or one signing through the
    current client followed by console lines only. *)
Lemma issuer_trace (w : platform) (request : Request) (env : Env) (m : machine) :
  exists resp extra,
    handleUploadUrl w request env m
    = (Normal resp, {| s3Client := s3Client m; trace := trace m ++ extra |})
    /\ (quiet extra = true
        \/ exists s3 filename filetype rest,
             s3Client m = Some s3
             /\ extra = GetSignedUrl s3 (sign_command w env filename filetype) 3600 :: rest
             /\ quiet rest = true).
Proof.
  run_handler.
  destruct (s3Client m) as [s3|] eqn:Hc.
  2:{ cbn beta iota; rewrite ?Hc.
      eexists; eexists; split; [reflexivity |]. left. reflexivity. }
  destruct (json_body request) as [b|e].
  2:{ cbn beta iota; rewrite ?Hc.
      eexists; eexists; split; [reflexivity |]. left. reflexivity. }
  assert (Hnone :
    forall r : Response,
    exists resp extra,
      (Normal r, m)
      = (Normal resp, {| s3Client := Some s3; trace := trace m ++ extra |})
      /\ (quiet extra = true
          \/ exists s3' filename filetype rest,
               Some s3 = Some s3'
               /\ extra = GetSignedUrl s3' (sign_command w env filename filetype) 3600 :: rest
               /\ quiet rest = true)).
  { intros r. exists r, []. rewrite app_nil_r, <- Hc, machine_eta.
    split; [reflexivity |]. left. reflexivity. }
  destruct b as [| | | | |props]; cbn beta iota; try apply Hnone.
  { rewrite ?Hc.
    eexists; eexists; split; [reflexivity |]. left. reflexivity. }
  destruct (negb (ToBoolean (lookup (js "filename") props))
            || negb (ToBoolean (lookup (js "filetype") props))); [apply Hnone |].
  destruct (lookup (js "filename") props) as [[| | |fname| |]|];
    try (cbn beta iota; rewrite ?Hc;
         eexists; eexists; split; [reflexivity |]; left; reflexivity).
  cbn beta iota.
  change {| Bucket := binding (AWS_S3_BUCKET env);
            Key := key_template (Z.of_N (Date_now w)) (crypto_randomUUID w)
                     (String_replace_all unsafe_filename_char (js "_") fname);
            ContentType := lookup (js "filetype") props |}
    with (sign_command w env fname (lookup (js "filetype") props)).
  destruct (presigner w s3 _ 3600) as [url|e]; cbn beta iota; rewrite ?Hc.
  - eexists; eexists; split; [reflexivity |]. right.
    exists s3, fname, (lookup (js "filetype") props), []. repeat split.
  - eexists; eexists. split.
    + cbn [trace s3Client]. rewrite <- app_assoc. reflexivity.
    + right. exists s3, fname, (lookup (js "filetype") props). eexists.
      split; [reflexivity |]. split; reflexivity.
Qed.




(** X3: when the presigner fails on a valid request, the Issuer answers 500
    with the presigner's message as [details], after exactly one backend call
    and one console line. *)
Theorem issuer_reports_signing_failure
  (w : platform) (request : Request) (env : Env) (m : machine) (s3 : S3Client)
  (b : json) (filename filetype : jsstring) (e : Error) :
  s3Client m = Some s3 ->
  json_body request = Normal b ->
  upload_body filename filetype b ->
  presigner w s3 (sign_command w env filename (Some (JStr filetype))) 3600 = Throw e ->
  handleUploadUrl w request env m
  = (Normal (corsResponse
               (JObj [ (js "error", JStr (js "Failed to generate upload URL"));
                       (js "details", JStr (message e)) ])
               env (Some 500)),
     {| s3Client := Some s3;
        trace := trace m
                 ++ [ GetSignedUrl s3 (sign_command w env filename (Some (JStr filetype))) 3600;
                      ConsoleError (js "Error generating presigned URL: "
                                      ++ Error_toString e) ] |}).
Proof.
  intros Hc Hj Hb Hsign.
  rewrite (@issuer_valid w request env m s3 b filename filetype Hc Hj Hb).
  cbv zeta. unfold sign_command in Hsign. rewrite Hsign.
  unfold logged. cbn [s3Client trace]. now rewrite <- app_assoc.
Qed.

Lemma issuer_reports_signing_failure_witness :
  exists resp m',
    handleUploadUrl Sample.world_down (Sample.upload "cat.png" "image/png")
      Sample.env Sample.ready = (Normal resp, m')
    /\ status resp = 500
    /\ field resp (js "details") = Some (JStr (js "Could not load credentials")).
Proof.
  assert (Hb : upload_body (js "cat.png") (js "image/png")
                 (JObj [ (js "filename", JStr (js "cat.png"));
                         (js "filetype", JStr (js "image/png")) ])).
  { eexists. repeat split; [vm_compute; reflexivity .. | discriminate | discriminate]. }
  eexists; eexists. split.
  - exact (@issuer_reports_signing_failure Sample.world_down
             (Sample.upload "cat.png" "image/png") Sample.env Sample.ready
             Sample.client _ _ _ _ eq_refl eq_refl Hb eq_refl).
  - split; reflexivity.
Defined.

(** *** Routing in [fetch] *)

Lemma fetch_routes (w : platform) (request : Request) (env : Env) (m : machine) :
  is_preflight request = false ->
  fetch w request env m
  = if is_issuer_request request then handleUploadUrl w request env (warmed env m)
    else if is_confirm_request request then handleConfirmUpload request env (warmed env m)
    else (Normal not_found, warmed env m).
Proof.
  unfold is_preflight, fetch, is_issuer_request, is_confirm_request, warmed,
    credentials_complete. intros ->.
  unfold bind at 1. unfold read_s3Client. unfold bind at 1.
  destruct (s3Client m) as [c|] eqn:Hc; cbn [negb andb].
  - unfold ret at 1.
    repeat match goal with |- context [if ?c then _ else _] => destruct c end;
      reflexivity.
  - rewrite <- andb_assoc.
    destruct (ToBoolean (binding (AWS_ACCESS_KEY_ID env))
              && (ToBoolean (binding (AWS_SECRET_ACCESS_KEY env))
                  && ToBoolean (binding (AWS_REGION env)))).
    + unfold bind, emit, assign_s3Client. cbn [trace s3Client].
      repeat match goal with |- context [if ?c then _ else _] => destruct c end;
        reflexivity.
    + unfold ret at 1.
      repeat match goal with |- context [if ?c then _ else _] => destruct c end;
        reflexivity.
Qed.

Lemma post_is_not_preflight (request : Request) :
  str_eqb (method request) (js "POST") = true -> is_preflight request = false.
Proof.
  unfold is_preflight. intros H. apply str_eqb_eq in H. now rewrite H.
Qed.

(** [fetch] on an [OPTIONS] request. *)
Lemma preflight_run
  (w : platform) (request : Request) (env : Env) (m : machine) :
  method request = js "OPTIONS" ->
  fetch w request env m
  = (Normal
       {| status := 200;
          headers :=
            [ (js "Access-Control-Allow-Origin", allowed_origin env);
              (js "Access-Control-Allow-Methods", js "GET, POST, OPTIONS");
              (js "Access-Control-Allow-Headers", js "Content-Type, Authorization");
              (js "Access-Control-Max-Age", js "86400");
              (js "Cache-Control", js "public, max-age=86400") ];
          body := NoBody |},
     m).
Proof.
  intros Hm. unfold fetch. rewrite Hm. cbn [str_eqb]. unfold ret, handleCORS.
  replace (or_else (ALLOWED_ORIGIN env) (js "*")) with (allowed_origin env);
    [reflexivity |].
  unfold or_else, allowed_origin, binding.
  destruct (ALLOWED_ORIGIN env) as [o|]; cbn; [| reflexivity].
  destruct (str_eqb o []); reflexivity.
Qed.

(** X4: an [OPTIONS] request is answered by [handleCORS] whatever its path:
    status 200, no body, the allowed origin and the methods, headers and
    max-age of the preflight; the module state is left as it was, so a
    preflight never constructs the storage client. *)
Theorem preflight_is_answered_without_state
  (w : platform) (request : Request) (env : Env) (m : machine) :
  method request = js "OPTIONS" ->
  fetch w request env m
  = (Normal
       {| status := 200;
          headers :=
            [ (js "Access-Control-Allow-Origin", allowed_origin env);
              (js "Access-Control-Allow-Methods", js "GET, POST, OPTIONS");
              (js "Access-Control-Allow-Headers", js "Content-Type, Authorization");
              (js "Access-Control-Max-Age", js "86400");
              (js "Cache-Control", js "public, max-age=86400") ];
          body := NoBody |},
     m).
Proof. apply preflight_run. Qed.

Lemma preflight_is_answered_without_state_witness :
  snd (fetch Sample.world1
         {| method := js "OPTIONS"; pathname := js "/get-upload-url";
            json_body := Sample.bad_json |}
         Sample.env boot) = boot.
Proof.
  rewrite (@preflight_is_answered_without_state Sample.world1
             {| method := js "OPTIONS"; pathname := js "/get-upload-url";
                json_body := Sample.bad_json |}
             Sample.env boot eq_refl).
  reflexivity.
Defined.

Lemma issuer_status (w : platform) (request : Request) (env : Env) (m : machine) :
  exists resp m',
    handleUploadUrl w request env m = (Normal resp, m')
    /\ (status resp = 200 \/ status resp = 400 \/ status resp = 500).
Proof.
  destruct (issuer_outcome w request env m)
    as (resp & extra & Hrun & [(e & ->) | [-> | (url & fname & ->)]]);
    eexists; eexists; (split; [exact Hrun |]); cbn; auto.
Qed.

Lemma validator_status (request : Request) (env : Env) (m : machine) :
  exists resp m',
    handleConfirmUpload request env m = (Normal resp, m')
    /\ (status resp = 200 \/ status resp = 400 \/ status resp = 500).
Proof.
  destruct (json_body request) as [b|e] eqn:Hj.
  - destruct (json_eq_null b) as [-> | Hb].
    + destruct (@validator_null_body request env m Hj) as (e & ->).
      eexists; eexists. split; [reflexivity |]. cbn. auto.
    + rewrite (@validator_parsed request env m b Hj Hb).
      destruct (negb (ToBoolean (key_of b)));
        [eexists; eexists; split; [reflexivity | cbn; auto] |].
      destruct (ToString (key_of b)) as [text|e];
        [destruct (negb (RegExp_test_anchored key_pattern text)) |];
        eexists; eexists; (split; [reflexivity | cbn; auto]).
  - rewrite (@validator_unparseable request env m e Hj).
    eexists; eexists. split; [reflexivity |]. cbn. auto.
Qed.

(** X5: [fetch] answers every request, never throwing, with one of the
    statuses 200, 400, 404 and 500; 404 is the answer exactly to the requests
    that are neither a preflight nor a [POST] to one of the two paths: the
    text [Not found], with the content type a text body is given and no CORS
    header. *)
Theorem fetch_answers_with_four_statuses
  (w : platform) (request : Request) (env : Env) (m : machine) :
  exists resp m',
    fetch w request env m = (Normal resp, m')
    /\ (status resp = 200 \/ status resp = 400 \/ status resp = 404
        \/ status resp = 500)
    /\ (status resp = 404 <->
        is_preflight request = false /\ is_issuer_request request = false
        /\ is_confirm_request request = false)
    /\ (status resp = 404 ->
        resp = not_found
        /\ header resp (js "Content-Type") = Some (js "text/plain;charset=UTF-8")
        /\ header resp (js "Access-Control-Allow-Origin") = None).
Proof.
  destruct (is_preflight request) eqn:Hp.
  - unfold is_preflight in Hp. apply str_eqb_eq in Hp.
    rewrite (@preflight_run w request env m Hp).
    eexists; eexists. split; [reflexivity |]. cbn [status].
    split; [auto |]. split; [| discriminate].
    split; [discriminate | intros [H _]; discriminate].
  - rewrite (@fetch_routes w request env m Hp).
    destruct (is_issuer_request request).
    { destruct (issuer_status w request env (warmed env m))
        as (resp & m' & -> & Hst).
      exists resp, m'. split; [reflexivity |].
      split; [intuition |]. split.
      - split; [intros H4; rewrite H4 in Hst; intuition discriminate
               | intros (_ & H & _); discriminate].
      - intros H4. rewrite H4 in Hst. intuition discriminate. }
    destruct (is_confirm_request request).
    { destruct (validator_status request env (warmed env m))
        as (resp & m' & -> & Hst).
      exists resp, m'. split; [reflexivity |].
      split; [intuition |]. split.
      - split; [intros H4; rewrite H4 in Hst; intuition discriminate
               | intros (_ & _ & H); discriminate].
      - intros H4. rewrite H4 in Hst. intuition discriminate. }
    eexists; eexists. split; [reflexivity |]. cbn [status not_found].
    split; [auto |]. split; [split; auto |]. intros _. repeat split.
Qed.

(** *** The life of the storage client *)

Lemma quiet_after (c : S3Client) (l : list event) :
  quiet l = true ->
  forallb (fun e => negb (is_new_client e)) l = true
  /\ Forall (fun e => forall c', signed_with e = Some c' -> c' = c) l.
Proof.
  induction l as [|x l IH]; cbn; [split; [reflexivity | constructor] |].
  intros H. apply andb_true_iff in H as [Hx Hl]. destruct (IH Hl) as [IH1 IH2].
  destruct x; try discriminate. cbn. split; [exact IH1 |].
  constructor; [discriminate | exact IH2].
Qed.

Lemma one_client_extended (m : machine) (extra : list event) :
  one_client m ->
  (quiet extra = true
   \/ exists s3 cmd n rest,
        s3Client m = Some s3 /\ extra = GetSignedUrl s3 cmd n :: rest
        /\ quiet rest = true) ->
  one_client {| s3Client := s3Client m; trace := trace m ++ extra |}.
Proof.
  unfold one_client. cbn [s3Client trace].
  destruct (s3Client m) as [c|] eqn:Hc.
  - intros (before & after & Ht & Hb & Hn & Hs) Hextra.
    exists before, (after ++ extra). rewrite Ht, <- app_assoc. cbn [app].
    split; [reflexivity |]. split; [exact Hb |].
    rewrite forallb_app, Hn. rewrite Forall_app.
    destruct Hextra as [Hq | (s3 & cmd & n & rest & Hs3 & -> & Hq)].
    + destruct (quiet_after c _ Hq) as [Q1 Q2]. rewrite Q1.
      split; [reflexivity | split; assumption].
    + destruct (quiet_after c _ Hq) as [Q1 Q2]. cbn. rewrite Q1.
      split; [reflexivity |]. split; [exact Hs |].
      constructor; [| exact Q2]. cbn. intros c' E. congruence.
  - intros Hq [Hextra | (s3 & _ & _ & _ & Hs3 & _)]; [| discriminate].
    now rewrite quiet_app, Hq, Hextra.
Qed.

Lemma one_client_warmed (env : Env) (m : machine) :
  one_client m -> one_client (warmed env m).
Proof.
  unfold warmed. destruct (s3Client m) as [c|] eqn:Hc; [trivial |].
  destruct (credentials_complete env); [| trivial].
  unfold one_client. rewrite Hc. cbn [s3Client trace]. intros Hq.
  exists (trace m), []. repeat split; [exact Hq | constructor].
Qed.

(** [fetch] keeps the state in order, under any bindings. *)
Lemma fetch_keeps_one_client (w : platform) (request : Request) (env : Env)
  (m : machine) :
  one_client m -> one_client (snd (fetch w request env m)).
Proof.
  intros Hinv. destruct (is_preflight request) eqn:Hp.
  - unfold is_preflight in Hp. apply str_eqb_eq in Hp.
    unfold fetch. rewrite Hp. exact Hinv.
  - rewrite (@fetch_routes w request env m Hp).
    apply (one_client_warmed env) in Hinv.
    destruct (is_issuer_request request).
    { destruct (issuer_trace w request env (warmed env m))
        as (resp & extra & -> & Hextra). cbn [snd].
      apply one_client_extended; [exact Hinv |].
      destruct Hextra as [Hq | (s3 & fn & ft & rest & Hc & -> & Hq)];
        [now left | right]. now exists s3, (sign_command w env fn ft), 3600, rest. }
    destruct (is_confirm_request request).
    { destruct (validator_outcome request env (warmed env m))
        as (resp & extra & -> & Hq & _). cbn [snd].
      apply one_client_extended; [exact Hinv | now left]. }
    exact Hinv.
Qed.

Lemma serve_keeps_one_client (env : Env) (arrivals : list (platform * Request))
  (m : machine) :
  one_client m -> one_client (snd (serve env arrivals m)).
Proof.
  revert m. induction arrivals as [|[w request] rest IH]; intros m Hinv;
    cbn [serve]; [exact Hinv |].
  pose proof (@fetch_keeps_one_client w request env m Hinv) as H1.
  destruct (fetch w request env m) as [r m1]. cbn [snd] in H1.
  specialize (IH m1 H1). destruct (serve env rest m1) as [rs m2]. exact IH.
Qed.

Lemma new_clients_quiet (l : list event) :
  quiet l = true -> filter is_new_client l = [].
Proof.
  induction l as [|x l IH]; cbn; [reflexivity |].
  intros H. apply andb_true_iff in H as [Hx Hl]. destruct x; try discriminate.
  cbn. now apply IH.
Qed.

Lemma new_clients_none (l : list event) :
  forallb (fun e => negb (is_new_client e)) l = true -> filter is_new_client l = [].
Proof.
  induction l as [|x l IH]; cbn; [reflexivity |].
  intros H. apply andb_true_iff in H as [Hx Hl].
  destruct (is_new_client x); [discriminate | now apply IH].
Qed.

Lemma quiet_signs_nothing (l : list event) (e : event) (c : S3Client) :
  quiet l = true -> In e l -> signed_with e = Some c -> False.
Proof.
  unfold quiet. rewrite forallb_forall. intros Hq Hin Hs.
  specialize (Hq e Hin). destruct e; discriminate.
Qed.

(** X6: over the whole life of the worker, from a freshly loaded module and
    whatever the bindings and the requests, the storage client is constructed
    at most once, and every call of the presigner goes through the client
    that was constructed, which is the one the module still holds. *)
Theorem client_is_built_once_and_reused
  (env : Env) (arrivals : list (platform * Request)) :
  let final := snd (serve env arrivals boot) in
  (List.length (filter is_new_client (trace final)) <= 1)%nat
  /\ forall e c,
       In e (trace final) -> signed_with e = Some c ->
       s3Client final = Some c /\ In (NewS3Client c) (trace final).
Proof.
  intros final.
  assert (Hinv : one_client final)
    by (apply serve_keeps_one_client; reflexivity).
  unfold one_client in Hinv. destruct (s3Client final) as [c|].
  - destruct Hinv as (before & after & -> & Hb & Hn & Hs). split.
    + rewrite filter_app. cbn [filter is_new_client].
      rewrite (new_clients_quiet _ Hb), (new_clients_none _ Hn). cbn. lia.
    + intros e c' Hin Hsig. apply in_app_or in Hin as [Hin | [<- | Hin]].
      * destruct (quiet_signs_nothing _ _ Hb Hin Hsig).
      * discriminate.
      * rewrite Forall_forall in Hs. rewrite (Hs e Hin c' Hsig).
        split; [reflexivity |]. apply in_or_app. right. now left.
  - split.
    + rewrite (new_clients_quiet _ Hinv). cbn. lia.
    + intros e c Hin Hsig. destruct (quiet_signs_nothing _ _ Hinv Hin Hsig).
Qed.

(** X7: once the module holds a storage client, [fetch] keeps that very
    client, whatever bindings later requests come with: changed credentials
    are not picked up. *)
Theorem client_is_never_replaced
  (w : platform) (request : Request) (env : Env) (m : machine) (c : S3Client) :
  s3Client m = Some c ->
  s3Client (snd (fetch w request env m)) = Some c
  /\ filter is_new_client (trace (snd (fetch w request env m)))
     = filter is_new_client (trace m).
Proof.
  intros Hc. destruct (is_preflight request) eqn:Hp.
  - unfold is_preflight in Hp. apply str_eqb_eq in Hp.
    unfold fetch. rewrite Hp. cbn. now split.
  - rewrite (@fetch_routes w request env m Hp).
    assert (Hw : warmed env m = m) by (unfold warmed; now rewrite Hc).
    rewrite Hw.
    assert (Hstep : forall extra,
              (quiet extra = true
               \/ exists s3 cmd n rest, extra = GetSignedUrl s3 cmd n :: rest
                                        /\ quiet rest = true) ->
              filter is_new_client (trace m ++ extra) = filter is_new_client (trace m)).
    { intros extra H. rewrite filter_app.
      destruct H as [Hq | (s3 & cmd & n & rest & -> & Hq)]; cbn [filter is_new_client];
        rewrite (new_clients_quiet _ Hq); apply app_nil_r. }
    destruct (is_issuer_request request).
    { destruct (issuer_trace w request env m) as (resp & extra & -> & Hextra).
      cbn [snd s3Client trace]. split; [exact Hc |]. apply Hstep.
      destruct Hextra as [Hq | (s3 & fn & ft & rest & _ & -> & Hq)];
        [now left | right]. now exists s3, (sign_command w env fn ft), 3600, rest. }
    destruct (is_confirm_request request).
    { destruct (validator_outcome request env m) as (resp & extra & -> & Hq & _).
      cbn [snd s3Client trace]. split; [exact Hc |]. apply Hstep. now left. }
    cbn. now split.
Qed.

Lemma client_is_never_replaced_witness :
  s3Client (snd (fetch Sample.world1 (Sample.upload "cat.png" "image/png")
                   {| AWS_ACCESS_KEY_ID := Some (js "ROTATED");
                      AWS_SECRET_ACCESS_KEY := Some (js "rotated");
                      AWS_REGION := Some (js "eu-west-1");
                      AWS_S3_BUCKET := Some (js "media");
                      ALLOWED_ORIGIN := None |}
                   Sample.ready))
  = Some Sample.client.
Proof.
  exact (proj1 (@client_is_never_replaced Sample.world1
                  (Sample.upload "cat.png" "image/png") _ Sample.ready
                  Sample.client eq_refl)).
Defined.

(** X8: with the access key, the secret key and the region all there, the
    first valid upload request to a module without a client makes [fetch]
    construct the client from those three bindings and sign through it at
    once: the answer is 200 with [url], [key] and [bucket], and the trace
    gains the construction followed by the one signing. *)
Theorem first_upload_builds_the_client_and_signs
  (w : platform) (request : Request) (env : Env) (m : machine)
  (b : json) (filename filetype bucket url : jsstring) :
  credentials_complete env = true ->
  AWS_S3_BUCKET env = Some bucket ->
  s3Client m = None ->
  is_issuer_request request = true ->
  json_body request = Normal b ->
  upload_body filename filetype b ->
  presigner w (client_of env) (sign_command w env filename (Some (JStr filetype))) 3600
  = Normal url ->
  fetch w request env m
  = (Normal
       (corsResponse
          (JObj [ (js "url", JStr url);
                  (js "key", JStr (Key (sign_command w env filename (Some (JStr filetype)))));
                  (js "bucket", JStr bucket) ])
          env None),
     {| s3Client := Some (client_of env);
        trace := trace m
                 ++ [ NewS3Client (client_of env);
                      GetSignedUrl (client_of env)
                        (sign_command w env filename (Some (JStr filetype))) 3600 ] |}).
Proof.
  intros Hcred Hbucket Hc Hroute Hj Hb Hsign.
  assert (Hp : is_preflight request = false).
  { apply post_is_not_preflight. unfold is_issuer_request in Hroute.
    now apply andb_true_iff in Hroute as [_ H]. }
  rewrite (@fetch_routes w request env m Hp), Hroute.
  assert (Hw : warmed env m
               = {| s3Client := Some (client_of env);
                    trace := trace m ++ [NewS3Client (client_of env)] |}).
  { unfold warmed. now rewrite Hc, Hcred. }
  rewrite Hw.
  rewrite (@issuer_valid w request env
             {| s3Client := Some (client_of env);
                trace := trace m ++ [NewS3Client (client_of env)] |}
             (client_of env) b filename filetype eq_refl Hj Hb).
  cbv zeta. unfold sign_command in Hsign |- *. rewrite Hsign.
  cbn [trace Key]. rewrite <- app_assoc. unfold JSON_stringify, binding.
  rewrite Hbucket. reflexivity.
Qed.

Lemma first_upload_builds_the_client_and_signs_witness :
  exists resp,
    fetch Sample.world1 (Sample.upload "cat.png" "image/png") Sample.env boot
    = (Normal resp,
       {| s3Client := Some Sample.client;
          trace := [ NewS3Client Sample.client;
                     GetSignedUrl Sample.client
                       (sign_command Sample.world1 Sample.env (js "cat.png")
                          (Some (JStr (js "image/png")))) 3600 ] |})
    /\ status resp = 200.
Proof.
  assert (Hb : upload_body (js "cat.png") (js "image/png")
                 (JObj [ (js "filename", JStr (js "cat.png"));
                         (js "filetype", JStr (js "image/png")) ])).
  { eexists. repeat split; [vm_compute; reflexivity .. | discriminate | discriminate]. }
  eexists. split.
  - exact (@first_upload_builds_the_client_and_signs Sample.world1
             (Sample.upload "cat.png" "image/png") Sample.env boot _ _ _
             (js "media") _ eq_refl eq_refl eq_refl eq_refl eq_refl Hb eq_refl).
  - reflexivity.
Defined.

(** *** The Validator on unusual keys *)

(** X9: when the parsed body is not [null] and has no truthy [key] (the body
    is not an object, or [key] is absent, empty, [null] or [false]), the
    Validator answers 400 with [Missing required parameter: key] and leaves
    the module state as it was. *)
Theorem validator_asks_for_the_key
  (request : Request) (env : Env) (m : machine) (b : json) :
  json_body request = Normal b ->
  b <> JNull ->
  ToBoolean (key_of b) = false ->
  handleConfirmUpload request env m
  = (Normal
       {| status := 400;
          headers :=
            [ (js "Content-Type", js "application/json");
              (js "Access-Control-Allow-Origin", or_else (ALLOWED_ORIGIN env) (js "*"));
              (js "Cache-Control", js "no-store") ];
          body := Json (JObj [ (js "error",
                                JStr (js "Missing required parameter: key")) ]) |},
     m).
Proof.
  intros Hj Hb Hk. rewrite (@validator_parsed request env m b Hj Hb).
  now rewrite Hk.
Qed.

Lemma validator_asks_for_the_key_witness :
  fst (handleConfirmUpload
         (Sample.post "/confirm-upload" (Normal (JArr [JStr (js "uploads/1-a-b")])))
         Sample.env Sample.ready)
  = Normal (missing_key Sample.env).
Proof.
  rewrite (@validator_asks_for_the_key
             (Sample.post "/confirm-upload" (Normal (JArr [JStr (js "uploads/1-a-b")])))
             Sample.env Sample.ready _ eq_refl).
  - reflexivity.
  - discriminate.
  - reflexivity.
Defined.

(** X10: when the bucket binding is unset the Validator still confirms a
    well-shaped key, with an [imageUrl] whose host starts with the word
    [undefined]. *)
Theorem validator_without_bucket_says_undefined
  (request : Request) (env : Env) (m : machine)
  (props : list (jsstring * json)) (k : jsstring) :
  AWS_S3_BUCKET env = None ->
  json_body request = Normal (JObj props) ->
  lookup (js "key") props = Some (JStr k) ->
  key_shape k ->
  exists resp,
    handleConfirmUpload request env m = (Normal resp, m)
    /\ status resp = 200
    /\ field resp (js "imageUrl")
       = Some (JStr (js "https://undefined.s3.amazonaws.com/" ++ k)).
Proof.
  intros Hb Hj Hk Hshape.
  rewrite (@validator_accepts_shape request env m props k Hj Hk Hshape).
  eexists. split; [reflexivity |]. split; [reflexivity |].
  unfold confirmation, field. cbn. rewrite Hb. reflexivity.
Qed.

Lemma validator_without_bucket_says_undefined_witness :
  exists resp,
    handleConfirmUpload (Sample.confirm (js "uploads/7-ab-cat.png"))
      {| AWS_ACCESS_KEY_ID := None; AWS_SECRET_ACCESS_KEY := None;
         AWS_REGION := None; AWS_S3_BUCKET := None; ALLOWED_ORIGIN := None |}
      boot = (Normal resp, boot)
    /\ field resp (js "imageUrl")
       = Some (JStr (js "https://undefined.s3.amazonaws.com/uploads/7-ab-cat.png")).
Proof.
  destruct (@validator_without_bucket_says_undefined
              (Sample.confirm (js "uploads/7-ab-cat.png"))
              {| AWS_ACCESS_KEY_ID := None; AWS_SECRET_ACCESS_KEY := None;
                 AWS_REGION := None; AWS_S3_BUCKET := None; ALLOWED_ORIGIN := None |}
              boot _ _ eq_refl eq_refl eq_refl)
    as (resp & Hrun & _ & Hurl).
  - apply key_pattern_spec. vm_compute. reflexivity.
  - exists resp. split; [exact Hrun | exact Hurl].
Defined.

(** X11: a key sent as a one-element array around a non-empty string is
    answered exactly as that string is: the array is truthy and renders as
    its element, so the pattern test and the [imageUrl] see the string. *)
Theorem validator_unwraps_array_key
  (r1 r2 : Request) (env : Env) (m : machine)
  (props1 props2 : list (jsstring * json)) (k : jsstring) :
  json_body r1 = Normal (JObj props1) ->
  lookup (js "key") props1 = Some (JArr [JStr k]) ->
  json_body r2 = Normal (JObj props2) ->
  lookup (js "key") props2 = Some (JStr k) ->
  k <> [] ->
  handleConfirmUpload r1 env m = handleConfirmUpload r2 env m.
Proof.
  intros H1 K1 H2 K2 Hne.
  rewrite (@validator_parsed r1 env m _ H1) by discriminate.
  rewrite (@validator_parsed r2 env m _ H2) by discriminate.
  cbn [key_of]. rewrite K1, K2.
  assert (T : ToBoolean (Some (JStr k)) = true) by now apply truthy_string.
  rewrite T. cbn [ToBoolean ToString json_ToString map all_Normal join].
  reflexivity.
Qed.

Lemma validator_unwraps_array_key_witness :
  handleConfirmUpload
    (Sample.post "/confirm-upload"
       (Normal (JObj [ (js "key", JArr [JStr (js "uploads/1-a-b")]) ])))
    Sample.env Sample.ready
  = (Normal (confirmation Sample.env (js "uploads/1-a-b")), Sample.ready).
Proof.
  rewrite (@validator_unwraps_array_key
             (Sample.post "/confirm-upload"
                (Normal (JObj [ (js "key", JArr [JStr (js "uploads/1-a-b")]) ])))
             (Sample.confirm (js "uploads/1-a-b"))
             Sample.env Sample.ready _ _ (js "uploads/1-a-b")
             eq_refl eq_refl eq_refl eq_refl).
  - vm_compute. reflexivity.
  - discriminate.
Defined.

(** *** The two patterns once more *)

Lemma line_free_app (a b : jsstring) :
  line_free (a ++ b) = line_free a && line_free b.
Proof. unfold line_free. apply forallb_app. Qed.

(** X12: a key the pattern of the Validator accepts holds no line terminator
    anywhere, and stays accepted when any text free of line terminators is
    appended to it: nothing after the second hyphen is constrained
    otherwise. *)
Theorem accepted_key_is_line_free_and_extends (k : jsstring) :
  RegExp_test_anchored key_pattern k = true ->
  line_free k = true
  /\ forall t, line_free t = true -> RegExp_test_anchored key_pattern (k ++ t) = true.
Proof.
  intros H. apply key_pattern_spec in H
    as (ds & ident & rest & -> & Hds1 & Hds2 & Hid1 & Hid2 & Hrest).
  split.
  - rewrite !line_free_app.
    assert (Hd : line_free ds = true).
    { revert Hds2. apply forallb_impl. intros c Hc.
      destruct (is_line_terminator c) eqn:Hl; [| reflexivity].
      exfalso. unit_arith. }
    assert (Hi : line_free ident = true).
    { revert Hid2. apply forallb_impl. intros c Hc.
      destruct (is_line_terminator c) eqn:Hl; [| reflexivity].
      exfalso. unit_arith. }
    rewrite Hd, Hi. unfold line_free at 4. rewrite Hrest. reflexivity.
  - intros t Ht. apply key_pattern_spec.
    exists ds, ident, (rest ++ t). rewrite <- !app_assoc.
    repeat split; try assumption.
    fold (line_free (rest ++ t)). rewrite line_free_app. fold (line_free rest) in Hrest.
    now rewrite Hrest, Ht.
Qed.

Lemma accepted_key_is_line_free_and_extends_witness :
  RegExp_test_anchored key_pattern (js "uploads/1-a-b" ++ js "/../../etc/passwd") = true.
Proof.
  refine (proj2 (@accepted_key_is_line_free_and_extends (js "uploads/1-a-b") _) _ _);
    vm_compute; reflexivity.
Defined.

(** X13: replacing the unsafe characters of a file name a second time
    changes nothing, and a file name comes out of the replacement unchanged
    exactly when all its characters are word characters, white space, dots
    or hyphens. *)
Theorem sanitizing_is_idempotent_and_fixes_clean_names (s : jsstring) :
  String_replace_all unsafe_filename_char (js "_")
    (String_replace_all unsafe_filename_char (js "_") s)
  = String_replace_all unsafe_filename_char (js "_") s
  /\ (String_replace_all unsafe_filename_char (js "_") s = s
      <-> forallb kept_in_filename s = true)
  /\ List.length (String_replace_all unsafe_filename_char (js "_") s) = List.length s.
Proof.
  assert (Hfix : forall t, forallb kept_in_filename t = true ->
                   String_replace_all unsafe_filename_char (js "_") t = t).
  { intros t. rewrite sanitize_map. induction t as [|c t IH]; cbn [map forallb];
      [reflexivity |].
    intros H. apply andb_true_iff in H as [Hc Ht]. now rewrite Hc, (IH Ht). }
  split; [apply Hfix, sanitize_kept |]. split; [| apply sanitize_length].
  split; [| apply Hfix].
  intros E. rewrite <- E. apply sanitize_kept.
Qed.

(* ================================================================= *)
(** ** The upload page: selecting files *)

Lemma str_eqb_sym (a b : jsstring) : str_eqb a b = str_eqb b a.
Proof.
  destruct (str_eqb a b) eqn:E1, (str_eqb b a) eqn:E2; try reflexivity.
  - apply str_eqb_eq in E1. subst. now rewrite str_eqb_refl in E2.
  - apply str_eqb_eq in E2. subst. now rewrite str_eqb_refl in E1.
Qed.

Lemma str_eqb_neq (a b : jsstring) : str_eqb a b = false <-> a <> b.
Proof.
  split.
  - intros E ->. now rewrite str_eqb_refl in E.
  - intros Hne. destruct (str_eqb a b) eqn:E; [| reflexivity].
    apply str_eqb_eq in E. contradiction.
Qed.

Lemma entries_length (fresh : nat -> jsstring * jsstring) (n : nat)
  (fs : list App.File) (st : App.Status) :
  List.length (App.entries fresh n fs st) = List.length fs.
Proof.
  revert n. induction fs as [|f fs IH]; intros n; cbn; [reflexivity |].
  now rewrite IH.
Qed.

(** The loop of [validateAndAddFiles], in one piece. *)
Lemma check_files (fresh : nat -> jsstring * jsstring) (selected : list App.File)
  (newFiles : list App.FileInfo) (invalidFiles : list App.refused) :
  fold_left (App.check_file fresh) selected (newFiles, invalidFiles)
  = (newFiles ++ App.entries fresh (List.length newFiles)
                   (filter App.acceptable selected) App.pending,
     invalidFiles ++ flat_map App.refusal selected).
Proof.
  revert newFiles invalidFiles.
  induction selected as [|f rest IH]; intros newFiles invalidFiles;
    cbn [fold_left filter flat_map App.entries].
  - now rewrite !app_nil_r.
  - unfold App.check_file at 2. unfold App.acceptable at 1. unfold App.refusal at 1.
    destruct (App.includes App.ALLOWED_TYPES (App.File_type f)); cbn [negb andb].
    + rewrite N.ltb_antisym.
      destruct (App.File_size f <=? App.MAX_FILE_SIZE); cbn [negb].
      * rewrite IH, length_app. cbn [List.length App.entries].
        rewrite Nat.add_1_r, <- app_assoc. reflexivity.
      * rewrite IH, <- app_assoc. reflexivity.
    + rewrite IH, <- app_assoc. reflexivity.
Qed.

Lemma refusals_count (selected : list App.File) :
  (List.length (filter App.acceptable selected)
   + List.length (flat_map App.refusal selected))%nat
  = List.length selected.
Proof.
  induction selected as [|f rest IH]; cbn [filter flat_map List.length];
    [reflexivity |].
  unfold App.acceptable at 1. unfold App.refusal at 1.
  destruct (App.includes App.ALLOWED_TYPES (App.File_type f)); cbn [negb andb].
  - rewrite N.ltb_antisym.
    destruct (App.File_size f <=? App.MAX_FILE_SIZE); cbn [negb];
      rewrite ?length_app; cbn [List.length app]; lia.
  - rewrite length_app. cbn [List.length]. lia.
Qed.

Lemma perform_all_effects (es : list App.effect) (p : App.page) :
  fold_left (fun q e => App.perform e q) es p
  = {| App.files := App.files p; App.isDragging := App.isDragging p;
       App.selectedPreview := App.selectedPreview p;
       App.effects := App.effects p ++ es |}.
Proof.
  revert p. induction es as [|e es IH]; intros p; cbn [fold_left].
  - rewrite app_nil_r. now destruct p.
  - rewrite IH. cbn. now rewrite <- app_assoc.
Qed.

Lemma refusal_toasts (groups : list (jsstring * list jsstring)) (p : App.page) :
  fold_left (fun q group => App.perform (App.refusal_toast group) q) groups p
  = {| App.files := App.files p; App.isDragging := App.isDragging p;
       App.selectedPreview := App.selectedPreview p;
       App.effects := App.effects p ++ map App.refusal_toast groups |}.
Proof.
  revert p. induction groups as [|g gs IH]; intros p; cbn [fold_left map].
  - rewrite app_nil_r. now destruct p.
  - rewrite IH. cbn. now rewrite <- app_assoc.
Qed.

(** Starting uploads one after the other marks every entry that shares its
    [id] with one of them, and sends one request each. *)
Lemma begin_all (l : list App.FileInfo) (p : App.page) :
  fold_left (fun q fileInfo => App.uploadFile_begin fileInfo q) l p
  = {| App.files :=
         map (fun f =>
                if existsb (fun fi => str_eqb (App.id f) (App.id fi)) l
                then App.started f else f)
             (App.files p);
       App.isDragging := App.isDragging p;
       App.selectedPreview := App.selectedPreview p;
       App.effects :=
         App.effects p
         ++ map (fun fi => App.post_upload_url (App.name fi) (App.type fi)) l |}.
Proof.
  revert p. induction l as [|fi l IH]; intros p; cbn [fold_left map existsb].
  - rewrite app_nil_r, map_id. now destruct p.
  - rewrite IH. unfold App.uploadFile_begin, App.perform, App.setFiles.
    cbn [App.files App.isDragging App.selectedPreview App.effects].
    rewrite map_map, <- app_assoc. f_equal.
    apply map_ext. intros f. fold (App.started f).
    destruct (str_eqb (App.id f) (App.id fi)) eqn:E; cbn [orb App.started App.id].
    + now destruct (existsb _ l).
    + reflexivity.
Qed.

Lemma started_entries (fresh : nat -> jsstring * jsstring) (n : nat)
  (fs : list App.File) :
  map App.started (App.entries fresh n fs App.pending)
  = App.entries fresh n fs App.uploading.
Proof.
  revert n. induction fs as [|f fs IH]; intros n; cbn; [reflexivity |].
  now rewrite IH.
Qed.

Lemma entries_ids (fresh : nat -> jsstring * jsstring) (n : nat)
  (fs : list App.File) (st : App.Status) (e : App.FileInfo) :
  In e (App.entries fresh n fs st) -> exists k, App.id e = snd (fresh k).
Proof.
  revert n. induction fs as [|f fs IH]; intros n; cbn; [intros [] |].
  intros [<- | Hin]; [now exists n | eauto].
Qed.

Lemma entries_posts (fresh : nat -> jsstring * jsstring) (n : nat)
  (fs : list App.File) (st : App.Status) :
  map (fun fi => App.post_upload_url (App.name fi) (App.type fi))
    (App.entries fresh n fs st)
  = map (fun f => App.post_upload_url (App.File_name f) (App.File_type f)) fs.
Proof.
  revert n. induction fs as [|f fs IH]; intros n; cbn; [reflexivity |].
  now rewrite IH.
Qed.

(** [validateAndAddFiles], the loop and the tests on lengths resolved. *)
Lemma validateAndAddFiles_run (fresh : nat -> jsstring * jsstring)
  (selected : list App.File) (p : App.page) :
  App.validateAndAddFiles fresh selected p
  = let accepted := filter App.acceptable selected in
    let newFiles := App.entries fresh 0 accepted App.pending in
    {| App.files :=
         map (fun f =>
                if existsb (fun fi => str_eqb (App.id f) (App.id fi)) newFiles
                then App.started f else f)
             (App.files p ++ newFiles);
       App.isDragging := App.isDragging p;
       App.selectedPreview := App.selectedPreview p;
       App.effects :=
         App.effects p
         ++ map App.refusal_toast (App.byReason (flat_map App.refusal selected))
         ++ match accepted with
            | [] => []
            | _ :: _ =>
                App.toast_success
                  (js "Added " ++ App.length_text (List.length accepted)
                     ++ js " file(s) for upload")
                :: map (fun f => App.post_upload_url (App.File_name f) (App.File_type f))
                     accepted
            end |}.
Proof.
  cbv zeta. unfold App.validateAndAddFiles.
  destruct selected as [|f0 rest] eqn:Hsel.
  { cbn. rewrite !app_nil_r, map_id. now destruct p. }
  rewrite <- Hsel. assert (Hpos : (0 <? List.length selected)%nat = true)
    by (subst selected; reflexivity).
  rewrite Hpos. rewrite check_files. cbn [app List.length].
  pose proof (refusals_count selected) as Hcount.
  set (accepted := filter App.acceptable selected) in *.
  set (invalid := flat_map App.refusal selected) in *.
  assert (Hp1 : (if (0 <? List.length invalid)%nat
                 then fold_left (fun q group => App.perform (App.refusal_toast group) q)
                        (App.byReason invalid) p
                 else p)
                = {| App.files := App.files p; App.isDragging := App.isDragging p;
                     App.selectedPreview := App.selectedPreview p;
                     App.effects := App.effects p
                                    ++ map App.refusal_toast (App.byReason invalid) |}).
  { destruct invalid as [|r rs]; cbn [List.length Nat.ltb Nat.leb].
    - cbn. rewrite app_nil_r. now destruct p.
    - apply refusal_toasts. }
  rewrite Hp1. rewrite entries_length.
  destruct accepted as [|a acc] eqn:Hacc.
  - cbn [List.length Nat.ltb Nat.leb App.entries existsb app].
    cbn [App.files]. rewrite !app_nil_r, map_id. reflexivity.
  - rewrite <- Hacc in *. 
    assert (Hlen : (0 <? List.length accepted)%nat = true)
      by (rewrite Hacc; reflexivity).
    rewrite Hlen.
    assert (Hneq : negb (List.length selected =? List.length invalid)%nat = true).
    { apply negb_true_iff, Nat.eqb_neq. rewrite Hacc in Hcount.
      cbn [List.length] in Hcount. lia. }
    rewrite Hneq, begin_all. unfold App.perform, App.setFiles.
    cbn [App.files App.isDragging App.selectedPreview App.effects].
    rewrite entries_posts, <- !app_assoc. reflexivity.
Qed.

(** X14: [validateAndAddFiles] appends to the list of the page exactly the
    selected files whose type is one of the five allowed and whose size is at
    most 15 MiB (a file of exactly 15 MiB passes), in the order they were
    selected, each with its own preview URL and id and already marked as
    uploading at 0 percent; the files already there are left as they were,
    as long as no fresh id repeats one of theirs. *)
Theorem page_gains_the_acceptable_files
  (fresh : nat -> jsstring * jsstring) (selected : list App.File) (p : App.page) :
  (forall f n, In f (App.files p) -> App.id f <> snd (fresh n)) ->
  App.files (App.validateAndAddFiles fresh selected p)
  = App.files p
    ++ App.entries fresh 0
         (filter (fun f => App.includes App.ALLOWED_TYPES (App.File_type f)
                           && (App.File_size f <=? 15728640))
                 selected)
         App.uploading.
Proof.
  intros Hfresh. rewrite validateAndAddFiles_run. cbv zeta. cbn [App.files].
  change (fun f => App.includes App.ALLOWED_TYPES (App.File_type f)
                   && (App.File_size f <=? 15728640)) with App.acceptable.
  set (accepted := filter App.acceptable selected).
  rewrite map_app. f_equal.
  - rewrite <- (map_id (App.files p)) at 2. apply map_ext_in. intros f Hf.
    destruct (existsb _ _) eqn:E; [| reflexivity].
    apply existsb_exists in E as (fi & Hin & Heq). apply str_eqb_eq in Heq.
    apply entries_ids in Hin as (k & Hk). destruct (Hfresh f k Hf). congruence.
  - rewrite <- started_entries. apply map_ext_in. intros e He.
    destruct (existsb _ _) eqn:E; [reflexivity |].
    assert (Hex : existsb (fun fi => str_eqb (App.id e) (App.id fi))
                    (App.entries fresh 0 accepted App.pending) = true).
    { apply existsb_exists. exists e. split; [exact He | apply str_eqb_refl]. }
    congruence.
Qed.

Lemma page_gains_the_acceptable_files_witness :
  map App.name
    (App.files (App.validateAndAddFiles App.draws [App.cat; App.notes; App.film]
                  App.blank))
  = [js "cat.png"].
Proof.
  rewrite (@page_gains_the_acceptable_files App.draws [App.cat; App.notes; App.film]
             App.blank).
  - vm_compute. reflexivity.
  - intros f n [].
Defined.

(** X15: what [validateAndAddFiles] does besides: one toast for each group of
    refused files, then, as soon as one file is accepted, the toast
    [Added n file(s) for upload] with the number of accepted files (the test
    on the two lengths before it never fails there) and one request for a
    presigned URL for each accepted file, in order, carrying its name and
    type; no request leaves for a refused file. *)
Theorem page_requests_a_url_for_each_accepted_file
  (fresh : nat -> jsstring * jsstring) (selected : list App.File) (p : App.page) :
  let accepted := filter App.acceptable selected in
  App.effects (App.validateAndAddFiles fresh selected p)
  = App.effects p
    ++ map App.refusal_toast (App.byReason (flat_map App.refusal selected))
    ++ match accepted with
       | [] => []
       | _ :: _ =>
           App.toast_success
             (js "Added " ++ Number_toString (Z.of_nat (List.length accepted))
                ++ js " file(s) for upload")
           :: map (fun f => App.post_upload_url (App.File_name f) (App.File_type f))
                accepted
       end.
Proof. intros accepted. rewrite validateAndAddFiles_run. reflexivity. Qed.

(** *** Grouping the refused files *)

Lemma names_under_grouped (acc : list (jsstring * list jsstring))
  (r' n r : jsstring) :
  App.names_under r (App.group_under acc r' n)
  = if str_eqb r' r then App.names_under r acc ++ [n] else App.names_under r acc.
Proof.
  unfold App.names_under.
  induction acc as [|[k ns] rest IH]; cbn [App.group_under find fst snd].
  - rewrite str_eqb_sym. destruct (str_eqb r r'); reflexivity.
  - destruct (str_eqb k r') eqn:Ek; cbn [find fst snd].
    + apply str_eqb_eq in Ek. subst k.
      destruct (str_eqb r' r); reflexivity.
    + destruct (str_eqb k r) eqn:Er; [| exact IH].
      apply str_eqb_eq in Er. subst k. now rewrite str_eqb_sym, Ek.
Qed.

Lemma keys_grouped (acc : list (jsstring * list jsstring)) (r n : jsstring) :
  map fst (App.group_under acc r n)
  = if existsb (fun k => str_eqb k r) (map fst acc) then map fst acc
    else map fst acc ++ [r].
Proof.
  induction acc as [|[k ns] rest IH]; cbn [App.group_under map fst existsb];
    [reflexivity |].
  destruct (str_eqb k r); cbn [orb map fst]; [reflexivity |].
  rewrite IH. now destruct (existsb _ _).
Qed.

Lemma groups_nonempty_grouped (acc : list (jsstring * list jsstring)) (r n : jsstring) :
  Forall (fun g => snd g <> []) acc ->
  Forall (fun g => snd g <> []) (App.group_under acc r n).
Proof.
  induction acc as [|[k ns] rest IH]; cbn [App.group_under]; intros H.
  - constructor; [discriminate | constructor].
  - inversion H as [|? ? Hk Hrest]; subst.
    destruct (str_eqb k r).
    + constructor; [| exact Hrest]. cbn. now destruct ns.
    + constructor; [exact Hk | now apply IH].
Qed.

(** X16: the [reduce] of [validateAndAddFiles] files every refused name under
    its reason and nowhere else, in the order the files were selected; no
    reason heads two groups, and no group is empty, so the toasts count every
    refused file once. *)
Theorem refused_files_are_grouped_by_reason (invalidFiles : list App.refused) :
  (forall r,
     App.names_under r (App.byReason invalidFiles)
     = map App.refused_name
         (filter (fun x => str_eqb (App.reason x) r) invalidFiles))
  /\ NoDup (map fst (App.byReason invalidFiles))
  /\ Forall (fun g => snd g <> []) (App.byReason invalidFiles).
Proof.
  unfold App.byReason.
  assert (Hgen : forall acc,
            NoDup (map fst acc) -> Forall (fun g => snd g <> []) acc ->
            let out := fold_left
                         (fun a curr => App.group_under a (App.reason curr)
                                          (App.refused_name curr))
                         invalidFiles acc in
            (forall r, App.names_under r out
                       = App.names_under r acc
                         ++ map App.refused_name
                              (filter (fun x => str_eqb (App.reason x) r) invalidFiles))
            /\ NoDup (map fst out) /\ Forall (fun g => snd g <> []) out).
  { induction invalidFiles as [|x xs IH]; intros acc Hnd Hne; cbn [fold_left].
    - cbv zeta. split; [intros r; cbn; now rewrite app_nil_r | now split].
    - destruct (IH (App.group_under acc (App.reason x) (App.refused_name x)))
        as (H1 & H2 & H3).
      + rewrite keys_grouped.
        destruct (existsb _ _) eqn:E; [exact Hnd |].
        apply NoDup_app; [exact Hnd | constructor; [intros [] | constructor] |].
        intros k Hk [Ek | []].
        assert (existsb (fun k' => str_eqb k' (App.reason x)) (map fst acc) = true)
          by (apply existsb_exists; exists k; split;
              [exact Hk | now apply str_eqb_eq]).
        congruence.
      + now apply groups_nonempty_grouped.
      + cbv zeta. split; [| now split].
        intros r. rewrite H1, names_under_grouped. cbn [filter].
        destruct (str_eqb (App.reason x) r); cbn [map];
          [now rewrite <- app_assoc | reflexivity]. }
  destruct (Hgen [] (NoDup_nil _) (Forall_nil _)) as (H1 & H2 & H3).
  split; [exact H1 | now split].
Qed.

(* ================================================================= *)
(** ** The upload page: one upload *)

Lemma repainted_refl (f : App.FileInfo) : App.repainted f f.
Proof. unfold App.repainted. now destruct f. Qed.

Lemma repainted_id (f f' : App.FileInfo) : App.repainted f f' -> App.id f' = App.id f.
Proof. unfold App.repainted. now intros ->. Qed.

Lemma settle_repainted (o : jsstring + jsstring) (f f' : App.FileInfo) :
  App.repainted f f' -> App.settle o f' = App.settle o f.
Proof. unfold App.repainted. intros ->. now destruct o. Qed.

Lemma touch_same (i : jsstring) (fs : list App.FileInfo) :
  App.touch i (fun f => f) fs = fs.
Proof.
  unfold App.touch. rewrite <- (map_id fs) at 2. apply map_ext.
  intros f. now destruct (str_eqb (App.id f) i).
Qed.

Lemma touch_twice (i : jsstring) (g1 g2 : App.FileInfo -> App.FileInfo)
  (fs : list App.FileInfo) :
  (forall f, App.id (g1 f) = App.id f) ->
  App.touch i g2 (App.touch i g1 fs) = App.touch i (fun f => g2 (g1 f)) fs.
Proof.
  intros Hid. unfold App.touch. rewrite map_map. apply map_ext. intros f.
  destruct (str_eqb (App.id f) i) eqn:E; [now rewrite Hid, E | now rewrite E].
Qed.

Lemma touch_settles (i : jsstring) (o : jsstring + jsstring)
  (g : App.FileInfo -> App.FileInfo) (fs : list App.FileInfo) :
  (forall f, App.repainted f (g f)) ->
  App.touch i (App.settle o) (App.touch i g fs) = App.touch i (App.settle o) fs.
Proof.
  intros Hg. rewrite touch_twice by (intros f; apply repainted_id, Hg).
  unfold App.touch. apply map_ext. intros f.
  destruct (str_eqb (App.id f) i); [apply settle_repainted, Hg | reflexivity].
Qed.

(** The progress callbacks repaint the entries of the file and do nothing
    else. *)
Lemma progress_repaints (fileInfo : App.FileInfo) (percentages : list N)
  (p : App.page) :
  exists g,
    (forall f, App.repainted f (g f))
    /\ fold_left (App.onUploadProgress fileInfo) percentages p
       = {| App.files := App.touch (App.id fileInfo) g (App.files p);
            App.isDragging := App.isDragging p;
            App.selectedPreview := App.selectedPreview p;
            App.effects := App.effects p |}.
Proof.
  revert p. induction percentages as [|pct rest IH]; intros p; cbn [fold_left].
  - exists (fun f => f). split; [apply repainted_refl |].
    rewrite touch_same. now destruct p.
  - destruct (IH (App.onUploadProgress fileInfo p pct)) as (g & Hg & ->).
    unfold App.onUploadProgress, App.setFiles.
    cbn [App.files App.isDragging App.selectedPreview App.effects].
    eexists. split; [| fold (App.touch (App.id fileInfo)
                               (fun f => {| App.file := App.file f;
                                            App.previewUrl := App.previewUrl f;
                                            App.id := App.id f; App.name := App.name f;
                                            App.size := App.size f;
                                            App.type := App.type f;
                                            App.status := App.status f;
                                            App.progress := pct;
                                            App.url := App.url f;
                                            App.errorMessage := App.errorMessage f |})
                               (App.files p));
                      rewrite touch_twice by reflexivity; reflexivity].
    intros f. cbv beta. specialize (Hg {| App.file := App.file f;
                                          App.previewUrl := App.previewUrl f;
                                          App.id := App.id f; App.name := App.name f;
                                          App.size := App.size f;
                                          App.type := App.type f;
                                          App.status := App.status f;
                                          App.progress := pct;
                                          App.url := App.url f;
                                          App.errorMessage := App.errorMessage f |}).
    unfold App.repainted in *. rewrite Hg at 1. reflexivity.
Qed.

Lemma catch_run (fileInfo : App.FileInfo) (t : App.thrown) (p : App.page) :
  App.uploadFile_catch fileInfo t p
  = {| App.files := App.touch (App.id fileInfo)
                      (App.settle (inr (App.message_of t))) (App.files p);
       App.isDragging := App.isDragging p;
       App.selectedPreview := App.selectedPreview p;
       App.effects :=
         App.effects p
         ++ [ App.console_error (js "Error uploading " ++ App.name fileInfo ++ js ":") t;
              App.toast_error (js "Upload failed: " ++ App.message_of t) ] |}.
Proof.
  unfold App.uploadFile_catch, App.perform, App.setFiles, App.touch, App.settle.
  cbn [App.files App.isDragging App.selectedPreview App.effects].
  now rewrite <- app_assoc.
Qed.

Lemma begin_run (fileInfo : App.FileInfo) (p : App.page) :
  App.uploadFile_begin fileInfo p
  = {| App.files := App.touch (App.id fileInfo) App.started (App.files p);
       App.isDragging := App.isDragging p;
       App.selectedPreview := App.selectedPreview p;
       App.effects :=
         App.effects p
         ++ [ App.post_upload_url (App.name fileInfo) (App.type fileInfo) ] |}.
Proof. reflexivity. Qed.

Lemma started_repaints (f : App.FileInfo) : App.repainted f (App.started f).
Proof. reflexivity. Qed.

Lemma touch_absent (i : jsstring) (g : App.FileInfo -> App.FileInfo)
  (fs : list App.FileInfo) :
  existsb (fun f => str_eqb (App.id f) i) fs = false -> App.touch i g fs = fs.
Proof.
  unfold App.touch. induction fs as [|f fs IH]; cbn [existsb map]; [reflexivity |].
  intros H. apply orb_false_iff in H as [Hf Hfs]. now rewrite Hf, (IH Hfs).
Qed.

Lemma touch_keeps_ids (i j : jsstring) (g : App.FileInfo -> App.FileInfo)
  (fs : list App.FileInfo) :
  (forall f, App.id (g f) = App.id f) ->
  existsb (fun f => str_eqb (App.id f) j) (App.touch i g fs)
  = existsb (fun f => str_eqb (App.id f) j) fs.
Proof.
  intros Hid. unfold App.touch. induction fs as [|f fs IH]; cbn [existsb map];
    [reflexivity |].
  rewrite IH. destruct (str_eqb (App.id f) i); [now rewrite Hid | reflexivity].
Qed.

(** The update that marks the success, applied to a list of entries: it
    throws when the URL cannot be built and an entry of the file is there. *)
Lemma mark_success_run (i : jsstring) (c : completion jsstring)
  (fs : list App.FileInfo) :
  App.Array_map
    (fun f =>
       if str_eqb (App.id f) i then
         match c with
         | Throw e => Throw e
         | Normal url_ =>
             Normal {| App.file := App.file f; App.previewUrl := App.previewUrl f;
                       App.id := App.id f; App.name := App.name f;
                       App.size := App.size f; App.type := App.type f;
                       App.status := App.success; App.progress := 100;
                       App.url := Some url_;
                       App.errorMessage := App.errorMessage f |}
         end
       else Normal f)
    fs
  = match c with
    | Normal url_ => Normal (App.touch i (App.settle (inl url_)) fs)
    | Throw e =>
        if existsb (fun f => str_eqb (App.id f) i) fs then Throw e else Normal fs
    end.
Proof.
  induction fs as [|f fs IH]; cbn [App.Array_map existsb].
  - destruct c; reflexivity.
  - rewrite IH. destruct c as [u|e].
    + unfold App.touch. cbn [map]. destruct (str_eqb (App.id f) i); reflexivity.
    + destruct (str_eqb (App.id f) i); cbn [orb]; [reflexivity |].
      now destruct (existsb (fun f0 => str_eqb (App.id f0) i) fs).
Qed.

Lemma object_url_throws (v : json) (e : Error) :
  App.object_url v = Throw e
  <-> (value_unrenderable (App.prop v (js "bucket")) = true
       \/ value_unrenderable (App.prop v (js "key")) = true)
      /\ e = conversion_error.
Proof.
  unfold App.object_url.
  pose proof (ToString_renders (App.prop v (js "bucket"))) as Hb.
  pose proof (ToString_renders (App.prop v (js "key"))) as Hk.
  destruct (value_unrenderable (App.prop v (js "bucket"))).
  - rewrite Hb. split; [intros E; injection E as <-; split; auto
                       | intros [_ ->]; reflexivity].
  - destruct Hb as (sb & ->).
    destruct (value_unrenderable (App.prop v (js "key"))).
    + rewrite Hk. split; [intros E; injection E as <-; split; auto
                         | intros [_ ->]; reflexivity].
    + destruct Hk as (sk & ->).
      split; [discriminate | intros [[? | ?] _]; discriminate].
Qed.

(** The run of [uploadFile] on an answer that is ok, with a parsed body that
    is not [null] and a transfer that goes through. *)
Lemma answered_run
  (net : App.network) (fileInfo : App.FileInfo) (p : App.page)
  (response : App.answer) (presignedUrl : json) (percentages : list N) :
  App.fetched net = inr response ->
  App.ok response = true ->
  App.parsed response = inr presignedUrl ->
  presignedUrl <> JNull ->
  App.put net (App.prop presignedUrl (js "url")) = (percentages, None) ->
  App.uploadFile net fileInfo p
  = match App.object_url presignedUrl with
    | Throw e =>
        if existsb (fun f => str_eqb (App.id f) (App.id fileInfo)) (App.files p)
        then App.update_throws e
        else
          App.rendered
            {| App.files := App.files p;
               App.isDragging := App.isDragging p;
               App.selectedPreview := App.selectedPreview p;
               App.effects :=
                 App.effects p
                 ++ [ App.post_upload_url (App.name fileInfo) (App.type fileInfo);
                      App.put_object (App.prop presignedUrl (js "url"))
                        (App.file fileInfo) (App.type fileInfo);
                      App.toast_success
                        (App.name fileInfo ++ js " uploaded successfully") ] |}
    | Normal url_ =>
        App.rendered
          {| App.files :=
               App.touch (App.id fileInfo) (App.settle (inl url_)) (App.files p);
             App.isDragging := App.isDragging p;
             App.selectedPreview := App.selectedPreview p;
             App.effects :=
               App.effects p
               ++ [ App.post_upload_url (App.name fileInfo) (App.type fileInfo);
                    App.put_object (App.prop presignedUrl (js "url"))
                      (App.file fileInfo) (App.type fileInfo);
                    App.toast_success
                      (App.name fileInfo ++ js " uploaded successfully") ] |}
    end.
Proof.
  intros Hf Hok Hparsed Hnn Hput. unfold App.uploadFile, App.uploadFile_resume.
  rewrite Hf, Hok, Hparsed. cbn [negb].
  assert (Hrun :
    (let target := App.prop presignedUrl (js "url") in
     let p1 := App.perform
                 (App.put_object target (App.file fileInfo) (App.type fileInfo))
                 (App.uploadFile_begin fileInfo p) in
     let (percentages, failure) := App.put net target in
     let p2 := fold_left (App.onUploadProgress fileInfo) percentages p1 in
     match failure with
     | Some t => App.rendered (App.uploadFile_catch fileInfo t p2)
     | None =>
         match
           App.Array_map
             (fun f =>
                if str_eqb (App.id f) (App.id fileInfo) then
                  match App.object_url presignedUrl with
                  | Throw e => Throw e
                  | Normal url_ =>
                      Normal
                        {| App.file := App.file f; App.previewUrl := App.previewUrl f;
                           App.id := App.id f; App.name := App.name f;
                           App.size := App.size f; App.type := App.type f;
                           App.status := App.success; App.progress := 100;
                           App.url := Some url_;
                           App.errorMessage := App.errorMessage f |}
                  end
                else Normal f)
             (App.files p2)
         with
         | Throw e => App.update_throws e
         | Normal files_ =>
             App.rendered
               (App.perform
                  (App.toast_success (App.name fileInfo ++ js " uploaded successfully"))
                  (App.setFiles (fun _ => files_) p2))
         end
     end)
    = match App.object_url presignedUrl with
      | Throw e =>
          if existsb (fun f => str_eqb (App.id f) (App.id fileInfo)) (App.files p)
          then App.update_throws e
          else
            App.rendered
              {| App.files := App.files p;
                 App.isDragging := App.isDragging p;
                 App.selectedPreview := App.selectedPreview p;
                 App.effects :=
                   App.effects p
                   ++ [ App.post_upload_url (App.name fileInfo) (App.type fileInfo);
                        App.put_object (App.prop presignedUrl (js "url"))
                          (App.file fileInfo) (App.type fileInfo);
                        App.toast_success
                          (App.name fileInfo ++ js " uploaded successfully") ] |}
      | Normal url_ =>
          App.rendered
            {| App.files :=
                 App.touch (App.id fileInfo) (App.settle (inl url_)) (App.files p);
               App.isDragging := App.isDragging p;
               App.selectedPreview := App.selectedPreview p;
               App.effects :=
                 App.effects p
                 ++ [ App.post_upload_url (App.name fileInfo) (App.type fileInfo);
                      App.put_object (App.prop presignedUrl (js "url"))
                        (App.file fileInfo) (App.type fileInfo);
                      App.toast_success
                        (App.name fileInfo ++ js " uploaded successfully") ] |}
      end).
  { cbv zeta. rewrite Hput.
    destruct (progress_repaints fileInfo percentages
                (App.perform (App.put_object (App.prop presignedUrl (js "url"))
                                (App.file fileInfo) (App.type fileInfo))
                   (App.uploadFile_begin fileInfo p)))
      as (g & Hg & ->).
    rewrite begin_run. unfold App.perform, App.setFiles.
    cbn [App.files App.isDragging App.selectedPreview App.effects].
    rewrite touch_twice by reflexivity.
    assert (Hg' : forall f, App.repainted f (g (App.started f))).
    { intros f. specialize (Hg (App.started f)). unfold App.repainted in *.
      rewrite Hg at 1. reflexivity. }
    rewrite mark_success_run.
    destruct (App.object_url presignedUrl) as [u|e].
    - rewrite touch_settles by exact Hg'.
      rewrite <- !app_assoc. reflexivity.
    - rewrite touch_keeps_ids by (intros f; apply repainted_id, Hg').
      destruct (existsb (fun f => str_eqb (App.id f) (App.id fileInfo)) (App.files p))
        eqn:Hin; [reflexivity |].
      rewrite (@touch_absent _ _ _ Hin), <- !app_assoc. reflexivity. }
  destruct presignedUrl; try exact Hrun. congruence.
Qed.

(** A run of [uploadFile] that is rendered leaves the entries of the file
    settled. *)
Lemma rendered_settles
  (net : App.network) (fileInfo : App.FileInfo) (p p' : App.page) :
  App.uploadFile net fileInfo p = App.rendered p' ->
  exists outcome,
    App.files p' = App.touch (App.id fileInfo) (App.settle outcome) (App.files p).
Proof.
  assert (Hcatch : forall t q g,
            (forall f, App.repainted f (g f)) ->
            App.files q = App.touch (App.id fileInfo) g (App.files p) ->
            App.files (App.uploadFile_catch fileInfo t q)
            = App.touch (App.id fileInfo) (App.settle (inr (App.message_of t)))
                (App.files p)).
  { intros t q g Hg Hq. rewrite catch_run. cbn [App.files].
    rewrite Hq. now apply touch_settles. }
  pose proof (begin_run fileInfo p) as Hb.
  assert (Hb' : App.files (App.uploadFile_begin fileInfo p)
                = App.touch (App.id fileInfo) App.started (App.files p))
    by now rewrite Hb.
  destruct (App.fetched net) as [t|response] eqn:Hf.
  { unfold App.uploadFile, App.uploadFile_resume. rewrite Hf.
    intros E. injection E as <-. eexists.
    apply (Hcatch t _ App.started started_repaints Hb'). }
  destruct (App.ok response) eqn:Hok.
  2:{ unfold App.uploadFile, App.uploadFile_resume. rewrite Hf, Hok. cbn [negb].
      intros E. injection E as <-. eexists.
      apply (Hcatch _ _ App.started started_repaints Hb'). }
  destruct (App.parsed response) as [t|presignedUrl] eqn:Hparsed.
  { unfold App.uploadFile, App.uploadFile_resume. rewrite Hf, Hok, Hparsed.
    cbn [negb]. intros E. injection E as <-. eexists.
    apply (Hcatch t _ App.started started_repaints Hb'). }
  destruct (json_eq_null presignedUrl) as [-> | Hnn].
  { unfold App.uploadFile, App.uploadFile_resume. rewrite Hf, Hok, Hparsed.
    cbn [negb]. intros E. injection E as <-. eexists.
    apply (Hcatch _ _ App.started started_repaints Hb'). }
  destruct (App.put net (App.prop presignedUrl (js "url")))
    as [percentages [t|]] eqn:Hput.
  - assert (Hrun :
      App.uploadFile net fileInfo p
      = App.rendered
          (App.uploadFile_catch fileInfo t
             (fold_left (App.onUploadProgress fileInfo) percentages
                (App.perform
                   (App.put_object (App.prop presignedUrl (js "url"))
                      (App.file fileInfo) (App.type fileInfo))
                   (App.uploadFile_begin fileInfo p))))).
    { unfold App.uploadFile, App.uploadFile_resume. rewrite Hf, Hok, Hparsed.
      cbn [negb].
      destruct presignedUrl; try congruence; cbv zeta; rewrite Hput; reflexivity. }
    rewrite Hrun. intros E. injection E as <-.
    destruct (progress_repaints fileInfo percentages
                (App.perform (App.put_object (App.prop presignedUrl (js "url"))
                                (App.file fileInfo) (App.type fileInfo))
                   (App.uploadFile_begin fileInfo p)))
      as (g & Hg & ->).
    eexists. apply (Hcatch t _ (fun f => g (App.started f))).
    + intros f. specialize (Hg (App.started f)). unfold App.repainted in *.
      rewrite Hg at 1. reflexivity.
    + cbn [App.files App.perform]. rewrite Hb'. now apply touch_twice.
  - rewrite (@answered_run net fileInfo p response presignedUrl percentages
               Hf Hok Hparsed Hnn Hput).
    destruct (App.object_url presignedUrl) as [u|e].
    + intros E. injection E as <-. now exists (inl u).
    + destruct (existsb (fun f => str_eqb (App.id f) (App.id fileInfo)) (App.files p))
        eqn:Hin; [discriminate |].
      intros E. injection E as <-. cbn [App.files].
      exists (inr []). now rewrite (@touch_absent _ _ _ Hin).
Qed.

(** A run of [uploadFile] in which the state update throws. *)
Lemma update_throws_run
  (net : App.network) (fileInfo : App.FileInfo) (p : App.page) (e : Error) :
  App.uploadFile net fileInfo p = App.update_throws e ->
  exists response presignedUrl percentages,
    App.fetched net = inr response
    /\ App.ok response = true
    /\ App.parsed response = inr presignedUrl
    /\ presignedUrl <> JNull
    /\ App.put net (App.prop presignedUrl (js "url")) = (percentages, None)
    /\ App.object_url presignedUrl = Throw e
    /\ existsb (fun f => str_eqb (App.id f) (App.id fileInfo)) (App.files p) = true.
Proof.
  destruct (App.fetched net) as [t|response] eqn:Hf.
  { unfold App.uploadFile, App.uploadFile_resume. rewrite Hf. discriminate. }
  destruct (App.ok response) eqn:Hok.
  2:{ unfold App.uploadFile, App.uploadFile_resume. rewrite Hf, Hok. discriminate. }
  destruct (App.parsed response) as [t|presignedUrl] eqn:Hparsed.
  { unfold App.uploadFile, App.uploadFile_resume. rewrite Hf, Hok, Hparsed.
    discriminate. }
  destruct (json_eq_null presignedUrl) as [-> | Hnn].
  { unfold App.uploadFile, App.uploadFile_resume. rewrite Hf, Hok, Hparsed.
    discriminate. }
  destruct (App.put net (App.prop presignedUrl (js "url")))
    as [percentages [t|]] eqn:Hput.
  - unfold App.uploadFile, App.uploadFile_resume. rewrite Hf, Hok, Hparsed.
    cbn [negb].
    destruct presignedUrl; try congruence; cbv zeta; rewrite Hput; discriminate.
  - rewrite (@answered_run net fileInfo p response presignedUrl percentages
               Hf Hok Hparsed Hnn Hput).
    destruct (App.object_url presignedUrl) as [u|e'] eqn:Hurl; [discriminate |].
    destruct (existsb (fun f => str_eqb (App.id f) (App.id fileInfo)) (App.files p))
      eqn:Hin; [| discriminate].
    intros E. injection E as <-.
    exists response, presignedUrl, percentages. repeat split; assumption.
Qed.

(** X17: when [uploadFile] has run to its end, either every entry of the
    file is settled, as a success at 100 percent with the URL of the object
    or as an error at 0 percent with a message, whatever progress was
    reported in between, never left uploading, the entries of the other files
    untouched; or the state update that marks the success has thrown. It
    throws in one situation, and always then: the request was answered ok,
    the transfer went through, the page holds an entry of the file, and the
    [bucket] or the [key] of the answer cannot be converted to a string. *)
Theorem upload_always_settles
  (net : App.network) (fileInfo : App.FileInfo) (p : App.page) :
  match App.uploadFile net fileInfo p with
  | App.rendered p' =>
      exists outcome : jsstring + jsstring,
        App.files p'
        = map (fun f =>
                 if str_eqb (App.id f) (App.id fileInfo) then
                   match outcome with
                   | inl u =>
                       {| App.file := App.file f; App.previewUrl := App.previewUrl f;
                          App.id := App.id f; App.name := App.name f;
                          App.size := App.size f; App.type := App.type f;
                          App.status := App.success; App.progress := 100;
                          App.url := Some u; App.errorMessage := App.errorMessage f |}
                   | inr msg =>
                       {| App.file := App.file f; App.previewUrl := App.previewUrl f;
                          App.id := App.id f; App.name := App.name f;
                          App.size := App.size f; App.type := App.type f;
                          App.status := App.error; App.progress := 0;
                          App.url := App.url f; App.errorMessage := Some msg |}
                   end
                 else f)
              (App.files p)
  | App.update_throws e =>
      e = TypeError (js "Cannot convert object to primitive value")
      /\ exists f, In f (App.files p) /\ App.id f = App.id fileInfo
  end
  /\ ((exists e, App.uploadFile net fileInfo p = App.update_throws e)
      <-> exists response presignedUrl percentages,
            App.fetched net = inr response
            /\ App.ok response = true
            /\ App.parsed response = inr presignedUrl
            /\ App.put net (App.prop presignedUrl (js "url")) = (percentages, None)
            /\ (exists f, In f (App.files p) /\ App.id f = App.id fileInfo)
            /\ (value_unrenderable (App.prop presignedUrl (js "bucket")) = true
                \/ value_unrenderable (App.prop presignedUrl (js "key")) = true)).
Proof.
  assert (Hin : existsb (fun f => str_eqb (App.id f) (App.id fileInfo)) (App.files p)
                = true
                <-> exists f, In f (App.files p) /\ App.id f = App.id fileInfo).
  { rewrite existsb_exists. split; intros (f & Hf & Hid); exists f;
      (split; [exact Hf |]); now apply str_eqb_eq. }
  split.
  - destruct (App.uploadFile net fileInfo p) as [p'|e] eqn:Hrun.
    + destruct (@rendered_settles _ _ _ _ Hrun) as (outcome & ->). exists outcome.
      unfold App.touch, App.settle. apply map_ext. intros f.
      destruct (str_eqb (App.id f) (App.id fileInfo)); [| reflexivity].
      now destruct outcome.
    + destruct (@update_throws_run _ _ _ _ Hrun)
        as (response & v & pcts & _ & _ & _ & _ & _ & Hurl & Hthere).
      apply object_url_throws in Hurl as [_ ->]. split; [reflexivity |].
      now apply Hin.
  - split.
    + intros (e & Hrun).
      destruct (@update_throws_run _ _ _ _ Hrun)
        as (response & v & pcts & Hf & Hok & Hparsed & _ & Hput & Hurl & Hthere).
      exists response, v, pcts. repeat split; try assumption.
      * now apply Hin.
      * now apply object_url_throws in Hurl as [H _].
    + intros (response & v & pcts & Hf & Hok & Hparsed & Hput & Hthere & Hbad).
      assert (Hnn : v <> JNull).
      { intros ->. destruct Hbad as [H | H]; discriminate. }
      exists conversion_error.
      rewrite (@answered_run net fileInfo p response v pcts Hf Hok Hparsed Hnn Hput).
      assert (Hurl : App.object_url v = Throw conversion_error)
        by (apply object_url_throws; now split).
      rewrite Hurl. apply Hin in Hthere. now rewrite Hthere.
Qed.

(** The run of [uploadFile] on an answer that is not ok. *)
Lemma refused_run
  (net : App.network) (fileInfo : App.FileInfo) (p : App.page)
  (response : App.answer) :
  App.fetched net = inr response ->
  App.ok response = false ->
  App.uploadFile net fileInfo p
  = App.rendered
      {| App.files :=
           App.touch (App.id fileInfo)
             (App.settle (inr (js "Failed to get upload URL: " ++ App.statusText response)))
             (App.files p);
         App.isDragging := App.isDragging p;
         App.selectedPreview := App.selectedPreview p;
         App.effects :=
           App.effects p
           ++ [ App.post_upload_url (App.name fileInfo) (App.type fileInfo);
                App.console_error (js "Error uploading " ++ App.name fileInfo ++ js ":")
                  (App.an_Error
                     (new_Error (js "Failed to get upload URL: "
                                   ++ App.statusText response)));
                App.toast_error (js "Upload failed: Failed to get upload URL: "
                                   ++ App.statusText response) ] |}.
Proof.
  intros Hf Hok. unfold App.uploadFile, App.uploadFile_resume.
  rewrite Hf, Hok. cbn [negb]. rewrite catch_run, begin_run.
  cbn [App.files App.isDragging App.selectedPreview App.effects App.message_of
       new_Error message].
  rewrite touch_settles by apply started_repaints.
  rewrite <- !app_assoc. reflexivity.
Qed.

(** X18: when the request for a presigned URL is answered with a status that
    is not ok, [uploadFile] puts nothing to the storage: it logs the error,
    settles the file as an error at 0 percent with the message
    [Failed to get upload URL: ] followed by the status text, and shows that
    message in a toast. *)
Theorem refused_url_request_fails_the_upload
  (net : App.network) (fileInfo : App.FileInfo) (p : App.page)
  (response : App.answer) :
  App.fetched net = inr response ->
  App.ok response = false ->
  App.uploadFile net fileInfo p
  = App.rendered
      {| App.files :=
           App.touch (App.id fileInfo)
             (App.settle (inr (js "Failed to get upload URL: " ++ App.statusText response)))
             (App.files p);
         App.isDragging := App.isDragging p;
         App.selectedPreview := App.selectedPreview p;
         App.effects :=
           App.effects p
           ++ [ App.post_upload_url (App.name fileInfo) (App.type fileInfo);
                App.console_error (js "Error uploading " ++ App.name fileInfo ++ js ":")
                  (App.an_Error
                     (new_Error (js "Failed to get upload URL: "
                                   ++ App.statusText response)));
                App.toast_error (js "Upload failed: Failed to get upload URL: "
                                   ++ App.statusText response) ] |}.
Proof. apply refused_run. Qed.

Lemma refused_url_request_fails_the_upload_witness :
  exists p',
    App.uploadFile App.net_500 (App.entry App.draws 0 App.cat App.pending) App.one_file
    = App.rendered p'
    /\ map App.status (App.files p') = [App.error].
Proof.
  eexists. split.
  - exact (@refused_url_request_fails_the_upload App.net_500
             (App.entry App.draws 0 App.cat App.pending) App.one_file
             App.answer_500 eq_refl eq_refl).
  - vm_compute. reflexivity.
Defined.

(** X19: when the request is answered ok with a parsed body that is not
    [null], whose [bucket] and [key] can be converted to strings, and the
    transfer does not fail, [uploadFile] puts the file, with its type as
    content type, to the [url] of that body, settles the file as a success at
    100 percent, and stores for it the URL
    [https://<bucket>.s3.amazonaws.com/<key>] built from those two strings. *)
Theorem answered_upload_succeeds
  (net : App.network) (fileInfo : App.FileInfo) (p : App.page)
  (response : App.answer) (presignedUrl : json) (percentages : list N)
  (bucket_ key_ : jsstring) :
  App.fetched net = inr response ->
  App.ok response = true ->
  App.parsed response = inr presignedUrl ->
  presignedUrl <> JNull ->
  App.put net (App.prop presignedUrl (js "url")) = (percentages, None) ->
  ToString (App.prop presignedUrl (js "bucket")) = Normal bucket_ ->
  ToString (App.prop presignedUrl (js "key")) = Normal key_ ->
  App.uploadFile net fileInfo p
  = App.rendered
      {| App.files :=
           App.touch (App.id fileInfo)
             (App.settle
                (inl (js "https://" ++ bucket_ ++ js ".s3.amazonaws.com/" ++ key_)))
             (App.files p);
         App.isDragging := App.isDragging p;
         App.selectedPreview := App.selectedPreview p;
         App.effects :=
           App.effects p
           ++ [ App.post_upload_url (App.name fileInfo) (App.type fileInfo);
                App.put_object (App.prop presignedUrl (js "url")) (App.file fileInfo)
                  (App.type fileInfo);
                App.toast_success (App.name fileInfo ++ js " uploaded successfully") ] |}.
Proof.
  intros Hf Hok Hparsed Hnn Hput Hb Hk.
  rewrite (@answered_run net fileInfo p response presignedUrl percentages
             Hf Hok Hparsed Hnn Hput).
  unfold App.object_url. now rewrite Hb, Hk.
Qed.

Lemma answered_upload_succeeds_witness :
  exists p',
    App.uploadFile App.net_200 (App.entry App.draws 0 App.cat App.pending) App.one_file
    = App.rendered p'
    /\ map App.url (App.files p')
       = [Some (js "https://media.s3.amazonaws.com/uploads/1-a-cat.png")].
Proof.
  eexists. split.
  - refine (@answered_upload_succeeds App.net_200
              (App.entry App.draws 0 App.cat App.pending) App.one_file
              App.answer_200 App.issued [40; 100] (js "media")
              (js "uploads/1-a-cat.png") eq_refl eq_refl eq_refl _ eq_refl
              eq_refl eq_refl).
    discriminate.
  - vm_compute. reflexivity.
Defined.

(* ================================================================= *)
(** ** The page and the worker together *)

Lemma upload_request_is_issuer (filename filetype : jsstring) :
  is_issuer_request (App.upload_request filename filetype) = true.
Proof. reflexivity. Qed.

Lemma allowed_type_nonempty (t : jsstring) :
  App.includes App.ALLOWED_TYPES t = true -> t <> [].
Proof. intros H ->. discriminate. Qed.

(** X20: against a worker whose credentials are incomplete, every upload of
    the page ends as an error: the worker answers 500, which is not ok, so
    the file is settled with [Failed to get upload URL: ] and the status
    text; after its request the page only logs and shows the error, and puts
    nothing to the storage. *)
Theorem page_upload_fails_against_disabled_issuer
  (w : platform) (env : Env) (statusText : jsstring)
  (net : App.network) (fileInfo : App.FileInfo) (p : App.page) :
  credentials_missing env ->
  (forall resp,
     fst (fetch w (App.upload_request (App.name fileInfo) (App.type fileInfo)) env boot)
     = Normal resp ->
     App.fetched net = inr (answer_of statusText resp)) ->
  exists p',
    App.uploadFile net fileInfo p = App.rendered p'
    /\ App.files p'
       = App.touch (App.id fileInfo)
           (App.settle (inr (js "Failed to get upload URL: " ++ statusText)))
           (App.files p)
    /\ App.effects p'
       = App.effects p
         ++ [ App.post_upload_url (App.name fileInfo) (App.type fileInfo);
              App.console_error (js "Error uploading " ++ App.name fileInfo ++ js ":")
                (App.an_Error (new_Error (js "Failed to get upload URL: " ++ statusText)));
              App.toast_error (js "Upload failed: Failed to get upload URL: "
                                 ++ statusText) ].
Proof.
  intros Hmiss Hnet.
  destruct (@fetch_without_credentials w
              (App.upload_request (App.name fileInfo) (App.type fileInfo))
              env boot Hmiss eq_refl)
    as (resp & extra & Hrun & _ & Hresp).
  specialize (Hresp (upload_request_is_issuer _ _)).
  rewrite Hrun in Hnet. specialize (Hnet resp eq_refl). subst resp.
  rewrite (@refused_run net fileInfo p _ Hnet eq_refl).
  eexists. split; [reflexivity |].
  cbn [App.files App.effects answer_of App.statusText]. split; reflexivity.
Qed.

Lemma page_upload_fails_against_disabled_issuer_witness :
  exists p',
    App.uploadFile
      {| App.fetched :=
           inr (answer_of (js "Internal Server Error")
                  (corsResponse
                     (failure_body (js "Failed to generate upload URL") init_error)
                     Sample.env_no_region (Some 500)));
         App.put := fun _ => ([], None) |}
      (App.entry App.draws 0 App.cat App.pending) App.one_file
    = App.rendered p'
    /\ map App.errorMessage (App.files p')
       = [Some (js "Failed to get upload URL: Internal Server Error")].
Proof.
  assert (Hnet : forall resp,
            fst (fetch Sample.world1
                   (App.upload_request
                      (App.name (App.entry App.draws 0 App.cat App.pending))
                      (App.type (App.entry App.draws 0 App.cat App.pending)))
                   Sample.env_no_region boot) = Normal resp ->
            App.fetched
              {| App.fetched :=
                   inr (answer_of (js "Internal Server Error")
                          (corsResponse
                             (failure_body (js "Failed to generate upload URL")
                                init_error)
                             Sample.env_no_region (Some 500)));
                 App.put := fun _ => ([], None) |}
            = inr (answer_of (js "Internal Server Error") resp)).
  { intros resp Hresp. vm_compute in Hresp. injection Hresp as <-. reflexivity. }
  destruct (@page_upload_fails_against_disabled_issuer Sample.world1
              Sample.env_no_region (js "Internal Server Error") _
              (App.entry App.draws 0 App.cat App.pending) App.one_file
              (or_intror (or_intror eq_refl)) Hnet)
    as (p' & Hrun & Hfiles & _).
  exists p'. split; [exact Hrun |]. rewrite Hfiles. vm_compute. reflexivity.
Defined.

(** X21: a file that passes the checks of the page and has a name is never
    answered 400 by an Issuer that holds a client: its request carries two
    non-empty strings, so the Issuer asks the presigner once and answers 200
    if the presigner gives a URL and 500 if it fails. *)
Theorem accepted_file_is_never_answered_400
  (w : platform) (env : Env) (m : machine) (s3 : S3Client) (f : App.File) :
  App.acceptable f = true ->
  App.File_name f <> [] ->
  s3Client m = Some s3 ->
  exists resp extra,
    fetch w (App.upload_request (App.File_name f) (App.File_type f)) env m
    = (Normal resp,
       {| s3Client := Some s3;
          trace := trace m
                   ++ GetSignedUrl s3
                        (sign_command w env (App.File_name f)
                           (Some (JStr (App.File_type f)))) 3600
                      :: extra |})
    /\ quiet extra = true
    /\ status resp
       = match presigner w s3
                 (sign_command w env (App.File_name f) (Some (JStr (App.File_type f))))
                 3600 with
         | Normal _ => 200
         | Throw _ => 500
         end.
Proof.
  intros Hacc Hname Hc. unfold App.acceptable in Hacc.
  apply andb_true_iff in Hacc as [Htype _].
  apply allowed_type_nonempty in Htype.
  rewrite fetch_routes by reflexivity. rewrite upload_request_is_issuer.
  assert (Hw : warmed env m = m) by (unfold warmed; now rewrite Hc).
  rewrite Hw.
  assert (Hb : upload_body (App.File_name f) (App.File_type f)
                 (JObj [ (js "filename", JStr (App.File_name f));
                         (js "filetype", JStr (App.File_type f)) ])).
  { eexists. repeat split; [reflexivity .. | assumption | assumption]. }
  rewrite (@issuer_valid w (App.upload_request (App.File_name f) (App.File_type f))
             env m s3 _ _ _ Hc eq_refl Hb). cbv zeta.
  fold (sign_command w env (App.File_name f) (Some (JStr (App.File_type f)))).
  destruct (presigner w s3 _ 3600) as [url|e].
  - exists (corsResponse
              (JSON_stringify
                 [ (js "url", Some (JStr url));
                   (js "key", Some (JStr (Key (sign_command w env (App.File_name f)
                                                 (Some (JStr (App.File_type f)))))));
                   (js "bucket", binding (AWS_S3_BUCKET env)) ])
              env None), [].
    repeat split.
  - eexists; eexists. unfold logged. cbn [s3Client trace].
    rewrite <- app_assoc. cbn [app]. repeat split.
Qed.

Lemma accepted_file_is_never_answered_400_witness :
  exists resp m',
    fetch Sample.world1
      (App.upload_request (App.File_name App.cat) (App.File_type App.cat))
      Sample.env Sample.ready = (Normal resp, m')
    /\ status resp = 200.
Proof.
  destruct (@accepted_file_is_never_answered_400 Sample.world1 Sample.env
              Sample.ready Sample.client App.cat eq_refl)
    as (resp & extra & Hrun & _ & Hst).
  - discriminate.
  - reflexivity.
  - exists resp. eexists. split; [exact Hrun | exact Hst].
Defined.

(** X22: the URL the page stores for an uploaded file is the very [imageUrl]
    the Validator answers for the key of that file: both are [https://], the
    bucket binding (the word [undefined] when it is unset),
    [.s3.amazonaws.com/] and the key, as soon as the file name has no line
    terminator. *)
Theorem page_url_is_the_confirmed_url
  (w : platform) (request : Request) (env : Env) (m : machine) (s3 : S3Client)
  (b : json) (filename filetype url : jsstring) :
  s3Client m = Some s3 ->
  json_body request = Normal b ->
  upload_body filename filetype b ->
  line_free filename = true ->
  presigner w s3 (sign_command w env filename (Some (JStr filetype))) 3600
  = Normal url ->
  exists resp presignedUrl k stored,
    fst (handleUploadUrl w request env m) = Normal resp
    /\ body resp = Json presignedUrl
    /\ App.prop presignedUrl (js "url") = Some (JStr url)
    /\ App.prop presignedUrl (js "key") = Some (JStr k)
    /\ App.object_url presignedUrl = Normal stored
    /\ forall request' m' props,
         json_body request' = Normal (JObj props) ->
         lookup (js "key") props = Some (JStr k) ->
         exists resp',
           handleConfirmUpload request' env m' = (Normal resp', m')
           /\ status resp' = 200
           /\ field resp' (js "imageUrl") = Some (JStr stored).
Proof.
  intros Hc Hj Hb Hlf Hsign.
  rewrite (@issuer_valid w request env m s3 b filename filetype Hc Hj Hb).
  cbv zeta. unfold sign_command in Hsign. rewrite Hsign. cbn [fst].
  set (k := key_template (Z.of_N (Date_now w)) (crypto_randomUUID w)
              (String_replace_all unsafe_filename_char (js "_") filename)).
  assert (Hshape : key_shape k).
  { apply key_template_shape;
      [apply N2Z.is_nonneg | apply crypto_randomUUID_shape | exact Hlf]. }
  exists (corsResponse
            (JSON_stringify
               [ (js "url", Some (JStr url)); (js "key", Some (JStr k));
                 (js "bucket", binding (AWS_S3_BUCKET env)) ])
            env None),
    (JSON_stringify
       [ (js "url", Some (JStr url)); (js "key", Some (JStr k));
         (js "bucket", binding (AWS_S3_BUCKET env)) ]),
    k,
    (js "https://" ++ binding_text (AWS_S3_BUCKET env) ++ js ".s3.amazonaws.com/" ++ k).
  split; [reflexivity |]. split; [reflexivity |].
  split; [reflexivity |].
  split; [unfold App.prop, JSON_stringify; cbn;
          destruct (binding (AWS_S3_BUCKET env)); reflexivity |].
  split; [unfold App.object_url, App.prop, JSON_stringify, binding;
          destruct (AWS_S3_BUCKET env); cbn; reflexivity |].
  intros request' m' props Hj' Hk'.
  rewrite (@validator_accepts_shape request' env m' props k Hj' Hk' Hshape).
  eexists. split; [reflexivity |]. split; reflexivity.
Qed.

Lemma page_url_is_the_confirmed_url_witness :
  exists resp presignedUrl,
    fst (handleUploadUrl Sample.world1 (Sample.upload "my photo.png" "image/png")
           Sample.env Sample.ready) = Normal resp
    /\ body resp = Json presignedUrl
    /\ App.object_url presignedUrl
       = Normal (js "https://media.s3.amazonaws.com/uploads/1700000000000-123e4567-e89b-42d3-a456-426614174000-my photo.png").
Proof.
  assert (Hb : upload_body (js "my photo.png") (js "image/png")
                 (JObj [ (js "filename", JStr (js "my photo.png"));
                         (js "filetype", JStr (js "image/png")) ])).
  { eexists. repeat split; [vm_compute; reflexivity .. | discriminate | discriminate]. }
  destruct (@page_url_is_the_confirmed_url Sample.world1
              (Sample.upload "my photo.png" "image/png") Sample.env Sample.ready
              Sample.client _ _ _ _ eq_refl eq_refl Hb eq_refl eq_refl)
    as (resp & presignedUrl & k & stored & Hrun & Hbody & _ & _ & _ & _).
  exists resp, presignedUrl. split; [exact Hrun |]. split; [exact Hbody |].
  vm_compute in Hrun. injection Hrun as <-. cbn in Hbody. injection Hbody as <-.
  vm_compute. reflexivity.
Defined.

(* ================================================================= *)
(** ** The upload page: sizes and removals *)

(** X23: a size of a whole number of mebibytes, such as the 15 MiB limit, is
    shown as that number with one decimal zero and the unit [MB]. *)
Theorem whole_mebibytes_show_one_decimal (k : N) :
  0 < k ->
  k * 1048576 < 2 ^ 53 ->
  App.formatFileSize (k * 1048576) = Number_toString (Z.of_N k) ++ js ".0 MB".
Proof.
  intros Hk _. unfold App.formatFileSize.
  destruct (N.ltb_spec (k * 1048576) 1024); [lia |].
  destruct (N.ltb_spec (k * 1048576) (1024 * 1024)); [lia |].
  unfold App.toFixed1_shifted. cbv zeta. change (2 ^ 20) with 1048576.
  change (1048576 / 2) with 524288.
  assert (Ht : (k * 1048576 * 10 + 524288) / 1048576 = k * 10).
  { symmetry. apply N.div_unique with 524288; lia. }
  rewrite Ht, N.div_mul, N.Div0.mod_mul by lia.
  rewrite <- !app_assoc. reflexivity.
Qed.

Lemma whole_mebibytes_show_one_decimal_witness :
  App.formatFileSize App.MAX_FILE_SIZE = js "15.0 MB".
Proof.
  change App.MAX_FILE_SIZE with (15 * 1048576).
  rewrite (@whole_mebibytes_show_one_decimal 15); [reflexivity | lia | reflexivity].
Defined.

(** X24: the kilobyte branch can show a full [1024.0 KB]: it does so for
    every size from 1048525 bytes up to one byte below a mebibyte, the
    quotient being rounded to one decimal before the unit is chosen by the
    unrounded size. *)
Theorem sizes_just_below_a_mebibyte_show_1024_KB (bytes : N) :
  1048525 <= bytes ->
  bytes < 1048576 ->
  App.formatFileSize bytes = js "1024.0 KB".
Proof.
  intros Hlo Hhi. unfold App.formatFileSize.
  destruct (N.ltb_spec bytes 1024); [lia |].
  destruct (N.ltb_spec bytes (1024 * 1024)); [| lia].
  unfold App.toFixed1_shifted. cbv zeta. change (2 ^ 10) with 1024.
  change (1024 / 2) with 512.
  assert (Ht : (bytes * 10 + 512) / 1024 = 10240).
  { symmetry. apply N.div_unique with (bytes * 10 + 512 - 10485760); lia. }
  rewrite Ht. reflexivity.
Qed.

Lemma sizes_just_below_a_mebibyte_show_1024_KB_witness :
  App.formatFileSize 1048575 = js "1024.0 KB".
Proof.
  apply (@sizes_just_below_a_mebibyte_show_1024_KB 1048575); lia.
Defined.

Lemma find_absent (i : jsstring) (fs : list App.FileInfo) :
  (forall f, In f fs -> App.id f <> i) ->
  find (fun f => str_eqb (App.id f) i) fs = None
  /\ filter (fun f => negb (str_eqb (App.id f) i)) fs = fs.
Proof.
  induction fs as [|f fs IH]; intros H; cbn [find filter]; [now split |].
  assert (E : str_eqb (App.id f) i = false)
    by (apply str_eqb_neq, H; now left).
  rewrite E. cbn [negb]. destruct IH as [IH1 IH2];
    [intros g Hg; apply H; now right |].
  now rewrite IH1, IH2.
Qed.

(** X25: [removeFile] on an id that no file of the page has leaves the list
    as it is and revokes nothing, yet shows the toast [File removed]. *)
Theorem removing_an_unknown_file_only_toasts (i : jsstring) (p : App.page) :
  (forall f, In f (App.files p) -> App.id f <> i) ->
  App.removeFile i p
  = {| App.files := App.files p; App.isDragging := App.isDragging p;
       App.selectedPreview := App.selectedPreview p;
       App.effects := App.effects p ++ [App.toast_info (js "File removed")] |}.
Proof.
  intros H. unfold App.removeFile. cbv zeta.
  destruct (@find_absent i (App.files p) H) as [-> ->]. reflexivity.
Qed.

Lemma removing_an_unknown_file_only_toasts_witness :
  App.files (App.removeFile (js "id-7") App.one_file) = App.files App.one_file.
Proof.
  rewrite (@removing_an_unknown_file_only_toasts (js "id-7") App.one_file);
    [reflexivity |].
  intros f [<- | []]. vm_compute. discriminate.
Defined.

(* ================================================================= *)
(** ** The starter worker: what counts as [/users] *)

Lemma after_shortest_prefix_found (r : regex) (p rest : jsstring) :
  Matches r p ->
  (forall p1 p2, p = p1 ++ p2 -> p2 <> [] -> ~ Matches r p1) ->
  after_shortest_prefix r (p ++ rest) = Some rest.
Proof.
  revert r. induction p as [|c p IH]; intros r Hm Hmin.
  - apply nullable_spec in Hm. destruct rest; cbn; now rewrite Hm.
  - cbn [app after_shortest_prefix].
    destruct (nullable r) eqn:Hn.
    { apply nullable_spec in Hn. destruct (Hmin [] (c :: p) eq_refl); [discriminate | exact Hn]. }
    apply IH; [now apply deriv_spec |].
    intros p1 p2 -> Hp2 Hd. apply deriv_spec in Hd.
    now apply (Hmin (c :: p1) p2).
Qed.

Lemma after_shortest_prefix_none (r : regex) (s : jsstring) :
  (forall p rest, s = p ++ rest -> ~ Matches r p) ->
  after_shortest_prefix r s = None.
Proof.
  revert r. induction s as [|c s IH]; intros r Hno; cbn [after_shortest_prefix].
  - destruct (nullable r) eqn:Hn; [| reflexivity].
    apply nullable_spec in Hn. destruct (Hno [] [] eq_refl Hn).
  - destruct (nullable r) eqn:Hn.
    { apply nullable_spec in Hn. destruct (Hno [] (c :: s) eq_refl Hn). }
    apply IH. intros p rest -> Hd. apply deriv_spec in Hd.
    now apply (Hno (c :: p) rest).
Qed.

Lemma after_shortest_prefix_some (r : regex) (s rest : jsstring) :
  after_shortest_prefix r s = Some rest ->
  exists p,
    s = p ++ rest /\ Matches r p
    /\ forall p1 p2, p = p1 ++ p2 -> p2 <> [] -> ~ Matches r p1.
Proof.
  revert r. induction s as [|c s IH]; intros r; cbn [after_shortest_prefix];
    destruct (nullable r) eqn:Hn; intros H; try discriminate.
  - injection H as <-. exists []. split; [reflexivity |].
    split; [now apply nullable_spec |].
    intros p1 p2 E Hp2. symmetry in E. apply app_eq_nil in E as [_ ->]. congruence.
  - injection H as <-. exists []. split; [reflexivity |].
    split; [now apply nullable_spec |].
    intros p1 p2 E Hp2. symmetry in E. apply app_eq_nil in E as [_ ->]. congruence.
  - destruct (IH _ H) as (p & -> & Hm & Hmin). exists (c :: p).
    split; [reflexivity |]. split; [now apply deriv_spec |].
    intros [|d p1] p2 E Hp2 Hm1.
    + apply nullable_spec in Hm1. congruence.
    + injection E as <- ->. apply (Hmin p1 p2 eq_refl Hp2). now apply deriv_spec.
Qed.

Lemma Lits_i_length (pat s : jsstring) :
  Matches (Lits_i pat) s -> List.length s = List.length pat.
Proof.
  revert s. induction pat as [|c pat IH]; intros s; cbn [Lits_i].
  - now inversion 1.
  - intros H. apply Matches_Cat in H as (s1 & s2 & -> & H1 & H2).
    inversion H1; subst. cbn. f_equal. now apply IH.
Qed.

(** The language of the pattern: [https://] in any case, then a stretch
    without line terminator, then a slash. *)
Lemma origin_pattern_spec (p : jsstring) :
  Matches origin_pattern p <->
  exists scheme stretch,
    p = scheme ++ stretch ++ [47]
    /\ Hello.is_https scheme = true /\ line_free stretch = true.
Proof.
  unfold origin_pattern, Hello.is_https, RegExp_test_anchored, line_free. split.
  - intros H. apply Matches_Cat in H as (s1 & t & -> & H1 & H).
    apply Matches_Cat in H as (s2 & s3 & -> & H2 & H3).
    apply Matches_Lit in H3. subst s3. apply Matches_star_atom in H2.
    exists s1, s2. split; [reflexivity |]. split; [now apply full_match_spec | exact H2].
  - intros (s1 & s2 & -> & H1 & H2). apply full_match_spec in H1.
    constructor; [exact H1 |]. constructor; [now apply Matches_star_atom |].
    now apply Matches_Lit.
Qed.

Lemma is_https_length (s : jsstring) : Hello.is_https s = true -> List.length s = 8%nat.
Proof.
  unfold Hello.is_https, RegExp_test_anchored. intros H.
  apply full_match_spec, Lits_i_length in H. exact H.
Qed.

(** Before the first slash of a text nothing ends with a slash. *)
Lemma first_slash (host h1 p2 : jsstring) :
  forallb (fun c => negb (c =? 47)) host = true ->
  host ++ [47] = h1 ++ 47 :: p2 -> p2 = [].
Proof.
  revert h1. induction host as [|c host IH]; intros h1 Hh E; cbn in *.
  - destruct h1 as [|x h1]; cbn in E; [now injection E |].
    injection E as _ E. now destruct h1.
  - apply andb_true_iff in Hh as [Hc Hh]. destruct h1 as [|x h1]; cbn in E.
    + injection E as -> _. discriminate.
    + injection E as _ E. now apply (IH h1).
Qed.

Lemma is_host_split (host : jsstring) :
  Hello.is_host host = true ->
  forallb (fun c => negb (c =? 47)) host = true /\ line_free host = true.
Proof.
  unfold Hello.is_host, line_free. induction host as [|c host IH]; cbn;
    [now split |].
  intros H. apply andb_true_iff in H as [Hc Hh].
  apply andb_true_iff in Hc as [H1 H2]. destruct (IH Hh) as [-> ->].
  now rewrite H1, H2.
Qed.

(** The origin is stripped off an [https] URL, the path and the query left. *)
Lemma origin_is_stripped (scheme host rest : jsstring) :
  Hello.is_https scheme = true -> Hello.is_host host = true ->
  String_replace_prefix origin_pattern (js "/") (scheme ++ host ++ [47] ++ rest)
  = js "/" ++ rest.
Proof.
  intros Hs Hh. apply is_host_split in Hh as [Hslash Hlf].
  unfold String_replace_prefix.
  replace (scheme ++ host ++ [47] ++ rest) with ((scheme ++ host ++ [47]) ++ rest)
    by (now rewrite <- !app_assoc).
  rewrite after_shortest_prefix_found; [reflexivity | |].
  - apply origin_pattern_spec. now exists scheme, host.
  - intros p1 p2 E Hp2 Hm.
    apply origin_pattern_spec in Hm as (s1 & h1 & -> & Hs1 & _).
    rewrite <- !app_assoc in E.
    apply app_same_length in E as [<- E];
      [| now rewrite (is_https_length _ Hs), (is_https_length _ Hs1)].
    cbn [app] in E. apply (first_slash _ _ _ Hslash) in E. contradiction.
Qed.

Lemma no_slash_inside (host : jsstring) :
  (forall h1 h2, host <> h1 ++ 47 :: h2) ->
  forallb (fun c => negb (c =? 47)) host = true.
Proof.
  induction host as [|c host IH]; intros H; cbn; [reflexivity |].
  destruct (N.eqb_spec c 47) as [-> | Hne].
  - destruct (H [] host eq_refl).
  - cbn. apply IH. intros h1 h2 ->. now apply (H (c :: h1) h2).
Qed.

(** X26: the starter worker answers [Response for GET request on /users]
    exactly to a [GET] whose URL is [https://], in any case, a host without
    slash or line terminator, and [/users] with nothing after it (or is the
    bare text [/users]): a query string, a trailing slash or another scheme
    all fall through to the answer for any [GET]. *)
Theorem users_route_wants_https_and_the_bare_path (request : Hello.Request) :
  snd (Hello.fetch request) = Hello.Response_json (js "Response for GET request on /users")
  <-> Hello.method request = js "GET"
      /\ (Hello.url request = js "/users"
          \/ exists scheme host,
               Hello.is_https scheme = true /\ Hello.is_host host = true
               /\ Hello.url request = scheme ++ host ++ js "/users").
Proof.
  unfold Hello.fetch. cbn [snd]. split.
  - destruct (str_eqb (Hello.method request) (js "GET")) eqn:Hm;
      [| intros H; vm_compute in H; discriminate].
    apply str_eqb_eq in Hm.
    destruct (str_eqb _ (js "/users")) eqn:Hu;
      [| intros H; vm_compute in H; discriminate].
    intros _. split; [exact Hm |]. apply str_eqb_eq in Hu.
    unfold String_replace_prefix in Hu.
    destruct (after_shortest_prefix origin_pattern (Hello.url request)) as [rest|] eqn:Ha;
      [| now left].
    right. change (js "/" ++ rest) with (47 :: rest) in Hu.
    change (js "/users") with (47 :: js "users") in Hu. injection Hu as ->.
    apply after_shortest_prefix_some in Ha as (p & Hurl & Hmatch & Hmin).
    apply origin_pattern_spec in Hmatch as (scheme & host & -> & Hs & Hlf).
    exists scheme, host. split; [exact Hs |]. split.
    + unfold Hello.is_host.
      assert (Hslash : forallb (fun c => negb (c =? 47)) host = true).
      { apply no_slash_inside. intros h1 h2 ->.
        apply (Hmin (scheme ++ h1 ++ [47]) (h2 ++ [47])).
        - now rewrite <- !app_assoc.
        - now destruct h2.
        - apply origin_pattern_spec. exists scheme, h1. split; [reflexivity |].
          split; [exact Hs |]. rewrite line_free_app in Hlf.
          now apply andb_true_iff in Hlf as [-> _]. }
      unfold line_free in Hlf. clear - Hslash Hlf.
      induction host as [|c host IH]; cbn in *; [reflexivity |].
      apply andb_true_iff in Hslash as [-> Hslash].
      apply andb_true_iff in Hlf as [-> Hlf]. cbn. now apply IH.
    + rewrite Hurl, <- !app_assoc. reflexivity.
  - intros [Hm [Hu | (scheme & host & Hs & Hh & Hu)]]; rewrite Hm, Hu; cbn [str_eqb].
    + vm_compute. reflexivity.
    + change (js "/users") with ([47] ++ js "users").
      rewrite (origin_is_stripped _ _ (js "users") Hs Hh). reflexivity.
Qed.

(** X27: over plain [http], as on a local development server, the starter
    worker never takes the [/users] route: nothing is stripped off the URL,
    and a [GET] is answered [You sent a GET request] whatever the path. *)
Theorem plain_http_never_reaches_users (request : Hello.Request) (rest : jsstring) :
  Hello.method request = js "GET" ->
  Hello.url request = js "http://" ++ rest ->
  Hello.fetch request
  = ([ Hello.log_body; Hello.log_headers; Hello.log_uri (js "http://" ++ rest) ],
     Hello.Response_json (js "You sent a GET request")).
Proof.
  intros Hm Hu. unfold Hello.fetch. rewrite Hm, Hu. cbn [str_eqb].
  assert (Hnone : after_shortest_prefix origin_pattern (js "http://" ++ rest) = None).
  { apply after_shortest_prefix_none. intros p tail E Hmatch.
    apply origin_pattern_spec in Hmatch as (scheme & host & -> & Hs & _).
    pose proof (is_https_length _ Hs) as Hlen.
    do 8 (destruct scheme as [|? scheme]; [discriminate |]).
    destruct scheme; [| discriminate].
    cbn in E. injection E as <- <- <- <- <- <- <- _.
    vm_compute in Hs. discriminate. }
  unfold String_replace_prefix. rewrite Hnone. reflexivity.
Qed.

Lemma plain_http_never_reaches_users_witness :
  snd (Hello.fetch {| Hello.method := js "GET";
                      Hello.url := js "http://localhost:8787/users" |})
  = Hello.Response_json (js "You sent a GET request").
Proof.
  rewrite (@plain_http_never_reaches_users
             {| Hello.method := js "GET"; Hello.url := js "http://localhost:8787/users" |}
             (js "localhost:8787/users") eq_refl eq_refl).
  reflexivity.
Defined.
